(** * Outbound-mail domain rotation and tiered delivery policy

    A shallow embedding of [DomainService] (services/domainService.ts) and
    [MailService] (services/mailService.ts).

    Modelling conventions.
    - JavaScript numbers that hold counters, limits, priorities and
      millisecond timestamps are integers of [Z].  [x + 1] on a counter is
      the double addition: exact while the counter is below 2^53 in
      magnitude, and without effect at 2^53, where the sum rounds back; a
      counter beyond that, which counting from 0 never produces, is taken
      to stay as it is.
    - [process.env] entries and optional message fields are [option string];
      truthiness follows JavaScript: an absent value and the empty string are
      falsy.
    - A MongoDB [ObjectId] is an opaque identifier; [toString] followed by
      [new ObjectId] is the identity, so both forms are the same [nat].
    - Each collection is the list of its documents in insertion order; the
      store itself is reliable (its calls neither reject nor lose writes)
      and a request runs to completion without interleaving with others.
    - Everything outside the repository (wall clock, nodemailer, axios,
      [parseInt], [Date.prototype.toISOString]) is an oracle collected in a
      [Runtime] record.  The Mailchimp client is the exception: the package
      the service imports, [@mailchimp/mailchimp_marketing], has
      [setConfig] but no [messages] member, so [mailchimp.messages.send]
      fails on reading [send] before anything is sent.  The clock is indexed by the
      number of [new Date()] evaluations so far and each transport by the
      number of requests issued so far, so consecutive calls may see
      different times and different outcomes. *)

From Stdlib Require Import ZArith List String Bool Lia Sorted Permutation.
Import ListNotations.
Open Scope string_scope.
Open Scope list_scope.
Open Scope Z_scope.

(** ** JavaScript values *)

Definition ObjectId := nat.
Bind Scope nat_scope with ObjectId.

(** Thrown values: [Error] is an error object built by this code with
    [new Error(message)]; [Rejected] is whatever an external library rejects
    with; [TypeError] is what the language throws when a property is read
    from [undefined] or [null], and carries the name of that property. *)
Inductive exn : Type :=
| Error (message : string)
| Rejected (reason : string)
| TypeError (property : string).

Inductive Result (A : Type) : Type :=
| Ok (value : A)
| Throw (e : exn).
Arguments Ok {A} value.
Arguments Throw {A} e.

(** The largest counter up to which [x + 1] is exact: 2^53. *)
Definition max_safe : Z := 9007199254740992.

(** [x + 1] on a counter, as the double addition computes it: the exact
    sum for every [x] from -2^53 up to, but excluding, 2^53, which covers
    every value that counting from 0 reaches; [x] itself at 2^53, since
    2^53 + 1 is not a double and rounds back.  Outside that range no
    statement below depends on the value of the sum beyond its lying
    between [x] and the limit the counter is compared with. *)
Definition plus_one (x : Z) : Z :=
  if (- max_safe <=? x) && (x <? max_safe) then x + 1 else x.

(** JavaScript truthiness of a value that is a string or undefined. *)
Definition truthy (v : option string) : bool :=
  match v with
  | Some EmptyString => false
  | Some _ => true
  | None => false
  end.

(** [v || d] with a string default. *)
Definition or_else (v : option string) (d : string) : string :=
  match v with
  | Some EmptyString => d
  | Some s => s
  | None => d
  end.

(** [v || undefined]. *)
Definition or_undefined (v : option string) : option string :=
  if truthy v then v else None.

(** ** Data model *)

(** A document of the [smtp_domains] collection. *)
Module Doc.
Record t : Type := mk {
  _id : ObjectId;
  host : string;
  port : Z;
  secure : bool;
  username : string;
  password : string;
  from : string;
  limit : Z;
  order : Z;
  created_at : string }.
End Doc.

Record DomainConfig : Type := mkDomainConfig {
  id : ObjectId;
  host : string;
  port : Z;
  secure : bool;
  username : string;
  password : string;
  from : string;
  limit : Z;
  order : Z;
  created_at : string }.

Record DomainUsage : Type := mkDomainUsage {
  _id : ObjectId;
  domain_id : ObjectId;
  window_start : Z;
  count : Z }.

(** The argument of [addDomain]: a [DomainConfig] without [id] and
    [created_at], and with an optional [order]. *)
Module NewDomain.
Record t : Type := mk {
  host : string;
  port : Z;
  secure : bool;
  username : string;
  password : string;
  from : string;
  limit : Z;
  order : option Z }.
End NewDomain.

Module User.
Record t : Type := mk {
  id : string;
  roles : option (list string) }.
End User.

Record Message : Type := mkMessage {
  to : string;
  subject : string;
  text : option string;
  html : option string }.

(** The configuration surface read from [process.env]. *)
Record Env : Type := mkEnv {
  MAILCHIMP_API_KEY : option string;
  MAILCHIMP_SERVER_PREFIX : option string;
  SENDER_EMAIL : option string;
  SMTP_HOST : option string;
  SMTP_PORT : option string;
  SMTP_USERNAME : option string;
  SMTP_PASSWORD : option string;
  SMTPDEV_API_KEY : option string;
  SMTPDEV_ACCOUNT_ID : option string;
  SMTPDEV_MAILBOX_ID : option string }.

(** ** Transport requests *)

(** nodemailer: the options of [createTransport] and of [sendMail].  A port
    is [None] when [parseInt] produced NaN. *)
Module Smtp.
Record transport : Type := mkTransport {
  host : string;
  port : option Z;
  secure : bool;
  auth_user : string;
  auth_pass : string }.
Record mail : Type := mkMail {
  from : string;
  to : string;
  subject : string;
  text : option string;
  html : option string }.
End Smtp.

(** The argument of [mailchimp.messages.send]. *)
Module Mailchimp.
Record recipient : Type := mkRecipient {
  email : string;
  type : string }.
Record message : Type := mkMessage {
  from_email : string;
  subject : string;
  text : option string;
  html : option string;
  to : list recipient }.
End Mailchimp.

(** The smtp.dev HTTP calls made through axios. *)
Module SmtpDev.
Record body : Type := mkBody {
  to : string;
  from : string;
  subject : string;
  text : string;
  html : string }.
(** [response.data]: [Nullish] when the body is [null] or [undefined];
    otherwise [member] is [None] when that field is absent or falsy. *)
Inductive data : Type :=
| Nullish
| Body (raw : string) (member : option (list string)).
End SmtpDev.

Inductive Request : Type :=
| ReqSendMail (transporter : Smtp.transport) (mail : Smtp.mail)
| ReqAxiosPost (url : string) (body : SmtpDev.body) (x_api_key : string)
| ReqAxiosGet (url : string) (x_api_key : string).

(** What [sendEmail] resolves to: the Mailchimp response, nodemailer's
    delivery info, or the body of the smtp.dev reply. *)
Inductive SendResult : Type :=
| MailchimpResponse (response : string)
| SentInfo (info : string)
| SmtpDevData (data : SmtpDev.data).

(** ** The outside world *)

Record Runtime : Type := mkRuntime {
  Date_now : nat -> Z;
  toISOString : Z -> string;
  parseInt10 : string -> option Z;
  transporter_sendMail : nat -> Smtp.transport -> Smtp.mail -> Result string;
  axios_post : nat -> string -> SmtpDev.body -> string -> Result SmtpDev.data;
  axios_get : nat -> string -> string -> Result SmtpDev.data }.

(** The mutable state a request can observe or change: the two collections,
    how often the clock was read, the transport requests issued (oldest
    first) and what was written with [console.error]. *)
Record World : Type := mkWorld {
  smtp_domains : list Doc.t;
  smtp_domain_usage : list DomainUsage;
  clock_reads : nat;
  requests : list Request;
  console : list (string * exn) }.

(** ** A state and exception monad for [async] code *)

Definition M (A : Type) : Type := World -> Result A * World.

Definition ret {A} (a : A) : M A := fun w => (Ok a, w).

Definition throw {A} (e : exn) : M A := fun w => (Throw e, w).

Definition bind {A B} (c : M A) (k : A -> M B) : M B :=
  fun w =>
    match c w with
    | (Ok a, w') => k a w'
    | (Throw e, w') => (Throw e, w')
    end.

(** [try { c } catch (e) { h e }]: the state changes made by [c] before it
    threw are kept. *)
Definition try_catch {A} (c : M A) (h : exn -> M A) : M A :=
  fun w =>
    match c w with
    | (Ok a, w') => (Ok a, w')
    | (Throw e, w') => h e w'
    end.

Declare Scope async_scope.
Delimit Scope async_scope with async.
Notation "x <- c ;; k" := (bind c (fun x => k))
  (at level 61, c at next level, right associativity) : async_scope.
Notation "c ;;; k" := (bind c (fun _ => k))
  (at level 61, right associativity) : async_scope.
Open Scope async_scope.

Definition console_error (label : string) (e : exn) : M unit :=
  fun w =>
    (Ok tt,
     mkWorld (smtp_domains w) (smtp_domain_usage w) (clock_reads w)
       (requests w) (console w ++ [(label, e)])).

(** ** Collections *)

(** The driver generates an identifier no stored document carries. *)
Definition fresh_id (ids : list ObjectId) : ObjectId :=
  S (fold_right Nat.max 0%nat ids).

(** [.sort({ order: 1 })]: ascending [order]; documents with equal [order]
    keep their storage order. *)
Fixpoint insert_by_order (d : Doc.t) (l : list Doc.t) : list Doc.t :=
  match l with
  | [] => [d]
  | x :: r =>
      if Doc.order d <=? Doc.order x then d :: x :: r
      else x :: insert_by_order d r
  end.

Definition sort_by_order (l : list Doc.t) : list Doc.t :=
  fold_right insert_by_order [] l.

(** The priority relation the sorted list respects. *)
Definition by_order (a b : Doc.t) : Prop := Doc.order a <= Doc.order b.

(** [db.collection('smtp_domains').find().sort({ order: 1 }).toArray()] *)
Definition domains_find_sorted : M (list Doc.t) :=
  fun w => (Ok (sort_by_order (smtp_domains w)), w).

(** [db.collection('smtp_domains').countDocuments()] *)
Definition domains_countDocuments : M Z :=
  fun w => (Ok (Z.of_nat (List.length (smtp_domains w))), w).

(** [db.collection('smtp_domains').insertOne(doc)], resolving to
    [insertedId]. *)
Definition domains_insertOne (doc : ObjectId -> Doc.t) : M ObjectId :=
  fun w =>
    let oid := fresh_id (map Doc._id (smtp_domains w)) in
    (Ok oid,
     mkWorld (smtp_domains w ++ [doc oid]) (smtp_domain_usage w)
       (clock_reads w) (requests w) (console w)).

(** [db.collection('smtp_domain_usage').findOne({ domain_id: domId })] *)
Definition usage_findOne (domId : ObjectId) : M (option DomainUsage) :=
  fun w =>
    (Ok (find (fun u => Nat.eqb (domain_id u) domId) (smtp_domain_usage w)),
     w).

(** [db.collection('smtp_domain_usage').insertOne(newUsage)] *)
Definition usage_insertOne (doc : ObjectId -> DomainUsage) : M ObjectId :=
  fun w =>
    let oid := fresh_id (map _id (smtp_domain_usage w)) in
    (Ok oid,
     mkWorld (smtp_domains w) (smtp_domain_usage w ++ [doc oid])
       (clock_reads w) (requests w) (console w)).

(** [$set] on the first document whose [_id] matches; no document is
    touched when none matches. *)
Fixpoint set_first (oid : ObjectId) (ws : Z) (c : Z) (l : list DomainUsage)
  : list DomainUsage :=
  match l with
  | [] => []
  | u :: r =>
      if Nat.eqb (_id u) oid then mkDomainUsage (_id u) (domain_id u) ws c :: r
      else u :: set_first oid ws c r
  end.

(** [db.collection('smtp_domain_usage').updateOne({ _id },
      { $set: { window_start, count } })] *)
Definition usage_updateOne (oid : ObjectId) (ws : Z) (c : Z) : M unit :=
  fun w =>
    (Ok tt,
     mkWorld (smtp_domains w) (set_first oid ws c (smtp_domain_usage w))
       (clock_reads w) (requests w) (console w)).

Section Services.

Variable rt : Runtime.

(** [new Date()], as milliseconds since the epoch. *)
Definition new_Date : M Z :=
  fun w =>
    (Ok (Date_now rt (clock_reads w)),
     mkWorld (smtp_domains w) (smtp_domain_usage w) (S (clock_reads w))
       (requests w) (console w)).

(** Issue a transport request: it is appended to the log and the oracle of
    that transport decides its outcome. *)
Definition issue {A} (r : Request) (outcome : nat -> Result A) : M A :=
  fun w =>
    (outcome (List.length (requests w)),
     mkWorld (smtp_domains w) (smtp_domain_usage w) (clock_reads w)
       (requests w ++ [r]) (console w)).

Definition sendMail (tr : Smtp.transport) (m : Smtp.mail) : M string :=
  issue (ReqSendMail tr m) (fun k => transporter_sendMail rt k tr m).

(** [mailchimp.messages.send(...)]: [mailchimp.messages] is [undefined],
    so reading [send] throws before the argument is looked at. *)
Definition messages_send (m : Mailchimp.message) : M string :=
  throw (TypeError "send").

Definition post (url : string) (b : SmtpDev.body) (key : string)
  : M SmtpDev.data :=
  issue (ReqAxiosPost url b key) (fun k => axios_post rt k url b key).

Definition get (url : string) (key : string) : M SmtpDev.data :=
  issue (ReqAxiosGet url key) (fun k => axios_get rt k url key).

(** ** DomainService *)

Definition toConfig (doc : Doc.t) : DomainConfig :=
  {| id := Doc._id doc;
     host := Doc.host doc;
     port := Doc.port doc;
     secure := Doc.secure doc;
     username := Doc.username doc;
     password := Doc.password doc;
     from := Doc.from doc;
     limit := Doc.limit doc;
     order := Doc.order doc;
     created_at := Doc.created_at doc |}.

Definition getDomains : M (list DomainConfig) :=
  domains <- domains_find_sorted ;;
  ret (map toConfig domains).

Definition addDomain (config : NewDomain.t) : M (option DomainConfig) :=
  try_catch
    (order <- match NewDomain.order config with
              | Some o => ret o
              | None => domains_countDocuments
              end ;;
     now <- new_Date ;;
     let doc := fun oid =>
       Doc.mk oid (NewDomain.host config) (NewDomain.port config)
         (NewDomain.secure config) (NewDomain.username config)
         (NewDomain.password config) (NewDomain.from config)
         (NewDomain.limit config) order (toISOString rt now) in
     insertedId <- domains_insertOne doc ;;
     ret (Some (toConfig (doc insertedId))))
    (fun error =>
       console_error "Error adding SMTP domain:" error ;;; ret None).

Definition getUsageDoc (domainId : ObjectId) : M DomainUsage :=
  usage <- usage_findOne domainId ;;
  match usage with
  | Some usage => ret usage
  | None =>
      now <- new_Date ;;
      let newUsage := fun oid => mkDomainUsage oid domainId now 0 in
      insertedId <- usage_insertOne newUsage ;;
      ret (newUsage insertedId)
  end.

Definition hour_ms : Z := 60 * 60 * 1000.

Definition hasQuota (domain : DomainConfig) : M (bool * DomainUsage) :=
  usage <- getUsageDoc (id domain) ;;
  now <- new_Date ;;
  let windowStart := window_start usage in
  let elapsed := now - windowStart in
  usage <- (if hour_ms <=? elapsed then
              let usage := mkDomainUsage (_id usage) (domain_id usage) now 0 in
              usage_updateOne (_id usage) (window_start usage) (count usage) ;;;
              ret usage
            else ret usage) ;;
  let available := count usage <? limit domain in
  ret (available, usage).

Definition incrementUsage (domainId : ObjectId) : M unit :=
  usage <- getUsageDoc domainId ;;
  now <- new_Date ;;
  let elapsed := now - window_start usage in
  let usage :=
    if hour_ms <=? elapsed
    then mkDomainUsage (_id usage) (domain_id usage) now 1
    else mkDomainUsage (_id usage) (domain_id usage) (window_start usage)
           (plus_one (count usage)) in
  usage_updateOne (_id usage) (window_start usage) (count usage).

(** The [for ... of] loop of [getNextAvailableDomain]. *)
Fixpoint firstWithQuota (domains : list DomainConfig)
  : M (option DomainConfig) :=
  match domains with
  | [] => ret None
  | domain :: rest =>
      r <- hasQuota domain ;;
      if fst r then ret (Some domain) else firstWithQuota rest
  end.

Definition getNextAvailableDomain : M (option DomainConfig) :=
  domains <- getDomains ;;
  firstWithQuota domains.

Definition recordUsage (domainId : ObjectId) : M unit :=
  incrementUsage domainId.

(** ** MailService *)

Definition ConfigurationError : exn :=
  Error "Mailchimp API key and server prefix must be provided for premium email sending".

Definition TransportExhausted : exn :=
  Error "No email transport configured or free tier quota exhausted. Please add domains or upgrade to premium.".

(** The constructor configures the Mailchimp client only when both values
    are present. *)
Definition constructor (env : Env) : option (string * string) :=
  match MAILCHIMP_API_KEY env, MAILCHIMP_SERVER_PREFIX env with
  | Some apiKey, Some server =>
      if truthy (Some apiKey) && truthy (Some server)
      then Some (apiKey, server) else None
  | _, _ => None
  end.

(** [Array.isArray(user.roles) && user.roles.includes('pro')] *)
Definition isPro (user : User.t) : bool :=
  match User.roles user with
  | Some roles => existsb (String.eqb "pro") roles
  | None => false
  end.

Definition defaultSender : string := "no-reply@cocoinbox.app".

Definition smtpDevUrl (accountId mailboxId : string) : string :=
  ("https://api.smtp.dev/accounts/" ++ accountId ++ "/mailboxes/"
     ++ mailboxId ++ "/messages")%string.

(** [nodemailer.createTransport] and the [sendMail] options for a
    configured domain. *)
Definition domainTransport (domain : DomainConfig) : Smtp.transport :=
  Smtp.mkTransport (host domain) (Some (port domain)) (secure domain)
    (username domain) (password domain).

Definition domainMail (domain : DomainConfig) (message : Message)
  : Smtp.mail :=
  Smtp.mkMail (from domain) (to message) (subject message)
    (or_undefined (text message)) (or_undefined (html message)).

(** Step 1 of the free tier: the body of the [try] block.  [Some info] is
    the [return info] inside it, [None] is leaving the block without
    returning. *)
Definition viaConfiguredDomain (message : Message) : M (option string) :=
  domain <- getNextAvailableDomain ;;
  match domain with
  | Some domain =>
      let transporter := domainTransport domain in
      info <- sendMail transporter (domainMail domain message) ;;
      recordUsage (id domain) ;;;
      ret (Some info)
  | None => ret None
  end.

(** Step 2: the transport built from the [SMTP_*] variables. *)
Definition staticConfigured (env : Env) : bool :=
  truthy (SMTP_HOST env) && truthy (SMTP_PORT env)
  && truthy (SMTP_USERNAME env) && truthy (SMTP_PASSWORD env).

Definition staticTransport (env : Env) : Smtp.transport :=
  let smtpPort := or_else (SMTP_PORT env) EmptyString in
  Smtp.mkTransport (or_else (SMTP_HOST env) EmptyString)
    (parseInt10 rt smtpPort)
    (match parseInt10 rt smtpPort with
     | Some p => p =? 465
     | None => false
     end)
    (or_else (SMTP_USERNAME env) EmptyString)
    (or_else (SMTP_PASSWORD env) EmptyString).

Definition staticMail (env : Env) (message : Message) : Smtp.mail :=
  Smtp.mkMail (or_else (SENDER_EMAIL env) defaultSender) (to message)
    (subject message) (or_undefined (text message))
    (or_undefined (html message)).

(** Step 3: the smtp.dev mailbox. *)
Definition smtpDevConfigured (env : Env) : bool :=
  truthy (SMTPDEV_API_KEY env) && truthy (SMTPDEV_ACCOUNT_ID env)
  && truthy (SMTPDEV_MAILBOX_ID env).

Definition smtpDevMailbox (env : Env) : string :=
  smtpDevUrl (or_else (SMTPDEV_ACCOUNT_ID env) EmptyString)
    (or_else (SMTPDEV_MAILBOX_ID env) EmptyString).

Definition smtpDevBody (env : Env) (message : Message) : SmtpDev.body :=
  SmtpDev.mkBody (to message) (or_else (SENDER_EMAIL env) defaultSender)
    (subject message) (or_else (text message) EmptyString)
    (or_else (html message) EmptyString).

(** The code after the [try] block: steps 2 and 3 and the final
    [throw]. *)
Definition fallbackTransports (env : Env) (message : Message)
  : M SendResult :=
  if staticConfigured env then
    info <- sendMail (staticTransport env) (staticMail env message) ;;
    ret (SentInfo info)
  else if smtpDevConfigured env then
    data <- post (smtpDevMailbox env) (smtpDevBody env message)
              (or_else (SMTPDEV_API_KEY env) EmptyString) ;;
    ret (SmtpDevData data)
  else throw TransportExhausted.

(** The [try { ... } catch (e) { console.error(...) }] of step 1. *)
Definition tryConfiguredDomain (message : Message) : M (option string) :=
  try_catch (viaConfiguredDomain message)
    (fun e =>
       console_error "Error sending via configured domain:" e ;;;
       ret None).

Definition sendEmail (env : Env) (user : User.t) (message : Message)
  : M SendResult :=
  if isPro user then
    if negb (truthy (MAILCHIMP_API_KEY env))
       || negb (truthy (MAILCHIMP_SERVER_PREFIX env))
    then throw ConfigurationError
    else
      let fromEmail := or_else (SENDER_EMAIL env) defaultSender in
      response <- messages_send
                    (Mailchimp.mkMessage fromEmail (subject message)
                       (or_undefined (text message))
                       (or_undefined (html message))
                       [Mailchimp.mkRecipient (to message) "to"]) ;;
      ret (MailchimpResponse response)
  else
    returned <- tryConfiguredDomain message ;;
    match returned with
    | Some info => ret (SentInfo info)
    | None => fallbackTransports env message
    end.

Definition receiveEmails (env : Env) (user : User.t) : M (list string) :=
  if isPro user then ret []
  else if smtpDevConfigured env then
    data <- get (smtpDevMailbox env)
              (or_else (SMTPDEV_API_KEY env) EmptyString) ;;
    match data with
    | SmtpDev.Nullish => throw (TypeError "member")
    | SmtpDev.Body _ (Some messages) => ret messages
    | SmtpDev.Body _ None => ret []
    end
  else ret [].

(** ** Vocabulary of the statements *)

(** The world after one more clock read. *)
Definition ticked (w : World) : World :=
  mkWorld (smtp_domains w) (smtp_domain_usage w) (S (clock_reads w))
    (requests w) (console w).

(** The world with the usage collection replaced. *)
Definition with_usage (l : list DomainUsage) (w : World) : World :=
  mkWorld (smtp_domains w) l (clock_reads w) (requests w) (console w).

(** The persisted usage record of a domain: the document [findOne]
    returns for it. *)
Definition usage_of (domainId : ObjectId) (w : World) : option DomainUsage :=
  find (fun u => Nat.eqb (domain_id u) domainId) (smtp_domain_usage w).

(** MongoDB keeps [_id] unique within a collection. *)
Definition usage_ids_unique (w : World) : Prop :=
  NoDup (map _id (smtp_domain_usage w)).

(** The verdict of the availability check of [domain] started in [w]. *)
Definition checkAvailability (domain : DomainConfig) (w : World) : bool :=
  match fst (hasQuota domain w) with
  | Ok r => fst r
  | Throw _ => false
  end.

(** The world after the availability checks of [domains], in order. *)
Definition after_checks (domains : list DomainConfig) (w : World) : World :=
  fold_left (fun w d => snd (hasQuota d w)) domains w.


(** The world after one more transport request. *)
Definition with_request (r : Request) (w : World) : World :=
  mkWorld (smtp_domains w) (smtp_domain_usage w) (clock_reads w)
    (requests w ++ [r]) (console w).

(** Every configured domain has a usage record with [count >= limit]
    whose window is unexpired at each of the clock reads of one pass over
    the pool (one read per domain). *)
Definition pool_exhausted (w : World) : Prop :=
  forall doc, In doc (smtp_domains w) ->
    exists u,
      usage_of (Doc._id doc) w = Some u
      /\ Doc.limit doc <= count u
      /\ forall k,
           (clock_reads w <= k < clock_reads w
                                + List.length (smtp_domains w))%nat ->
           Date_now rt k - window_start u < hour_ms.

(** The persisted count of a domain, if it has a usage record. *)
Definition count_of (w : World) (doc : Doc.t) : option Z :=
  option_map count (usage_of (Doc._id doc) w).

(** A call that started in [w] and ended in [w'] with result [r] was
    delivered through domain [doc]: it resolved to the delivery info of
    exactly one transport request, made to that domain's host and port with
    that domain's credentials and sender, and the domain's persisted count
    is now 1. *)
Definition delivered_via (doc : Doc.t) (message : Message)
           (r : Result SendResult) (w w' : World) : Prop :=
  let tr :=
    Smtp.mkTransport (Doc.host doc) (Some (Doc.port doc)) (Doc.secure doc)
      (Doc.username doc) (Doc.password doc) in
  let mail :=
    Smtp.mkMail (Doc.from doc) (to message) (subject message)
      (match text message with
       | Some EmptyString => None
       | other => other
       end)
      (match html message with
       | Some EmptyString => None
       | other => other
       end) in
  requests w' = requests w ++ [ReqSendMail tr mail]
  /\ r = match transporter_sendMail rt (List.length (requests w)) tr mail with
         | Ok info => Ok (SentInfo info)
         | Throw e => Throw e
         end
  /\ (exists info, r = Ok (SentInfo info))
  /\ count_of w' doc = Some 1.

(** A registry built only by [addDomain] calls that omit [order]: the
    document stored at position [i] has [order = i]. *)
Definition defaulted (l : list Doc.t) : Prop :=
  forall i d, nth_error l i = Some d -> Doc.order d = Z.of_nat i.

End Services.

(** ** A sample deployment

    Concrete runtimes, registries and requests on which the statements
    below are exercised. *)

Module Sample.

(** A clock that shows [start] at its first read and advances by [step]
    milliseconds at each read. *)
Definition clock (start step : Z) : nat -> Z :=
  fun k => start + step * Z.of_nat k.

(** A runtime whose SMTP transport always answers [smtp] and whose
    mailbox requests always answer [mailbox]. *)
Definition runtime (now : nat -> Z) (smtp : Result string)
           (mailbox : Result SmtpDev.data) : Runtime :=
  mkRuntime now
    (fun _ => "2024-05-01T08:00:00.000Z")
    (fun s => if String.eqb s "465" then Some 465
              else if String.eqb s "587" then Some 587 else None)
    (fun _ _ _ => smtp)
    (fun _ _ _ _ => mailbox)
    (fun _ _ _ => mailbox).

Definition inbox : SmtpDev.data :=
  SmtpDev.Body "{}" (Some ["message-1"; "message-2"]).

(** All transports accept; the clock advances one second per read. *)
Definition healthy : Runtime :=
  runtime (clock 1000 1000) (Ok "250 queued") (Ok inbox).

(** As [healthy], read more than an hour after the epoch. *)
Definition late : Runtime :=
  runtime (clock 4000000 1000) (Ok "250 queued") (Ok inbox).

(** The SMTP transport and the mailbox both reject. *)
Definition offline : Runtime :=
  runtime (clock 1000 1000) (Throw (Rejected "ECONNREFUSED"))
    (Throw (Rejected "ETIMEDOUT")).

(** The SMTP transport rejects while the mailbox accepts. *)
Definition smtp_down : Runtime :=
  runtime (clock 1000 1000) (Throw (Rejected "ECONNREFUSED")) (Ok inbox).

(** The mailbox answers, with [null] as the body of its reply. *)
Definition no_body : Runtime :=
  runtime (clock 1000 1000) (Ok "250 queued") (Ok SmtpDev.Nullish).

Definition relay (oid : ObjectId) (name : string) (lim ord : Z) : Doc.t :=
  Doc.mk oid name 587 false "mailer" "secret" name lim ord
    "2024-05-01T08:00:00.000Z".

Definition newRelay (name : string) : NewDomain.t :=
  NewDomain.mk name 587 false "mailer" "secret" name 10 None.

Definition free_user : User.t := User.mk "user-1" (Some ["user"]).

Definition pro_user : User.t := User.mk "user-2" (Some ["user"; "pro"]).

Definition hello : Message :=
  mkMessage "bob@example.org" "Hello" (Some "Hi Bob") None.

Definition bare_env : Env :=
  mkEnv None None None None None None None None None None.

(** Only the static SMTP fallback is configured. *)
Definition static_env : Env :=
  mkEnv None None None (Some "smtp.example.org") (Some "587")
    (Some "mailer") (Some "secret") None None None.

(** Only the smtp.dev mailbox is configured. *)
Definition mailbox_env : Env :=
  mkEnv None None None None None None None (Some "key") (Some "acct")
    (Some "box").

(** The static SMTP fallback and the smtp.dev mailbox are configured. *)
Definition fallback_env : Env :=
  mkEnv None None None (Some "smtp.example.org") (Some "587")
    (Some "mailer") (Some "secret") (Some "key") (Some "acct") (Some "box").

Definition world (domains : list Doc.t) (usage : list DomainUsage) : World :=
  mkWorld domains usage 0 [] [].

End Sample.

From Stdlib Require Import Ascii.

(** ** Invariants of the quota store *)

(** No domain has more than one usage record. *)
Definition one_record_per_domain (w : World) : Prop :=
  NoDup (map domain_id (smtp_domain_usage w)).

(** The quota store is consistent with the registry: identifiers are
    unique in both collections, no limit and no count is negative, and the
    persisted count of every configured domain is at most its limit. *)
Definition within_limits (w : World) : Prop :=
  usage_ids_unique w
  /\ NoDup (map Doc._id (smtp_domains w))
  /\ Forall (fun doc => 0 <= Doc.limit doc) (smtp_domains w)
  /\ Forall (fun u => 0 <= count u) (smtp_domain_usage w)
  /\ forall doc u,
       In doc (smtp_domains w) ->
       usage_of (Doc._id doc) w = Some u ->
       count u <= Doc.limit doc.

(** The world after [addDomain] was called for each configuration in
    turn. *)
Fixpoint addDomains (rt : Runtime) (configs : list NewDomain.t) (w : World)
  : World :=
  match configs with
  | [] => w
  | config :: rest => addDomains rt rest (snd (addDomain rt config w))
  end.

(** The world after [n] consecutive [recordUsage] calls for one domain. *)
Fixpoint recordUsages (rt : Runtime) (domainId : ObjectId) (n : nat)
         (w : World) : World :=
  match n with
  | O => w
  | S k => recordUsages rt domainId k (snd (recordUsage rt domainId w))
  end.

(** The world after a failed send through a configured domain: the request
    was issued and the failure was written to the console. *)
Definition after_failed_send (domain : DomainConfig) (message : Message)
           (e : exn) (w : World) : World :=
  mkWorld (smtp_domains w) (smtp_domain_usage w) (clock_reads w)
    (requests w ++ [ReqSendMail (domainTransport domain)
                      (domainMail domain message)])
    (console w ++ [("Error sending via configured domain:", e)]).

(** The world after [sendEmail] was called for each message in turn. *)
Fixpoint sendEmails (rt : Runtime) (env : Env) (user : User.t)
         (messages : list Message) (w : World) : World :=
  match messages with
  | [] => w
  | message :: rest =>
      sendEmails rt env user rest (snd (sendEmail rt env user message w))
  end.

(** * The record services: notes, files and ephemeral addresses

    [NoteService], [FileService] and [EmailService] each wrap one
    collection.  Every method runs inside [try { ... } catch], so a failure
    becomes the method's fallback value ([null], [false], [[]]) after a
    [console.error]; with a reliable store the only failure left is the
    [ObjectId] constructor rejecting a malformed identifier.  A returned
    object [{ id: doc._id.toString(), ...doc }] is represented by the
    document itself, and [.sort({ created_at: -1 })] is taken to keep the
    storage order of documents with equal keys. *)

Module Note.
Record doc : Type := mk {
  _id : ObjectId;
  user_id : string;
  title : string;
  encrypted_content : string;
  auto_delete_after_read : bool;
  has_been_read : bool;
  expires_at : option string;
  created_at : string }.
End Note.

Module File.
Record doc : Type := mk {
  _id : ObjectId;
  user_id : string;
  filename : string;
  encrypted_file_url : string;
  file_size : Z;
  password_protected : bool;
  password_hash : option string;
  expires_at : option string;
  max_downloads : option Z;
  watermark_enabled : bool;
  download_count : Z;
  created_at : string }.
End File.

Module Email.
Record doc : Type := mk {
  _id : ObjectId;
  user_id : string;
  email_address : string;
  alias_name : option string;
  expires_at : string;
  is_active : bool;
  created_at : string }.
End Email.

(** The collections of the record services, the number of times an
    oracle (clock, random source, salt) was consulted, and the labels
    written with [console.error]. *)
Record Store : Type := mkStore {
  secure_notes : list Note.doc;
  secure_files : list File.doc;
  ephemeral_emails : list Email.doc;
  oracle_calls : nat;
  error_log : list string }.

(** What lies outside the record services: the [ObjectId] constructor
    ([None] when it throws), bcrypt, and the random local part
    [Math.random().toString(36).substring(7)]. *)
Record Platform : Type := mkPlatform {
  new_ObjectId : string -> option ObjectId;
  bcrypt_hash : nat -> string -> Z -> string;
  bcrypt_compare : string -> string -> bool;
  random_local_part : nat -> string }.

Definition with_notes (l : list Note.doc) (s : Store) : Store :=
  mkStore l (secure_files s) (ephemeral_emails s) (oracle_calls s)
    (error_log s).

Definition with_files (l : list File.doc) (s : Store) : Store :=
  mkStore (secure_notes s) l (ephemeral_emails s) (oracle_calls s)
    (error_log s).

Definition with_emails (l : list Email.doc) (s : Store) : Store :=
  mkStore (secure_notes s) (secure_files s) l (oracle_calls s) (error_log s).

(** One more oracle consultation. *)
Definition consulted (s : Store) : Store :=
  mkStore (secure_notes s) (secure_files s) (ephemeral_emails s)
    (S (oracle_calls s)) (error_log s).

(** The [catch] branch: [console.error(label, error)]. *)
Definition caught (label : string) (s : Store) : Store :=
  mkStore (secure_notes s) (secure_files s) (ephemeral_emails s)
    (oracle_calls s) (error_log s ++ [label]).

(** [updateOne]: [f] applied to the first document that satisfies [p];
    the result also tells whether a document matched and whether it
    changed. *)
Fixpoint update_first {A : Type} (p : A -> bool) (f : A -> A) (l : list A)
  : list A :=
  match l with
  | [] => []
  | x :: r => if p x then f x :: r else x :: update_first p f r
  end.

(** [deleteOne]: the first document that satisfies [p] is removed. *)
Fixpoint delete_first {A : Type} (p : A -> bool) (l : list A) : list A :=
  match l with
  | [] => []
  | x :: r => if p x then r else x :: delete_first p r
  end.

(** [.sort({ created_at: -1 })]: descending by the string's binary order,
    equal keys keeping their storage order. *)
Fixpoint insert_newest {A : Type} (key : A -> string) (x : A) (l : list A)
  : list A :=
  match l with
  | [] => [x]
  | y :: r =>
      if String.leb (key y) (key x) then x :: y :: r
      else y :: insert_newest key x r
  end.

Definition newest_first {A : Type} (key : A -> string) (l : list A) : list A :=
  fold_right (insert_newest key) [] l.

(** [a] is listed before [b] only if it is not older. *)
Definition not_older {A : Type} (key : A -> string) (a b : A) : Prop :=
  String.leb (key b) (key a) = true.

Section RecordServices.

Variable rt : Runtime.
Variable pf : Platform.

(** ** NoteService *)

Definition createNote (userId title encryptedContent : string)
           (autoDeleteAfterRead : bool) (expiresAt : option string)
           (s : Store) : option Note.doc * Store :=
  let now := Date_now rt (oracle_calls s) in
  let doc := fun oid =>
    Note.mk oid userId title encryptedContent autoDeleteAfterRead false
      expiresAt (toISOString rt now) in
  let insertedId := fresh_id (map Note._id (secure_notes s)) in
  (Some (doc insertedId),
   consulted (with_notes (secure_notes s ++ [doc insertedId]) s)).

Definition getUserNotes (userId : string) (s : Store)
  : list Note.doc * Store :=
  (newest_first Note.created_at
     (filter (fun n => String.eqb (Note.user_id n) userId) (secure_notes s)),
   s).

Definition getNote (noteId userId : string) (s : Store)
  : option Note.doc * Store :=
  match new_ObjectId pf noteId with
  | None => (None, caught "Error fetching note:" s)
  | Some oid =>
      match find (fun n => Nat.eqb (Note._id n) oid
                           && String.eqb (Note.user_id n) userId)
                 (secure_notes s) with
      | None => (None, s)
      | Some note =>
          if Note.auto_delete_after_read note
             && negb (Note.has_been_read note)
          then
            (Some note,
             with_notes
               (update_first (fun n => Nat.eqb (Note._id n) (Note._id note))
                  (fun n =>
                     Note.mk (Note._id n) (Note.user_id n) (Note.title n)
                       (Note.encrypted_content n)
                       (Note.auto_delete_after_read n) true
                       (Note.expires_at n) (Note.created_at n))
                  (secure_notes s))
               s)
          else (Some note, s)
      end
  end.

Definition deleteNote (noteId userId : string) (s : Store) : bool * Store :=
  match new_ObjectId pf noteId with
  | None => (false, caught "Error deleting note:" s)
  | Some oid =>
      let p := fun n => Nat.eqb (Note._id n) oid
                        && String.eqb (Note.user_id n) userId in
      (existsb p (secure_notes s),
       with_notes (delete_first p (secure_notes s)) s)
  end.

(** ** FileService *)

Definition createFile (userId filename encryptedFileUrl : string)
           (fileSize : Z) (passwordProtected : bool)
           (password expiresAt : option string) (maxDownloads : option Z)
           (watermarkEnabled : option bool) (s : Store)
  : option File.doc * Store :=
  let watermark := match watermarkEnabled with
                   | Some b => b
                   | None => true
                   end in
  let hashing := passwordProtected && truthy password in
  let passwordHash :=
    if hashing
    then Some (bcrypt_hash pf (oracle_calls s) (or_else password EmptyString) 10)
    else None in
  let s1 := if hashing then consulted s else s in
  let now := Date_now rt (oracle_calls s1) in
  let doc := fun oid =>
    File.mk oid userId filename encryptedFileUrl fileSize passwordProtected
      passwordHash expiresAt maxDownloads watermark 0 (toISOString rt now) in
  let insertedId := fresh_id (map File._id (secure_files s)) in
  (Some (doc insertedId),
   consulted (with_files (secure_files s ++ [doc insertedId]) s1)).

Definition getUserFiles (userId : string) (s : Store)
  : list File.doc * Store :=
  (newest_first File.created_at
     (filter (fun f => String.eqb (File.user_id f) userId) (secure_files s)),
   s).

Definition getFile (fileId : string) (password : option string) (s : Store)
  : option File.doc * Store :=
  match new_ObjectId pf fileId with
  | None => (None, caught "Error fetching file:" s)
  | Some oid =>
      match find (fun f => Nat.eqb (File._id f) oid) (secure_files s) with
      | None => (None, s)
      | Some file =>
          if File.password_protected file then
            if negb (truthy password) || negb (truthy (File.password_hash file))
            then (None, s)
            else if bcrypt_compare pf (or_else password EmptyString)
                      (or_else (File.password_hash file) EmptyString)
            then (Some file, s)
            else (None, s)
          else (Some file, s)
      end
  end.

Definition incrementDownloadCount (fileId : string) (s : Store)
  : bool * Store :=
  match new_ObjectId pf fileId with
  | None => (false, caught "Error incrementing download count:" s)
  | Some oid =>
      match find (fun f => Nat.eqb (File._id f) oid) (secure_files s) with
      | None => (false, s)
      | Some file =>
          let newCount := plus_one (File.download_count file) in
          (negb (newCount =? File.download_count file),
           with_files
             (update_first (fun f => Nat.eqb (File._id f) (File._id file))
                (fun f =>
                   File.mk (File._id f) (File.user_id f) (File.filename f)
                     (File.encrypted_file_url f) (File.file_size f)
                     (File.password_protected f) (File.password_hash f)
                     (File.expires_at f) (File.max_downloads f)
                     (File.watermark_enabled f) newCount (File.created_at f))
                (secure_files s))
             s)
      end
  end.

Definition deleteFile (fileId userId : string) (s : Store) : bool * Store :=
  match new_ObjectId pf fileId with
  | None => (false, caught "Error deleting file:" s)
  | Some oid =>
      let p := fun f => Nat.eqb (File._id f) oid
                        && String.eqb (File.user_id f) userId in
      (existsb p (secure_files s),
       with_files (delete_first p (secure_files s)) s)
  end.

(** ** EmailService *)

Definition day_ms : Z := 24 * 60 * 60 * 1000.

Definition createEphemeralEmail (userId : string) (aliasName : option string)
           (s : Store) : option Email.doc * Store :=
  let emailAddress :=
    (random_local_part pf (oracle_calls s) ++ "@ephemeral.cocoinbox.app")%string in
  let expiresAt :=
    toISOString rt (Date_now rt (S (oracle_calls s)) + day_ms) in
  let createdAt := toISOString rt (Date_now rt (S (S (oracle_calls s)))) in
  let doc := fun oid =>
    Email.mk oid userId emailAddress aliasName expiresAt true createdAt in
  let insertedId := fresh_id (map Email._id (ephemeral_emails s)) in
  (Some (doc insertedId),
   consulted (consulted (consulted
     (with_emails (ephemeral_emails s ++ [doc insertedId]) s)))).

Definition getUserEmails (userId : string) (s : Store)
  : list Email.doc * Store :=
  (newest_first Email.created_at
     (filter (fun e => String.eqb (Email.user_id e) userId
                       && Email.is_active e)
        (ephemeral_emails s)),
   s).

Definition deactivated (e : Email.doc) : Email.doc :=
  Email.mk (Email._id e) (Email.user_id e) (Email.email_address e)
    (Email.alias_name e) (Email.expires_at e) false (Email.created_at e).

(** [modifiedCount > 0]: a document matched and [$set] changed it. *)
Definition deactivateEmail (emailId userId : string) (s : Store)
  : bool * Store :=
  match new_ObjectId pf emailId with
  | None => (false, caught "Error deactivating email:" s)
  | Some oid =>
      let p := fun e => Nat.eqb (Email._id e) oid
                        && String.eqb (Email.user_id e) userId in
      (match find p (ephemeral_emails s) with
       | Some e => Email.is_active e
       | None => false
       end,
       with_emails (update_first p deactivated (ephemeral_emails s)) s)
  end.

(** [updateMany({ expires_at: { $lt: now } }, ...)] with [now] an ISO
    string, compared as strings. *)
Definition deleteExpiredEmails (s : Store) : unit * Store :=
  let now := toISOString rt (Date_now rt (oracle_calls s)) in
  (tt,
   consulted
     (with_emails
        (map (fun e => if String.ltb (Email.expires_at e) now
                       then deactivated e else e)
           (ephemeral_emails s))
        s)).

End RecordServices.

(** * The authentication middleware (middleware/auth.ts)

    [authenticate] checks a bearer token of the form
    [header.payload.signature], signed with HMAC-SHA256 under [JWT_SECRET].
    The HMAC digest (in base64), the decoding of the payload (base64, then
    [JSON.parse]) and the [ObjectId] constructor are oracles; [next()] is
    taken to return normally. *)

Module Auth.

(** A document of the [users] collection, as far as the middleware reads
    it. *)
Record user_doc : Type := mkUserDoc {
  _id : ObjectId;
  email : string }.

(** [req.user]. *)
Record principal : Type := mkPrincipal {
  id : ObjectId;
  user_email : string }.

(** The decoded payload object: a field is [None] when absent. *)
Record claims : Type := mkClaims {
  userId : option string;
  exp : option Z }.

(** The outcome of decoding the payload: [JSON.parse] (or the decoding
    before it) throws, yields a falsy value, or yields an object. *)
Inductive decoded : Type :=
| Unparsable
| Falsy
| Object (c : claims).

(** What the middleware does to the response and the chain:
    [res.status(status).json({ error })] or [next()]. *)
Inductive event : Type :=
| Respond (status : Z) (error : string)
| Next.

Record outcome : Type := mkOutcome {
  events : list event;
  req_user : option principal;
  logged : list string }.

Record Crypto : Type := mkCrypto {
  hmac_sha256_base64 : string -> string -> string;
  decode_payload : string -> decoded;
  parse_id : string -> option ObjectId }.

(** [s.replace(/c/g, '')] *)
Fixpoint remove_all (c : Ascii.ascii) (s : string) : string :=
  match s with
  | EmptyString => EmptyString
  | String x r =>
      if Ascii.eqb x c then remove_all c r else String x (remove_all c r)
  end.

(** [s.replace(/c/g, d)] *)
Fixpoint replace_all (c d : Ascii.ascii) (s : string) : string :=
  match s with
  | EmptyString => EmptyString
  | String x r =>
      String (if Ascii.eqb x c then d else x) (replace_all c d r)
  end.

(** [s.split(sep)] for a one-character separator. *)
Fixpoint split (sep : Ascii.ascii) (s : string) : list string :=
  match s with
  | EmptyString => [EmptyString]
  | String x r =>
      if Ascii.eqb x sep then EmptyString :: split sep r
      else match split sep r with
           | [] => [String x EmptyString]
           | part :: parts => String x part :: parts
           end
  end.

(** [s.substring(n)] *)
Definition substring_from (n : nat) (s : string) : string :=
  String.substring n (String.length s - n) s.

Definition reject (status : Z) (error : string) : outcome :=
  mkOutcome [Respond status error] None [].

Section Middleware.

Variable cr : Crypto.
Variable JWT_SECRET : option string.

(** The signature the middleware expects for [header.payload]. *)
Definition expectedSignature (headerEncoded payloadEncoded : string) : string :=
  let dataToSign := (headerEncoded ++ "." ++ payloadEncoded)%string in
  replace_all "/"%char "_"%char
    (replace_all "+"%char "-"%char
       (remove_all "="%char
          (hmac_sha256_base64 cr (or_else JWT_SECRET EmptyString) dataToSign))).

(** The inner [try] block: decoding the payload and looking up the
    user. *)
Definition checkPayload (payloadEncoded : string) (users : list user_doc)
           (now : Z) : outcome :=
  match decode_payload cr
          (replace_all "_"%char "/"%char
             (replace_all "-"%char "+"%char payloadEncoded)) with
  | Unparsable =>
      mkOutcome [Respond 401 "Invalid token"] None ["Token parsing error:"]
  | Falsy => reject 401 "Invalid token payload"
  | Object c =>
      if negb (truthy (userId c)) then reject 401 "Invalid token payload"
      else if match exp c with
              | Some e => negb (e =? 0) && (e <? now / 1000)
              | None => false
              end
      then reject 401 "Token expired"
      else
        match parse_id cr (or_else (userId c) EmptyString) with
        | None =>
            mkOutcome [Respond 401 "Invalid token"] None
              ["Token parsing error:"]
        | Some oid =>
            match find (fun u => Nat.eqb (_id u) oid) users with
            | None => reject 401 "User not found"
            | Some user =>
                mkOutcome [Next; Next]
                  (Some (mkPrincipal (_id user) (email user))) []
            end
        end
  end.

Definition authenticate (authorization : option string)
           (users : list user_doc) (now : Z) : outcome :=
  let authHeader := or_else authorization EmptyString in
  if negb (truthy authorization) || negb (String.prefix "Bearer " authHeader)
  then reject 401 "Missing or invalid authorization header"
  else
    let token := substring_from 7 authHeader in
    if negb (truthy JWT_SECRET) then reject 500 "Server misconfiguration"
    else
      match split "."%char token with
      | [headerEncoded; payloadEncoded; signature] =>
          if negb (String.eqb signature
                     (expectedSignature headerEncoded payloadEncoded))
          then reject 401 "Invalid or expired token"
          else checkPayload payloadEncoded users now
      | _ => reject 401 "Invalid or expired token"
      end.

(** A request the middleware ought to let through as [who]: a bearer
    token of three parts whose signature is the expected one and whose
    payload names an existing user and has not expired. *)
Definition admissible (authorization : option string)
           (users : list user_doc) (now : Z) (who : principal) : Prop :=
  exists header headerEncoded payloadEncoded c oid user,
    authorization = Some header
    /\ String.prefix "Bearer " header = true
    /\ truthy JWT_SECRET = true
    /\ split "."%char (substring_from 7 header)
       = [headerEncoded; payloadEncoded;
          expectedSignature headerEncoded payloadEncoded]
    /\ decode_payload cr
         (replace_all "_"%char "/"%char
             (replace_all "-"%char "+"%char payloadEncoded))
       = Object c
    /\ truthy (userId c) = true
    /\ (forall e, exp c = Some e -> e = 0 \/ now / 1000 <= e)
    /\ parse_id cr (or_else (userId c) EmptyString) = Some oid
    /\ find (fun u => Nat.eqb (_id u) oid) users = Some user
    /\ who = mkPrincipal (_id user) (email user).

End Middleware.

End Auth.

(** * Sample data for the further statements *)

Module Cases.

(** Identifiers are written ["id-1"], ["id-2"], ["id-3"]; anything else is
    rejected by the constructor. *)
Definition oid_of (s : string) : option ObjectId :=
  if String.eqb s "id-1" then Some 1%nat
  else if String.eqb s "id-2" then Some 2%nat
  else if String.eqb s "id-3" then Some 3%nat
  else None.

(** A bcrypt stand-in: the hash is the password behind a fixed prefix. *)
Definition platform : Platform :=
  mkPlatform oid_of
    (fun _ password _ => ("$2b$10$" ++ password)%string)
    (fun password hash => String.eqb hash ("$2b$10$" ++ password)%string)
    (fun _ => "k3x9a").

Definition note1 : Note.doc :=
  Note.mk 1 "alice" "plan" "0xA1" true false None "2024-05-01T08:00:00.000Z".

Definition note2 : Note.doc :=
  Note.mk 2 "bob" "list" "0xB2" false false None "2024-05-02T08:00:00.000Z".

Definition file1 : File.doc :=
  File.mk 1 "alice" "report.pdf" "s3://bucket/1" 2048 true
    (Some "$2b$10$hunter2") None (Some 1) true 1 "2024-05-01T08:00:00.000Z".

Definition file2 : File.doc :=
  File.mk 2 "bob" "notes.txt" "s3://bucket/2" 10 false None None None true 0
    "2024-05-02T08:00:00.000Z".

Definition email1 : Email.doc :=
  Email.mk 1 "alice" "a1@ephemeral.cocoinbox.app" None
    "2024-05-02T08:00:00.000Z" true "2024-05-01T08:00:00.000Z".

Definition email2 : Email.doc :=
  Email.mk 2 "alice" "a2@ephemeral.cocoinbox.app" (Some "shop")
    "2024-05-03T08:00:00.000Z" true "2024-05-02T08:00:00.000Z".

Definition store : Store :=
  mkStore [note1; note2] [file1; file2] [email1; email2] 0 [].

(** A registry with one relay of limit 3 and its usage record after one
    send. *)
Definition relay : Doc.t := Sample.relay 7 "a.example" 3 0.

Definition used_once : World :=
  Sample.world [relay] [mkDomainUsage 1 7 0 1].

(** A registry of two relays, the first one exhausted. *)
Definition second : Doc.t := Sample.relay 8 "b.example" 2 1.

Definition first_full : World :=
  Sample.world [relay; second] [mkDomainUsage 1 7 0 3; mkDomainUsage 2 8 0 0].

Definition mailchimp_env : Env :=
  mkEnv (Some "key-us1") (Some "us1") (Some "sender@cocoinbox.app") None None
    None None None None None.

(** The middleware's oracles: a digest that contains each of the three
    characters the middleware rewrites, and one payload that decodes. *)
Definition crypto : Auth.Crypto :=
  Auth.mkCrypto
    (fun _ _ => "c2ln+bmF0/dXJl=")
    (fun s => if String.eqb s "eyJ1c2VyIn0+/"
              then Auth.Object (Auth.mkClaims (Some "id-1") (Some 2000000000))
              else Auth.Unparsable)
    oid_of.

Definition users : list Auth.user_doc :=
  [Auth.mkUserDoc 1 "alice@example.org"; Auth.mkUserDoc 2 "bob@example.org"].

Definition bearer : string := "Bearer aGVhZGVy.eyJ1c2VyIn0-_.c2ln-bmF0_dXJl".

End Cases.

(** * Properties *)

(** ** Counters *)

Lemma plus_one_exact (x : Z) :
  - max_safe <= x < max_safe -> plus_one x = x + 1.
Proof.
  intros [Hlo Hhi]. unfold plus_one.
  destruct (Z.leb_spec (- max_safe) x); [|lia].
  destruct (Z.ltb_spec x max_safe); [reflexivity | lia].
Qed.

Lemma plus_one_stuck (x : Z) : max_safe <= x -> plus_one x = x.
Proof.
  intros H. unfold plus_one.
  destruct (Z.ltb_spec x max_safe); [lia|].
  now rewrite andb_false_r.
Qed.

Lemma plus_one_bounds (x : Z) : x <= plus_one x <= x + 1.
Proof.
  unfold plus_one. destruct (_ && _); lia.
Qed.

Lemma plus_one_0 : plus_one 0 = 1.
Proof.
  reflexivity.
Qed.

Lemma plus_one_positive (x : Z) : 0 <= x -> 1 <= plus_one x.
Proof.
  intros H. destruct (Z.ltb_spec x max_safe).
  - rewrite plus_one_exact; unfold max_safe in *; lia.
  - rewrite plus_one_stuck; unfold max_safe in *; lia.
Qed.

(** ** The priority order of [getDomains] *)






Lemma insert_by_order_perm (d : Doc.t) (l : list Doc.t) :
  Permutation (insert_by_order d l) (d :: l).
Proof.
  induction l as [|y r IH]; simpl.
  - reflexivity.
  - destruct (Doc.order d <=? Doc.order y).
    + reflexivity.
    + rewrite IH. apply perm_swap.
Qed.

Lemma sort_by_order_perm (l : list Doc.t) : Permutation (sort_by_order l) l.
Proof.
  induction l as [|d r IH]; simpl.
  - constructor.
  - rewrite insert_by_order_perm. now constructor.
Qed.



(** ** The usage collection *)

Lemma fresh_id_bound (ids : list ObjectId) (i : ObjectId) :
  In i ids -> (i < fresh_id ids)%nat.
Proof.
  unfold fresh_id. induction ids as [|j r IH]; simpl.
  - intros [].
  - intros [->|H].
    + lia.
    + specialize (IH H). lia.
Qed.

Lemma fresh_id_fresh (ids : list ObjectId) : ~ In (fresh_id ids) ids.
Proof.
  intros H. apply fresh_id_bound in H. lia.
Qed.

Lemma set_first_ids (oid : ObjectId) (ws c : Z) (l : list DomainUsage) :
  map _id (set_first oid ws c l) = map _id l.
Proof.
  induction l as [|u r IH]; simpl.
  - reflexivity.
  - destruct (Nat.eqb (_id u) oid); simpl; [reflexivity | now rewrite IH].
Qed.

Lemma set_first_absent (oid : ObjectId) (ws c : Z) (l : list DomainUsage) :
  ~ In oid (map _id l) -> set_first oid ws c l = l.
Proof.
  induction l as [|u r IH]; simpl.
  - reflexivity.
  - intros H. destruct (Nat.eqb_spec (_id u) oid) as [E|E].
    + exfalso. apply H. now left.
    + rewrite IH; [reflexivity|]. intros Hin. apply H. now right.
Qed.

Lemma set_first_app_new (oid : ObjectId) (ws c : Z) (l : list DomainUsage)
      (u : DomainUsage) :
  ~ In oid (map _id l) -> _id u = oid ->
  set_first oid ws c (l ++ [u]) = l ++ [mkDomainUsage oid (domain_id u) ws c].
Proof.
  intros Hno <-. induction l as [|x r IH]; simpl.
  - now rewrite Nat.eqb_refl.
  - destruct (Nat.eqb_spec (_id x) (_id u)) as [E|E].
    + exfalso. apply Hno. simpl. now left.
    + rewrite IH; [reflexivity|]. intros Hin. apply Hno. now right.
Qed.

(** With unique identifiers the update reaches the very record that
    [findOne] returned, and [findOne] returns the updated record
    afterwards. *)
Lemma find_set_first (dom : ObjectId) (ws c : Z) (l : list DomainUsage)
      (u : DomainUsage) :
  NoDup (map _id l) ->
  find (fun x => Nat.eqb (domain_id x) dom) l = Some u ->
  find (fun x => Nat.eqb (domain_id x) dom) (set_first (_id u) ws c l)
  = Some (mkDomainUsage (_id u) (domain_id u) ws c).
Proof.
  induction l as [|x r IH]; simpl.
  - discriminate.
  - intros Hnd Hfind. inversion Hnd as [|? ? Hx Hr]; subst.
    destruct (Nat.eqb_spec (domain_id x) dom) as [Ed|Ed].
    + injection Hfind as ->. rewrite Nat.eqb_refl. simpl.
      now rewrite Ed, Nat.eqb_refl.
    + destruct (Nat.eqb_spec (_id x) (_id u)) as [Ei|Ei].
      * exfalso. apply Hx. rewrite Ei.
        apply in_map. now apply find_some in Hfind.
      * simpl. destruct (Nat.eqb_spec (domain_id x) dom); [contradiction|].
        now apply IH.
Qed.

Lemma find_app_new (dom : ObjectId) (l : list DomainUsage) (u : DomainUsage) :
  find (fun x => Nat.eqb (domain_id x) dom) l = None ->
  domain_id u = dom ->
  find (fun x => Nat.eqb (domain_id x) dom) (l ++ [u]) = Some u.
Proof.
  intros Hnone <-. induction l as [|x r IH]; simpl in *.
  - now rewrite Nat.eqb_refl.
  - destruct (Nat.eqb (domain_id x) (domain_id u)); [discriminate|].
    now apply IH.
Qed.

Lemma find_domain_id (dom : ObjectId) (l : list DomainUsage) (u : DomainUsage) :
  find (fun x => Nat.eqb (domain_id x) dom) l = Some u -> domain_id u = dom.
Proof.
  intros H. apply find_some in H. destruct H as [_ H].
  now apply Nat.eqb_eq in H.
Qed.

Lemma NoDup_ids_app_fresh (l : list DomainUsage) (u : DomainUsage) :
  NoDup (map _id l) -> _id u = fresh_id (map _id l) ->
  NoDup (map _id (l ++ [u])).
Proof.
  intros Hnd E. rewrite map_app. simpl.
  apply NoDup_app; [exact Hnd | repeat constructor; intros [] |].
  intros i Hi [<-|[]]. rewrite E in Hi. exact (fresh_id_fresh _ Hi).
Qed.

Section Allocator.

Variable rt : Runtime.

(** *** [getUsageDoc] *)

Lemma getUsageDoc_found (dom : ObjectId) (w : World) (u : DomainUsage) :
  usage_of dom w = Some u -> getUsageDoc rt dom w = (Ok u, w).
Proof.
  unfold usage_of, getUsageDoc, bind, usage_findOne. simpl.
  now intros ->.
Qed.

Lemma getUsageDoc_missing (dom : ObjectId) (w : World) :
  usage_of dom w = None ->
  let u := mkDomainUsage (fresh_id (map _id (smtp_domain_usage w))) dom
             (Date_now rt (clock_reads w)) 0 in
  getUsageDoc rt dom w
  = (Ok u, ticked (with_usage (smtp_domain_usage w ++ [u]) w)).
Proof.
  unfold usage_of, getUsageDoc, bind, usage_findOne. simpl.
  now intros ->.
Qed.

(** [getUsageDoc] always yields a record; that record is the persisted one
    afterwards, identifiers stay unique, and it changes nothing but the
    usage collection and the clock. *)
Lemma getUsageDoc_spec (dom : ObjectId) (w : World) :
  exists u w1,
    getUsageDoc rt dom w = (Ok u, w1)
    /\ usage_of dom w1 = Some u
    /\ (usage_ids_unique w -> usage_ids_unique w1)
    /\ smtp_domains w1 = smtp_domains w
    /\ requests w1 = requests w
    /\ console w1 = console w.
Proof.
  destruct (usage_of dom w) as [u|] eqn:E.
  - exists u, w. rewrite (getUsageDoc_found _ _ _ E). auto 10.
  - eexists _, _. rewrite (getUsageDoc_missing _ _ E). cbv zeta.
    split; [reflexivity|]. unfold usage_of, usage_ids_unique in *. simpl.
    split; [now apply find_app_new|].
    split; [|auto].
    intros Hnd. now apply NoDup_ids_app_fresh.
Qed.

(** *** [hasQuota] *)

(** [hasQuota] after [getUsageDoc] produced [u] in world [w1]. *)
Lemma hasQuota_after_getUsageDoc (d : DomainConfig) (w w1 : World)
      (u : DomainUsage) :
  getUsageDoc rt (id d) w = (Ok u, w1) ->
  let now := Date_now rt (clock_reads w1) in
  hasQuota rt d w
  = if hour_ms <=? now - window_start u
    then (Ok (0 <? limit d, mkDomainUsage (_id u) (domain_id u) now 0),
          ticked (with_usage (set_first (_id u) now 0 (smtp_domain_usage w1))
                    w1))
    else (Ok (count u <? limit d, u), ticked w1).
Proof.
  intros H. unfold hasQuota, bind. rewrite H. simpl.
  destruct (hour_ms <=? _); reflexivity.
Qed.

Lemma hasQuota_live (d : DomainConfig) (w : World) (u : DomainUsage) :
  usage_of (id d) w = Some u ->
  Date_now rt (clock_reads w) - window_start u < hour_ms ->
  hasQuota rt d w = (Ok (count u <? limit d, u), ticked w).
Proof.
  intros Hu Hlive.
  rewrite (hasQuota_after_getUsageDoc _ _ _ _ (getUsageDoc_found _ _ _ Hu)).
  cbv zeta. destruct (Z.leb_spec hour_ms
    (Date_now rt (clock_reads w) - window_start u)); [lia | reflexivity].
Qed.

Lemma hasQuota_first_use (d : DomainConfig) (w : World) :
  usage_of (id d) w = None ->
  Date_now rt (S (clock_reads w)) - Date_now rt (clock_reads w) < hour_ms ->
  let u := mkDomainUsage (fresh_id (map _id (smtp_domain_usage w))) (id d)
             (Date_now rt (clock_reads w)) 0 in
  hasQuota rt d w
  = (Ok (0 <? limit d, u),
     ticked (ticked (with_usage (smtp_domain_usage w ++ [u]) w))).
Proof.
  intros Hu Hlive.
  rewrite (hasQuota_after_getUsageDoc _ _ _ _ (getUsageDoc_missing _ _ Hu)).
  cbn. destruct (Z.leb_spec 3600000
    (Date_now rt (S (clock_reads w)) - Date_now rt (clock_reads w)));
    [unfold hour_ms in *; lia | reflexivity].
Qed.


(** *** [recordUsage] *)

Lemma recordUsage_after_getUsageDoc (dom : ObjectId) (w w1 : World)
      (u : DomainUsage) :
  getUsageDoc rt dom w = (Ok u, w1) ->
  let now := Date_now rt (clock_reads w1) in
  recordUsage rt dom w
  = (Ok tt,
     ticked (with_usage
               (if hour_ms <=? now - window_start u
                then set_first (_id u) now 1 (smtp_domain_usage w1)
                else set_first (_id u) (window_start u) (plus_one (count u))
                       (smtp_domain_usage w1))
               w1)).
Proof.
  intros H. unfold recordUsage, incrementUsage, bind. rewrite H. simpl.
  destruct (hour_ms <=? _); reflexivity.
Qed.

Lemma recordUsage_spec (dom : ObjectId) (w : World) (u : DomainUsage) :
  usage_ids_unique w ->
  usage_of dom w = Some u ->
  let now := Date_now rt (clock_reads w) in
  let w' := snd (recordUsage rt dom w) in
  fst (recordUsage rt dom w) = Ok tt
  /\ usage_ids_unique w'
  /\ clock_reads w' = S (clock_reads w)
  /\ usage_of dom w'
     = Some (if hour_ms <=? now - window_start u
             then mkDomainUsage (_id u) (domain_id u) now 1
             else mkDomainUsage (_id u) (domain_id u) (window_start u)
                    (plus_one (count u))).
Proof.
  intros Hnd Hu.
  rewrite (recordUsage_after_getUsageDoc _ _ _ _ (getUsageDoc_found _ _ _ Hu)).
  cbv zeta. unfold usage_ids_unique, usage_of in *. simpl.
  split; [reflexivity|].
  destruct (hour_ms <=? _); rewrite set_first_ids;
    (split; [exact Hnd|]); (split; [reflexivity|]);
    now apply find_set_first.
Qed.

Lemma recordUsage_frame (dom : ObjectId) (w : World) :
  fst (recordUsage rt dom w) = Ok tt
  /\ smtp_domains (snd (recordUsage rt dom w)) = smtp_domains w
  /\ requests (snd (recordUsage rt dom w)) = requests w
  /\ console (snd (recordUsage rt dom w)) = console w.
Proof.
  destruct (getUsageDoc_spec dom w) as (u & w1 & Hg & _ & _ & Hd & Hr & Hc).
  rewrite (recordUsage_after_getUsageDoc _ _ _ _ Hg). simpl. auto.
Qed.

(** *** The loop of [getNextAvailableDomain] *)


Lemma after_checks_snoc (ds : list DomainConfig) (d : DomainConfig)
      (w : World) :
  after_checks rt (ds ++ [d]) w = snd (hasQuota rt d (after_checks rt ds w)).
Proof.
  unfold after_checks. now rewrite fold_left_app.
Qed.


End Allocator.

(** ** The allocator: claims on [getNextAvailableDomain], [hasQuota] and
    [recordUsage] *)

Section AllocatorClaims.

Variable rt : Runtime.


(** C4.  [recordUsage] on a record with [count = 0] whose window has not
    expired persists [count = 1]; called again within the same window it
    persists [count = 2]; called when at least 3600 seconds have passed
    since [window_start] it persists a new window starting now with
    [count = 1], whatever the old count was. *)
Theorem recordUsage_counts (dom : ObjectId) (w : World) (u : DomainUsage) :
  usage_ids_unique w ->
  usage_of dom w = Some u ->
  let now := Date_now rt (clock_reads w) in
  let w1 := snd (recordUsage rt dom w) in
  let now1 := Date_now rt (clock_reads w1) in
  let w2 := snd (recordUsage rt dom w1) in
  fst (recordUsage rt dom w) = Ok tt
  /\ (count u = 0 -> now - window_start u < hour_ms ->
      usage_of dom w1
      = Some (mkDomainUsage (_id u) (domain_id u) (window_start u) 1)
      /\ (now1 - window_start u < hour_ms ->
          usage_of dom w2
          = Some (mkDomainUsage (_id u) (domain_id u) (window_start u) 2)))
  /\ (3600 * 1000 <= now - window_start u ->
      usage_of dom w1 = Some (mkDomainUsage (_id u) (domain_id u) now 1)).
Proof.
  intros Hnd Hu now w1 now1 w2.
  destruct (recordUsage_spec rt dom w u Hnd Hu) as (Hok & Hnd1 & Hclk & Hu1).
  fold w1 in Hnd1, Hclk, Hu1. fold now in Hu1.
  split; [exact Hok|]. split.
  - intros Hc Hlive.
    destruct (Z.leb_spec hour_ms (now - window_start u)); [lia|].
    rewrite Hc in Hu1. simpl in Hu1. split; [exact Hu1|].
    intros Hlive1.
    destruct (recordUsage_spec rt dom w1 _ Hnd1 Hu1) as (_ & _ & _ & Hu2).
    fold w2 in Hu2. fold now1 in Hu2. simpl in Hu2.
    destruct (Z.leb_spec hour_ms (now1 - window_start u)); [lia|].
    exact Hu2.
  - intros Hexp.
    destruct (Z.leb_spec hour_ms (now - window_start u));
      [exact Hu1 | unfold hour_ms in *; lia].
Qed.

(** C5.  When at least 3600 seconds separate the check time from the
    [window_start] of the record [hasQuota] loads (or lazily creates), the
    usage record persisted after the check has [count = 0] and
    [window_start] equal to the check time, and the verdict is computed
    from these reset values: it is [0 < limit]. *)
Theorem hasQuota_resets_expired_window (d : DomainConfig) (w w1 : World)
        (u : DomainUsage) :
  usage_ids_unique w ->
  getUsageDoc rt (id d) w = (Ok u, w1) ->
  let now := Date_now rt (clock_reads w1) in
  3600 * 1000 <= now - window_start u ->
  let reset := mkDomainUsage (_id u) (domain_id u) now 0 in
  usage_of (id d) (snd (hasQuota rt d w)) = Some reset
  /\ fst (hasQuota rt d w) = Ok (0 <? limit d, reset)
  /\ checkAvailability rt d w = (0 <? limit d).
Proof.
  intros Hnd Hg now Hexp reset.
  destruct (getUsageDoc_spec rt (id d) w)
    as (u' & w1' & Hg' & Hu & Hnd1 & _).
  rewrite Hg in Hg'. injection Hg' as <- <-.
  unfold checkAvailability.
  rewrite (hasQuota_after_getUsageDoc rt _ _ _ _ Hg). cbv zeta. fold now.
  destruct (Z.leb_spec hour_ms (now - window_start u));
    [|unfold hour_ms in *; lia].
  simpl. split; [|split; reflexivity].
  unfold usage_of in *. simpl. apply find_set_first; [|exact Hu].
  exact (Hnd1 Hnd).
Qed.

(** C9.  When the usage record of the domain exists and its window has not
    expired at check time, [hasQuota] writes nothing: the usage collection,
    and with it the record's [window_start] and [count], is the same after
    the check as before. *)
Theorem hasQuota_unexpired_no_write (d : DomainConfig) (w : World)
        (u : DomainUsage) :
  usage_of (id d) w = Some u ->
  Date_now rt (clock_reads w) - window_start u < 3600 * 1000 ->
  smtp_domain_usage (snd (hasQuota rt d w)) = smtp_domain_usage w
  /\ usage_of (id d) (snd (hasQuota rt d w)) = Some u
  /\ fst (hasQuota rt d w) = Ok (count u <? limit d, u).
Proof.
  intros Hu Hlive. rewrite (hasQuota_live rt d w u Hu Hlive). simpl.
  split; [reflexivity|]. split; [exact Hu | reflexivity].
Qed.

End AllocatorClaims.

(** ** The delivery policy *)

Section Delivery.

Variable rt : Runtime.

Lemma sendEmail_premium (env : Env) (u : User.t) (m : Message) (w : World) :
  isPro u = true ->
  sendEmail rt env u m w
  = if negb (truthy (MAILCHIMP_API_KEY env))
       || negb (truthy (MAILCHIMP_SERVER_PREFIX env))
    then (Throw ConfigurationError, w)
    else (Throw (TypeError "send"), w).
Proof.
  intros Hpro. unfold sendEmail. rewrite Hpro.
  destruct (negb _ || negb _); reflexivity.
Qed.

Lemma sendEmail_free (env : Env) (u : User.t) (m : Message) (w : World) :
  isPro u = false ->
  sendEmail rt env u m w
  = match tryConfiguredDomain rt m w with
    | (Ok (Some info), w1) => (Ok (SentInfo info), w1)
    | (Ok None, w1) => fallbackTransports rt env m w1
    | (Throw e, w1) => (Throw e, w1)
    end.
Proof.
  intros Hfree. unfold sendEmail. rewrite Hfree. unfold bind.
  destruct (tryConfiguredDomain rt m w) as [[[info|]|e] w1]; reflexivity.
Qed.

(** Step 1 when the allocator returns a domain and the transport accepts
    the mail. *)
Lemma tryConfiguredDomain_sent (m : Message) (w w1 : World)
      (d : DomainConfig) (info : string) :
  getNextAvailableDomain rt w = (Ok (Some d), w1) ->
  transporter_sendMail rt (List.length (requests w1)) (domainTransport d)
    (domainMail d m) = Ok info ->
  tryConfiguredDomain rt m w
  = (Ok (Some info),
     snd (recordUsage rt (id d)
            (with_request (ReqSendMail (domainTransport d) (domainMail d m))
               w1))).
Proof.
  intros Hd Hsend.
  unfold tryConfiguredDomain, try_catch, viaConfiguredDomain, bind.
  rewrite Hd. unfold sendMail, issue. rewrite Hsend.
  fold (with_request (ReqSendMail (domainTransport d) (domainMail d m)) w1).
  destruct (recordUsage_frame rt (id d)
    (with_request (ReqSendMail (domainTransport d) (domainMail d m)) w1))
    as (Hok & _).
  destruct (recordUsage rt (id d) _) as [r w2]. simpl in *.
  now rewrite Hok.
Qed.

(** Step 1 when the allocator has no domain to offer. *)
Lemma tryConfiguredDomain_none (m : Message) (w w1 : World) :
  getNextAvailableDomain rt w = (Ok None, w1) ->
  tryConfiguredDomain rt m w = (Ok None, w1).
Proof.
  intros Hd.
  unfold tryConfiguredDomain, try_catch, viaConfiguredDomain, bind.
  now rewrite Hd.
Qed.

(** Step 1 never throws: the [catch] swallows every failure. *)
Lemma tryConfiguredDomain_total (m : Message) (w : World) :
  exists r, fst (tryConfiguredDomain rt m w) = Ok r.
Proof.
  unfold tryConfiguredDomain, try_catch.
  destruct (viaConfiguredDomain rt m w) as [[r|e] w1]; simpl; eauto.
Qed.

(** The static transport: its outcome is the outcome of the call. *)
Lemma fallbackTransports_static (env : Env) (m : Message) (w : World) :
  staticConfigured env = true ->
  fallbackTransports rt env m w
  = (match transporter_sendMail rt (List.length (requests w))
             (staticTransport rt env) (staticMail env m) with
     | Ok info => Ok (SentInfo info)
     | Throw e => Throw e
     end,
     with_request (ReqSendMail (staticTransport rt env) (staticMail env m)) w).
Proof.
  intros Hs. unfold fallbackTransports. rewrite Hs.
  unfold bind, sendMail, issue, with_request.
  destruct (transporter_sendMail rt _ _ _); reflexivity.
Qed.

Lemma fallbackTransports_none (env : Env) (m : Message) (w : World) :
  staticConfigured env = false ->
  smtpDevConfigured env = false ->
  fallbackTransports rt env m w = (Throw TransportExhausted, w).
Proof.
  intros Hs Hd. unfold fallbackTransports. now rewrite Hs, Hd.
Qed.

(** An exhausted pool is walked to its end without a write. *)
Lemma firstWithQuota_exhausted (ds : list DomainConfig) (w : World) :
  (forall d, In d ds ->
     exists u,
       usage_of (id d) w = Some u
       /\ limit d <= count u
       /\ forall k,
            (clock_reads w <= k < clock_reads w + List.length ds)%nat ->
            Date_now rt k - window_start u < hour_ms) ->
  firstWithQuota rt ds w
  = (Ok None,
     mkWorld (smtp_domains w) (smtp_domain_usage w)
       (clock_reads w + List.length ds) (requests w) (console w)).
Proof.
  revert w. induction ds as [|d rest IH]; intros w Hall.
  - simpl. unfold ret. destruct w. simpl. now rewrite Nat.add_0_r.
  - destruct (Hall d (or_introl eq_refl)) as (u & Hu & Hfull & Hlive).
    cbn [firstWithQuota]. unfold bind.
    assert (Hnow : Date_now rt (clock_reads w) - window_start u < hour_ms)
      by (apply Hlive; simpl; lia).
    rewrite (hasQuota_live rt d w u Hu Hnow).
    cbn [fst]. destruct (Z.ltb_spec (count u) (limit d)); [lia|].
    rewrite IH.
    + simpl. do 2 f_equal. lia.
    + intros d' Hd'. destruct (Hall d' (or_intror Hd'))
        as (u' & Hu' & Hfull' & Hlive').
      exists u'. split; [exact Hu'|]. split; [exact Hfull'|].
      intros k Hk. apply Hlive'. simpl in *. lia.
Qed.

Lemma getNextAvailableDomain_exhausted (w : World) :
  pool_exhausted rt w ->
  getNextAvailableDomain rt w
  = (Ok None,
     mkWorld (smtp_domains w) (smtp_domain_usage w)
       (clock_reads w + List.length (smtp_domains w)) (requests w)
       (console w)).
Proof.
  intros Hex. unfold getNextAvailableDomain, getDomains, bind,
    domains_find_sorted, ret.
  rewrite firstWithQuota_exhausted.
  - rewrite length_map.
    now rewrite (Permutation_length (sort_by_order_perm (smtp_domains w))).
  - intros d Hd. apply in_map_iff in Hd. destruct Hd as (doc & <- & Hdoc).
    apply (Permutation_in _ (sort_by_order_perm _)) in Hdoc.
    rewrite length_map,
      (Permutation_length (sort_by_order_perm (smtp_domains w))).
    exact (Hex doc Hdoc).
Qed.

End Delivery.

(** ** The registry: defaulted priorities *)

Lemma sort_by_order_sorted_id (l : list Doc.t) :
  StronglySorted by_order l -> sort_by_order l = l.
Proof.
  induction 1 as [|d r Hr IH Hd].
  - reflexivity.
  - cbn [sort_by_order fold_right]. fold (sort_by_order r). rewrite IH.
    destruct r as [|x r'].
    + reflexivity.
    + cbn [insert_by_order]. inversion Hd as [|? ? Hx _]; subst.
      unfold by_order in Hx.
      now destruct (Z.leb_spec (Doc.order d) (Doc.order x)); [|lia].
Qed.

Lemma StronglySorted_snoc (l : list Doc.t) (d : Doc.t) :
  StronglySorted by_order l ->
  Forall (fun x => by_order x d) l ->
  StronglySorted by_order (l ++ [d]).
Proof.
  induction 1 as [|x r Hr IH Hx]; intros Hall; simpl.
  - repeat constructor.
  - inversion Hall as [|? ? Hxd Hrd]; subst.
    constructor; [now apply IH|].
    apply Forall_app. split; [exact Hx | now constructor].
Qed.

(** Documents numbered from [k] upwards by position are in priority
    order. *)
Lemma numbered_sorted (k : nat) (l : list Doc.t) :
  (forall i d, nth_error l i = Some d -> Doc.order d = Z.of_nat (k + i)) ->
  StronglySorted by_order l.
Proof.
  revert k. induction l as [|x r IH]; intros k Hnum.
  - constructor.
  - constructor.
    + apply (IH (S k)). intros i d Hi.
      rewrite (Hnum (S i) d Hi). f_equal. lia.
    + rewrite Forall_forall. intros y Hy.
      apply In_nth_error in Hy. destruct Hy as [i Hi].
      unfold by_order.
      rewrite (Hnum 0%nat x eq_refl), (Hnum (S i) y Hi). lia.
Qed.

Lemma defaulted_sorted (l : list Doc.t) :
  defaulted l -> StronglySorted by_order l.
Proof.
  intros H. apply (numbered_sorted 0). exact H.
Qed.

Lemma defaulted_bound (l : list Doc.t) (x : Doc.t) :
  defaulted l -> In x l -> Doc.order x < Z.of_nat (List.length l).
Proof.
  intros H Hx. apply In_nth_error in Hx. destruct Hx as [i Hi].
  rewrite (H i x Hi).
  assert (i < List.length l)%nat by (apply nth_error_Some; congruence).
  lia.
Qed.

Lemma defaulted_snoc (l : list Doc.t) (d : Doc.t) :
  defaulted l -> Doc.order d = Z.of_nat (List.length l) ->
  defaulted (l ++ [d]).
Proof.
  intros H Hd i x Hi.
  destruct (Nat.lt_ge_cases i (List.length l)) as [Hlt|Hge].
  - rewrite nth_error_app1 in Hi by exact Hlt. exact (H i x Hi).
  - rewrite nth_error_app2 in Hi by exact Hge.
    destruct (i - List.length l)%nat as [|j] eqn:E; simpl in Hi.
    + injection Hi as <-. rewrite Hd. f_equal. lia.
    + destruct j; discriminate.
Qed.

Section DeliveryClaims.

Variable rt : Runtime.

(** C2 (as amended).  For a free-tier user, once step 1 has ended without
    a delivery, if the static SMTP fallback is selected (all four SMTP
    values present) and its send attempt fails, [sendEmail] throws that
    failure to the caller; the only transport request it adds is the
    static one, so the test mailbox is not tried. *)
Theorem static_fallback_failure_propagates (env : Env) (u : User.t)
        (m : Message) (w w1 : World) (e : exn) :
  isPro u = false ->
  tryConfiguredDomain rt m w = (Ok None, w1) ->
  staticConfigured env = true ->
  transporter_sendMail rt (List.length (requests w1)) (staticTransport rt env)
    (staticMail env m) = Throw e ->
  sendEmail rt env u m w
  = (Throw e,
     with_request (ReqSendMail (staticTransport rt env) (staticMail env m))
       w1).
Proof.
  intros Hfree Htry Hstatic Hfail.
  rewrite (sendEmail_free rt env u m w Hfree), Htry.
  rewrite (fallbackTransports_static rt env m w1 Hstatic).
  now rewrite Hfail.
Qed.

(** C6.  For a premium user, when the provider API key or the server
    prefix is absent, [sendEmail] throws the configuration error at once
    and leaves the world as it found it: the allocator is not consulted (no
    clock read, no usage write), no transport request is issued and
    nothing is logged. *)
Theorem premium_missing_credentials (env : Env) (u : User.t) (m : Message)
        (w : World) :
  isPro u = true ->
  truthy (MAILCHIMP_API_KEY env) = false
  \/ truthy (MAILCHIMP_SERVER_PREFIX env) = false ->
  sendEmail rt env u m w = (Throw ConfigurationError, w).
Proof.
  intros Hpro Hmissing. rewrite (sendEmail_premium rt env u m w Hpro).
  destruct Hmissing as [-> | ->]; simpl.
  - reflexivity.
  - now rewrite orb_true_r.
Qed.

(** C7.  For a free-tier user whose every configured domain has
    [count >= limit] in an unexpired window, with the four static SMTP
    values present and that transport accepting the mail, [sendEmail]
    resolves to the static transport's result, issues that one request
    only, and leaves the usage collection untouched. *)
Theorem exhausted_pool_static_fallback (env : Env) (u : User.t)
        (m : Message) (w : World) (info : string) :
  isPro u = false ->
  pool_exhausted rt w ->
  staticConfigured env = true ->
  transporter_sendMail rt (List.length (requests w)) (staticTransport rt env)
    (staticMail env m) = Ok info ->
  fst (sendEmail rt env u m w) = Ok (SentInfo info)
  /\ smtp_domain_usage (snd (sendEmail rt env u m w)) = smtp_domain_usage w
  /\ requests (snd (sendEmail rt env u m w))
     = requests w ++ [ReqSendMail (staticTransport rt env) (staticMail env m)].
Proof.
  intros Hfree Hex Hstatic Hsend.
  rewrite (sendEmail_free rt env u m w Hfree).
  rewrite (tryConfiguredDomain_none rt m w _
             (getNextAvailableDomain_exhausted rt w Hex)).
  rewrite (fallbackTransports_static rt env m _ Hstatic).
  cbn [requests]. rewrite Hsend. simpl. auto.
Qed.

(** C8.  [receiveEmails] is a two-branch dispatch: a premium user gets the
    empty list and nothing is requested; a free-tier user for whom one of
    the three smtp.dev values is absent or empty gets the empty list and
    nothing is requested; a free-tier user with the three values [key],
    [account] and [mailbox] present has one GET issued to
    [https://api.smtp.dev/accounts/<account>/mailboxes/<mailbox>/messages]
    with [key], and gets the [member] list of the reply, or the empty list
    when the reply has none.  The call throws in two cases only, both with
    the three values present: the GET rejects, or it resolves with a null
    body, on which reading [member] fails.  It never throws for a missing
    value. *)
Theorem receiveEmails_dispatch (env : Env) (u : User.t) (w : World) :
  (isPro u = true -> receiveEmails rt env u w = (Ok [], w))
  /\ (isPro u = false ->
      (SMTPDEV_API_KEY env = None \/ SMTPDEV_API_KEY env = Some EmptyString
       \/ SMTPDEV_ACCOUNT_ID env = None
       \/ SMTPDEV_ACCOUNT_ID env = Some EmptyString
       \/ SMTPDEV_MAILBOX_ID env = None
       \/ SMTPDEV_MAILBOX_ID env = Some EmptyString) ->
      receiveEmails rt env u w = (Ok [], w))
  /\ (forall key account mailbox,
        isPro u = false ->
        SMTPDEV_API_KEY env = Some key -> key <> EmptyString ->
        SMTPDEV_ACCOUNT_ID env = Some account -> account <> EmptyString ->
        SMTPDEV_MAILBOX_ID env = Some mailbox -> mailbox <> EmptyString ->
        let url :=
          ("https://api.smtp.dev/accounts/" ++ account ++ "/mailboxes/"
             ++ mailbox ++ "/messages")%string in
        receiveEmails rt env u w
        = (match axios_get rt (List.length (requests w)) url key with
           | Ok (SmtpDev.Body _ (Some messages)) => Ok messages
           | Ok (SmtpDev.Body _ None) => Ok []
           | Ok SmtpDev.Nullish => Throw (TypeError "member")
           | Throw e => Throw e
           end,
           mkWorld (smtp_domains w) (smtp_domain_usage w) (clock_reads w)
             (requests w ++ [ReqAxiosGet url key]) (console w)))
  /\ (forall e,
        fst (receiveEmails rt env u w) = Throw e ->
        isPro u = false
        /\ exists key account mailbox,
             SMTPDEV_API_KEY env = Some key /\ key <> EmptyString
             /\ SMTPDEV_ACCOUNT_ID env = Some account
             /\ account <> EmptyString
             /\ SMTPDEV_MAILBOX_ID env = Some mailbox
             /\ mailbox <> EmptyString
             /\ let url :=
                  ("https://api.smtp.dev/accounts/" ++ account
                     ++ "/mailboxes/" ++ mailbox ++ "/messages")%string in
                let reply :=
                  axios_get rt (List.length (requests w)) url key in
                reply = Throw e
                \/ (reply = Ok SmtpDev.Nullish /\ e = TypeError "member")).
Proof.
  assert (Hrun : forall key account mailbox,
    isPro u = false ->
    SMTPDEV_API_KEY env = Some key -> key <> EmptyString ->
    SMTPDEV_ACCOUNT_ID env = Some account -> account <> EmptyString ->
    SMTPDEV_MAILBOX_ID env = Some mailbox -> mailbox <> EmptyString ->
    receiveEmails rt env u w
    = (match axios_get rt (List.length (requests w))
               ("https://api.smtp.dev/accounts/" ++ account ++ "/mailboxes/"
                  ++ mailbox ++ "/messages")%string key with
       | Ok (SmtpDev.Body _ (Some messages)) => Ok messages
       | Ok (SmtpDev.Body _ None) => Ok []
       | Ok SmtpDev.Nullish => Throw (TypeError "member")
       | Throw e => Throw e
       end,
       mkWorld (smtp_domains w) (smtp_domain_usage w) (clock_reads w)
         (requests w
            ++ [ReqAxiosGet
                  ("https://api.smtp.dev/accounts/" ++ account
                     ++ "/mailboxes/" ++ mailbox ++ "/messages")%string
                  key])
         (console w))).
  { intros key account mailbox Hfree Hk Hk0 Ha Ha0 Hm Hm0.
    unfold receiveEmails, smtpDevConfigured, smtpDevMailbox, smtpDevUrl.
    rewrite Hfree, Hk, Ha, Hm.
    destruct key as [|k0 key]; [congruence|].
    destruct account as [|a0 account]; [congruence|].
    destruct mailbox as [|m0 mailbox]; [congruence|].
    cbn [truthy or_else andb].
    unfold bind, get, issue.
    destruct (axios_get rt _ _ _) as [[|raw [messages|]]|e]; reflexivity. }
  assert (Hnone : isPro u = false ->
    smtpDevConfigured env = false -> receiveEmails rt env u w = (Ok [], w)).
  { intros Hfree Hcfg. unfold receiveEmails. now rewrite Hfree, Hcfg. }
  split; [intros Hpro; unfold receiveEmails; now rewrite Hpro|].
  split.
  { intros Hfree Hmissing. apply Hnone; [exact Hfree|].
    unfold smtpDevConfigured.
    destruct Hmissing as [H|[H|[H|[H|[H|H]]]]]; rewrite H; cbn [truthy];
      rewrite ?andb_false_r; reflexivity. }
  split; [exact Hrun|].
  intros e He.
  destruct (isPro u) eqn:Hpro.
  { unfold receiveEmails in He. rewrite Hpro in He. discriminate. }
  split; [reflexivity|].
  destruct (smtpDevConfigured env) eqn:Hcfg.
  2:{ rewrite (Hnone eq_refl eq_refl) in He. discriminate. }
  unfold smtpDevConfigured in Hcfg.
  destruct (SMTPDEV_API_KEY env) as [[|k0 key]|] eqn:Hk;
    try discriminate Hcfg.
  destruct (SMTPDEV_ACCOUNT_ID env) as [[|a0 account]|] eqn:Ha;
    try discriminate Hcfg.
  destruct (SMTPDEV_MAILBOX_ID env) as [[|m0 mailbox]|] eqn:Hm;
    try discriminate Hcfg.
  exists (String k0 key), (String a0 account), (String m0 mailbox).
  repeat (split; [congruence|]).
  cbv zeta.
  rewrite (Hrun (String k0 key) (String a0 account) (String m0 mailbox)
             eq_refl eq_refl ltac:(discriminate) eq_refl ltac:(discriminate)
             eq_refl ltac:(discriminate)) in He.
  cbn [fst] in He.
  destruct (axios_get rt _ _ _) as [[|raw [messages|]]|e'];
    try discriminate He.
  - right. split; [reflexivity|]. congruence.
  - left. congruence.
Qed.

(** C10.  An [addDomain] call that omits [order] stores the new domain
    with [order] equal to the number of documents present at insertion
    time; when the earlier domains were all added that way, the new one
    comes last in the priority order of [getDomains]. *)
Theorem addDomain_default_order (config : NewDomain.t) (w : World) :
  NewDomain.order config = None ->
  exists doc,
    addDomain rt config w
    = (Ok (Some (toConfig doc)),
       mkWorld (smtp_domains w ++ [doc]) (smtp_domain_usage w)
         (S (clock_reads w)) (requests w) (console w))
    /\ Doc.order doc = Z.of_nat (List.length (smtp_domains w))
    /\ order (toConfig doc) = Z.of_nat (List.length (smtp_domains w))
    /\ (defaulted (smtp_domains w) ->
        defaulted (smtp_domains w ++ [doc])
        /\ fst (getDomains (snd (addDomain rt config w)))
           = Ok (map toConfig (smtp_domains w) ++ [toConfig doc])
        /\ fst (getDomains w) = Ok (map toConfig (smtp_domains w))).
Proof.
  intros Hnone.
  set (doc := Doc.mk (fresh_id (map Doc._id (smtp_domains w)))
            (NewDomain.host config) (NewDomain.port config)
            (NewDomain.secure config) (NewDomain.username config)
            (NewDomain.password config) (NewDomain.from config)
            (NewDomain.limit config)
            (Z.of_nat (List.length (smtp_domains w)))
            (toISOString rt (Date_now rt (clock_reads w)))).
  exists doc.
  assert (Hrun : addDomain rt config w
    = (Ok (Some (toConfig doc)),
       mkWorld (smtp_domains w ++ [doc]) (smtp_domain_usage w)
         (S (clock_reads w)) (requests w) (console w))).
  { unfold addDomain, try_catch, bind. rewrite Hnone. reflexivity. }
  split; [exact Hrun|]. split; [reflexivity|]. split; [reflexivity|].
  intros Hdef. rewrite Hrun.
  pose proof (defaulted_snoc (smtp_domains w) doc Hdef eq_refl) as Hdef'.
  split; [exact Hdef'|].
  unfold getDomains, bind, domains_find_sorted, ret.
  cbn [fst snd smtp_domains].
  rewrite (sort_by_order_sorted_id _ (defaulted_sorted _ Hdef')).
  rewrite (sort_by_order_sorted_id _ (defaulted_sorted _ Hdef)).
  rewrite map_app. split; reflexivity.
Qed.

End DeliveryClaims.

(** ** Rotation through the pool *)

Lemma Permutation_three {A : Type} (a b c : A) (l : list A) :
  Permutation l [a; b; c] ->
  l = [a; b; c] \/ l = [a; c; b] \/ l = [b; a; c]
  \/ l = [b; c; a] \/ l = [c; a; b] \/ l = [c; b; a].
Proof.
  intros H. pose proof (Permutation_length H) as Hlen.
  destruct l as [|x [|y [|z [|? ?]]]]; try discriminate.
  assert (Hx : In x [a; b; c])
    by (apply (Permutation_in _ H); now left).
  destruct Hx as [<-|[<-|[<-|[]]]].
  - apply Permutation_cons_inv in H.
    apply Permutation_length_2_inv in H. destruct H as [[= -> ->]|[= -> ->]]; auto.
  - assert (H' : Permutation (b :: [y; z]) (b :: [a; c])).
    { rewrite H. apply perm_swap. }
    apply Permutation_cons_inv in H'.
    apply Permutation_length_2_inv in H'.
    destruct H' as [[= -> ->]|[= -> ->]]; auto 10.
  - assert (H' : Permutation (c :: [y; z]) (c :: [a; b])).
    { rewrite H. transitivity [a; c; b]; [apply perm_skip, perm_swap
                                         | apply perm_swap]. }
    apply Permutation_cons_inv in H'.
    apply Permutation_length_2_inv in H'.
    destruct H' as [[= -> ->]|[= -> ->]]; auto 10.
Qed.

Lemma sort_three (d0 d1 d2 : Doc.t) (stored : list Doc.t) :
  Permutation stored [d0; d1; d2] ->
  Doc.order d0 = 0 -> Doc.order d1 = 1 -> Doc.order d2 = 2 ->
  sort_by_order stored = [d0; d1; d2].
Proof.
  intros Hperm H0 H1 H2.
  destruct (Permutation_three _ _ _ _ Hperm)
    as [->|[->|[->|[->|[->| ->]]]]];
    unfold sort_by_order; simpl;
    repeat (progress (rewrite ?H0, ?H1, ?H2; simpl));
    reflexivity.
Qed.

Section Rotation.

Variable rt : Runtime.

(** The loop skips the domains whose quota is used up and opens a window
    for the first domain that has no usage record yet. *)
Lemma firstWithQuota_rotates (used rest : list DomainConfig)
      (d : DomainConfig) (w : World) :
  (forall x, In x used ->
     exists u,
       usage_of (id x) w = Some u
       /\ limit x <= count u
       /\ forall k,
            (clock_reads w <= k < clock_reads w + List.length used)%nat ->
            Date_now rt k - window_start u < hour_ms) ->
  usage_of (id d) w = None ->
  0 < limit d ->
  Date_now rt (S (clock_reads w + List.length used))
  - Date_now rt (clock_reads w + List.length used) < hour_ms ->
  firstWithQuota rt (used ++ d :: rest) w
  = (Ok (Some d),
     mkWorld (smtp_domains w)
       (smtp_domain_usage w ++
          [mkDomainUsage (fresh_id (map _id (smtp_domain_usage w))) (id d)
             (Date_now rt (clock_reads w + List.length used)) 0])
       (S (S (clock_reads w + List.length used))) (requests w) (console w)).
Proof.
  revert w. induction used as [|x used IH]; intros w Hused Hnew Hlim Hclk.
  - cbn [app firstWithQuota List.length] in *. unfold bind.
    rewrite Nat.add_0_r in *.
    rewrite (hasQuota_first_use rt d w Hnew Hclk). cbn [fst].
    destruct (Z.ltb_spec 0 (limit d)); [|lia].
    reflexivity.
  - destruct (Hused x (or_introl eq_refl)) as (u & Hu & Hfull & Hlive).
    assert (Hnow : Date_now rt (clock_reads w) - window_start u < hour_ms)
      by (apply Hlive; simpl; lia).
    cbn [app firstWithQuota]. unfold bind.
    rewrite (hasQuota_live rt x w u Hu Hnow).
    cbn [fst]. destruct (Z.ltb_spec (count u) (limit x)); [lia|].
    cbn [List.length] in *. rewrite Nat.add_succ_r in *.
    rewrite IH; try assumption.
    + reflexivity.
    + intros y Hy. destruct (Hused y (or_intror Hy))
        as (uy & Huy & Hfy & Hly).
      exists uy. split; [exact Huy|]. split; [exact Hfy|].
      intros k Hk. apply Hly. simpl in *. lia.
Qed.

(** One free-tier send while the pool still has an unused domain: the
    mail leaves through that domain and its usage record is created with
    [count = 1]. *)
Lemma sendEmail_rotates (env : Env) (usr : User.t) (m : Message)
      (used rest : list DomainConfig) (d : DomainConfig) (w : World) :
  isPro usr = false ->
  map toConfig (sort_by_order (smtp_domains w)) = used ++ d :: rest ->
  (forall x, In x used ->
     exists u,
       usage_of (id x) w = Some u
       /\ limit x <= count u
       /\ forall k,
            (clock_reads w <= k < clock_reads w + List.length used)%nat ->
            Date_now rt k - window_start u < hour_ms) ->
  usage_of (id d) w = None ->
  0 < limit d ->
  Date_now rt (S (clock_reads w + List.length used))
  - Date_now rt (clock_reads w + List.length used) < hour_ms ->
  Date_now rt (S (S (clock_reads w + List.length used)))
  - Date_now rt (clock_reads w + List.length used) < hour_ms ->
  (forall k tr mail, exists info, transporter_sendMail rt k tr mail = Ok info) ->
  sendEmail rt env usr m w
  = (match transporter_sendMail rt (List.length (requests w))
             (domainTransport d) (domainMail d m) with
     | Ok info => Ok (SentInfo info)
     | Throw e => Throw e
     end,
     mkWorld (smtp_domains w)
       (smtp_domain_usage w ++
          [mkDomainUsage (fresh_id (map _id (smtp_domain_usage w))) (id d)
             (Date_now rt (clock_reads w + List.length used)) 1])
       (S (S (S (clock_reads w + List.length used))))
       (requests w ++ [ReqSendMail (domainTransport d) (domainMail d m)])
       (console w)).
Proof.
  intros Hfree Hsorted Hused Hnew Hlim Hclk1 Hclk2 Hsend.
  assert (Hnext : getNextAvailableDomain rt w
    = (Ok (Some d),
       mkWorld (smtp_domains w)
         (smtp_domain_usage w ++
            [mkDomainUsage (fresh_id (map _id (smtp_domain_usage w))) (id d)
               (Date_now rt (clock_reads w + List.length used)) 0])
         (S (S (clock_reads w + List.length used))) (requests w)
         (console w))).
  { unfold getNextAvailableDomain, getDomains, bind, domains_find_sorted, ret.
    rewrite Hsorted. apply firstWithQuota_rotates; auto. }
  destruct (Hsend (List.length (requests w)) (domainTransport d)
              (domainMail d m)) as [info Hinfo].
  rewrite (sendEmail_free rt env usr m w Hfree).
  rewrite (tryConfiguredDomain_sent rt m w _ d info Hnext Hinfo).
  rewrite Hinfo.
  erewrite recordUsage_after_getUsageDoc.
  2:{ apply getUsageDoc_found. unfold usage_of, with_request.
      cbn [smtp_domain_usage].
      apply find_app_new; [exact Hnew | reflexivity]. }
  cbv zeta. cbn [snd window_start _id count].
  match goal with
  | |- context [hour_ms <=? ?x] =>
      destruct (Z.leb_spec hour_ms x) as [Hbad|_]
  end.
  { exfalso. unfold with_request in Hbad. cbn [clock_reads] in Hbad. lia. }
  unfold with_request, with_usage, ticked.
  cbn [smtp_domains smtp_domain_usage clock_reads requests console].
  rewrite set_first_app_new; [reflexivity | apply fresh_id_fresh | reflexivity].
Qed.

End Rotation.

Lemma or_undefined_cases (v : option string) :
  or_undefined v
  = match v with
    | Some (String c s) => Some (String c s)
    | _ => None
    end.
Proof.
  destruct v as [[|c s]|]; reflexivity.
Qed.

Section RotationClaim.

Variable rt : Runtime.

(** C3.  Three domains with [order] 0, 1, 2 and [limit] 1 each, stored in
    any order, no usage record yet, every transport send accepted, and
    all clock reads within one window: three consecutive free-tier sends
    leave through domain 0, domain 1 and domain 2 in turn, each recording
    one use of its domain; a fourth send with neither the static SMTP
    fallback nor the test mailbox configured throws the exhaustion error
    without issuing a request. *)
Theorem three_domains_rotate (d0 d1 d2 : Doc.t) (w0 : World) (usr : User.t)
        (e1 e2 e3 e4 : Env) (m1 m2 m3 m4 : Message) :
  Permutation (smtp_domains w0) [d0; d1; d2] ->
  Doc.order d0 = 0 -> Doc.order d1 = 1 -> Doc.order d2 = 2 ->
  Doc.limit d0 = 1 -> Doc.limit d1 = 1 -> Doc.limit d2 = 1 ->
  NoDup [Doc._id d0; Doc._id d1; Doc._id d2] ->
  smtp_domain_usage w0 = [] ->
  isPro usr = false ->
  (forall k tr mail, exists info, transporter_sendMail rt k tr mail = Ok info) ->
  (forall i j,
     (clock_reads w0 <= i)%nat -> (i <= j)%nat ->
     (j < clock_reads w0 + 15)%nat ->
     Date_now rt j - Date_now rt i < hour_ms) ->
  staticConfigured e4 = false ->
  smtpDevConfigured e4 = false ->
  let s1 := sendEmail rt e1 usr m1 w0 in
  let s2 := sendEmail rt e2 usr m2 (snd s1) in
  let s3 := sendEmail rt e3 usr m3 (snd s2) in
  let s4 := sendEmail rt e4 usr m4 (snd s3) in
  delivered_via rt d0 m1 (fst s1) w0 (snd s1)
  /\ delivered_via rt d1 m2 (fst s2) (snd s1) (snd s2)
  /\ delivered_via rt d2 m3 (fst s3) (snd s2) (snd s3)
  /\ map (count_of (snd s1)) [d0; d1; d2] = [Some 1; None; None]
  /\ map (count_of (snd s2)) [d0; d1; d2] = [Some 1; Some 1; None]
  /\ map (count_of (snd s3)) [d0; d1; d2] = [Some 1; Some 1; Some 1]
  /\ fst s4 = Throw TransportExhausted
  /\ requests (snd s4) = requests (snd s3)
  /\ smtp_domain_usage (snd s4) = smtp_domain_usage (snd s3).
Proof.
  intros Hperm Ho0 Ho1 Ho2 Hl0 Hl1 Hl2 Hids Hempty Hfree Hsend Hclk
         Hstatic Hdev.
  assert (E01 : Nat.eqb (Doc._id d0) (Doc._id d1) = false).
  { apply Nat.eqb_neq. intros E. inversion Hids as [|? ? Hn _]; subst.
    apply Hn. rewrite E. now left. }
  assert (E02 : Nat.eqb (Doc._id d0) (Doc._id d2) = false).
  { apply Nat.eqb_neq. intros E. inversion Hids as [|? ? Hn _]; subst.
    apply Hn. rewrite E. right. now left. }
  assert (E12 : Nat.eqb (Doc._id d1) (Doc._id d2) = false).
  { apply Nat.eqb_neq. intros E. inversion Hids as [|? ? _ Hr]; subst.
    inversion Hr as [|? ? Hn _]; subst. apply Hn. rewrite E. now left. }
  assert (Hsorted : map toConfig (sort_by_order (smtp_domains w0))
                    = [toConfig d0; toConfig d1; toConfig d2]).
  { now rewrite (sort_three d0 d1 d2 _ Hperm Ho0 Ho1 Ho2). }
  intros s1 s2 s3 s4.
  assert (Hs1 : s1 = _) by
    (apply (sendEmail_rotates rt e1 usr m1 [] [toConfig d1; toConfig d2]
              (toConfig d0) w0 Hfree Hsorted);
     [ intros x []
     | unfold usage_of; now rewrite Hempty
     | simpl; lia
     | apply Hclk; simpl; lia
     | apply Hclk; simpl; lia
     | exact Hsend ]).
  rewrite Hempty in Hs1.
  cbn [app map List.length fresh_id fold_right] in Hs1.
  assert (Hs2 : s2 = _) by
    (unfold s2; rewrite Hs1; cbn [snd];
     apply (sendEmail_rotates rt e2 usr m2 [toConfig d0] [toConfig d2]
              (toConfig d1));
     [ exact Hfree
     | exact Hsorted
     | intros x [<-|[]]; eexists; split;
       [ unfold usage_of; simpl; rewrite Nat.eqb_refl; reflexivity
       | split; [simpl; lia | intros; apply Hclk; simpl in *; lia] ]
     | unfold usage_of; simpl; now rewrite E01
     | simpl; lia
     | apply Hclk; simpl; lia
     | apply Hclk; simpl; lia
     | exact Hsend ]).
  cbn [app map List.length fresh_id fold_right smtp_domains
       smtp_domain_usage clock_reads requests console _id Nat.max] in Hs2.
  assert (Hs3 : s3 = _) by
    (unfold s3; rewrite Hs2; cbn [snd];
     apply (sendEmail_rotates rt e3 usr m3 [toConfig d0; toConfig d1] []
              (toConfig d2));
     [ exact Hfree
     | exact Hsorted
     | intros x [<-|[<-|[]]]; eexists; split;
       [ unfold usage_of; simpl; rewrite Nat.eqb_refl; reflexivity
       | split; [simpl; lia | intros; apply Hclk; simpl in *; lia]
       | unfold usage_of; simpl; rewrite E01, Nat.eqb_refl; reflexivity
       | split; [simpl; lia | intros; apply Hclk; simpl in *; lia] ]
     | unfold usage_of; simpl; now rewrite E02, E12
     | simpl; lia
     | apply Hclk; simpl; lia
     | apply Hclk; simpl; lia
     | exact Hsend ]).
  cbn [app map List.length fresh_id fold_right smtp_domains
       smtp_domain_usage clock_reads requests console _id Nat.max] in Hs3.
  assert (Hs4 : fst s4 = Throw TransportExhausted
                /\ requests (snd s4) = requests (snd s3)
                /\ smtp_domain_usage (snd s4) = smtp_domain_usage (snd s3)).
  { unfold s4. rewrite Hs3. cbn [snd].
    rewrite (sendEmail_free rt e4 usr m4 _ Hfree).
    erewrite tryConfiguredDomain_none.
    2:{ apply getNextAvailableDomain_exhausted.
        pose proof (Permutation_length Hperm) as Hlen. simpl in Hlen.
        intros doc Hdoc. cbn [smtp_domains] in Hdoc.
        apply (Permutation_in _ Hperm) in Hdoc.
        unfold usage_of. cbn [smtp_domain_usage clock_reads].
        destruct Hdoc as [<-|[<-|[<-|[]]]]; eexists; simpl.
        - rewrite Nat.eqb_refl.
          split; [reflexivity|].
          split; [simpl; lia | intros; apply Hclk; simpl in *; lia].
        - rewrite E01, Nat.eqb_refl.
          split; [reflexivity|].
          split; [simpl; lia | intros; apply Hclk; simpl in *; lia].
        - rewrite E02, E12, Nat.eqb_refl.
          split; [reflexivity|].
          split; [simpl; lia | intros; apply Hclk; simpl in *; lia]. }
    rewrite (fallbackTransports_none rt e4 m4 _ Hstatic Hdev).
    cbn [fst snd requests smtp_domain_usage]. auto. }
  destruct Hs4 as (Hs4a & Hs4b & Hs4c).
  rewrite Hs4a, Hs4b, Hs4c. clear Hs4a Hs4b Hs4c. clearbody s4. clear s4.
  rewrite Hs1, Hs2, Hs3. clear Hs1 Hs2 Hs3. clearbody s3 s2 s1.
  clear s3 s2 s1.
  cbn [fst snd].
  unfold delivered_via, count_of, usage_of, domainTransport, domainMail.
  rewrite !or_undefined_cases.
  cbn [requests smtp_domain_usage map find domain_id id toConfig option_map
       count host port secure username password from].
  rewrite ?Nat.eqb_refl, ?E01, ?E02, ?E12.
  cbn [find domain_id option_map count].
  rewrite ?Nat.eqb_refl, ?E01, ?E02, ?E12.
  cbn [find domain_id option_map count].
  rewrite ?Nat.eqb_refl, ?E01, ?E02, ?E12.
  cbn [find domain_id option_map count].
  repeat match goal with
         | |- context [transporter_sendMail rt ?k ?tr ?mail] =>
             let info := fresh "info" in
             let E := fresh "E" in
             destruct (Hsend k tr mail) as [info E]; rewrite E; clear E
         end.
  repeat split; eauto.
Qed.

End RotationClaim.

(** ** The statements on the sample deployment *)

(** C4 on a record with [count = 0]: two uses within the window count 1
    and 2; a use more than an hour after [window_start] restarts at 1. *)
Lemma recordUsage_counts_witness :
  (usage_of 7 (snd (recordUsage Sample.healthy 7
                      (Sample.world [] [mkDomainUsage 1 7 0 0])))
   = Some (mkDomainUsage 1 7 0 1)
   /\ usage_of 7 (snd (recordUsage Sample.healthy 7
                         (snd (recordUsage Sample.healthy 7
                                 (Sample.world [] [mkDomainUsage 1 7 0 0])))))
      = Some (mkDomainUsage 1 7 0 2))
  /\ usage_of 7 (snd (recordUsage Sample.late 7
                        (Sample.world [] [mkDomainUsage 1 7 0 2])))
     = Some (mkDomainUsage 1 7 4000000 1).
Proof.
  split.
  - destruct (recordUsage_counts Sample.healthy 7
                (Sample.world [] [mkDomainUsage 1 7 0 0])
                (mkDomainUsage 1 7 0 0)) as (_ & Hlive & _).
    + repeat constructor. simpl. intros [].
    + reflexivity.
    + destruct (Hlive eq_refl eq_refl) as [H1 H2].
      split; [exact H1 | exact (H2 eq_refl)].
  - destruct (recordUsage_counts Sample.late 7
                (Sample.world [] [mkDomainUsage 1 7 0 2])
                (mkDomainUsage 1 7 0 2)) as (_ & _ & Hexpired).
    + repeat constructor. simpl. intros [].
    + reflexivity.
    + apply Hexpired. vm_compute. discriminate.
Defined.

(** C5 on a record last used more than an hour ago. *)
Lemma hasQuota_resets_expired_window_witness :
  usage_of 7 (snd (hasQuota Sample.late (toConfig (Sample.relay 7 "a.example" 2 0))
                     (Sample.world [Sample.relay 7 "a.example" 2 0]
                        [mkDomainUsage 1 7 0 5])))
  = Some (mkDomainUsage 1 7 4000000 0)
  /\ checkAvailability Sample.late (toConfig (Sample.relay 7 "a.example" 2 0))
       (Sample.world [Sample.relay 7 "a.example" 2 0] [mkDomainUsage 1 7 0 5])
     = true.
Proof.
  destruct (hasQuota_resets_expired_window Sample.late
              (toConfig (Sample.relay 7 "a.example" 2 0))
              (Sample.world [Sample.relay 7 "a.example" 2 0]
                 [mkDomainUsage 1 7 0 5])
              (Sample.world [Sample.relay 7 "a.example" 2 0]
                 [mkDomainUsage 1 7 0 5])
              (mkDomainUsage 1 7 0 5)) as (H1 & _ & H3).
  - repeat constructor. simpl. intros [].
  - reflexivity.
  - vm_compute. discriminate.
  - split; [exact H1 | exact H3].
Defined.

(** C9 on a record whose window is one second old. *)
Lemma hasQuota_unexpired_no_write_witness :
  smtp_domain_usage
    (snd (hasQuota Sample.healthy (toConfig (Sample.relay 7 "a.example" 2 0))
            (Sample.world [Sample.relay 7 "a.example" 2 0]
               [mkDomainUsage 1 7 0 1])))
  = [mkDomainUsage 1 7 0 1].
Proof.
  destruct (hasQuota_unexpired_no_write Sample.healthy
              (toConfig (Sample.relay 7 "a.example" 2 0))
              (Sample.world [Sample.relay 7 "a.example" 2 0]
                 [mkDomainUsage 1 7 0 1])
              (mkDomainUsage 1 7 0 1)) as (H & _).
  - reflexivity.
  - reflexivity.
  - exact H.
Defined.

(** C6 for a premium user with no Mailchimp value configured. *)
Lemma premium_missing_credentials_witness :
  sendEmail Sample.healthy Sample.fallback_env Sample.pro_user Sample.hello
    (Sample.world [Sample.relay 7 "a.example" 2 0] [])
  = (Throw ConfigurationError,
     Sample.world [Sample.relay 7 "a.example" 2 0] []).
Proof.
  apply premium_missing_credentials.
  - reflexivity.
  - left. reflexivity.
Defined.

(** C7 for a one-domain pool whose single slot is used. *)
Lemma exhausted_pool_static_fallback_witness :
  fst (sendEmail Sample.healthy Sample.static_env Sample.free_user Sample.hello
         (Sample.world [Sample.relay 7 "a.example" 1 0]
            [mkDomainUsage 1 7 0 1]))
  = Ok (SentInfo "250 queued")
  /\ smtp_domain_usage
       (snd (sendEmail Sample.healthy Sample.static_env Sample.free_user
               Sample.hello
               (Sample.world [Sample.relay 7 "a.example" 1 0]
                  [mkDomainUsage 1 7 0 1])))
     = [mkDomainUsage 1 7 0 1].
Proof.
  destruct (exhausted_pool_static_fallback Sample.healthy Sample.static_env
              Sample.free_user Sample.hello
              (Sample.world [Sample.relay 7 "a.example" 1 0]
                 [mkDomainUsage 1 7 0 1])
              "250 queued") as (H1 & H2 & _).
  - reflexivity.
  - intros doc [<-|[]]. exists (mkDomainUsage 1 7 0 1).
    split; [reflexivity|]. split; [simpl; lia|].
    intros k Hk. simpl in Hk.
    assert (k = 0%nat) as -> by lia. reflexivity.
  - reflexivity.
  - reflexivity.
  - split; [exact H1 | exact H2].
Defined.

(** C2 (as amended) with an empty pool and a static transport that
    rejects. *)
Lemma static_fallback_failure_propagates_witness :
  fst (sendEmail Sample.smtp_down Sample.fallback_env Sample.free_user
         Sample.hello (Sample.world [] []))
  = Throw (Rejected "ECONNREFUSED").
Proof.
  rewrite (static_fallback_failure_propagates Sample.smtp_down
             Sample.fallback_env Sample.free_user Sample.hello
             (Sample.world [] []) (Sample.world [] [])
             (Rejected "ECONNREFUSED")).
  - reflexivity.
  - reflexivity.
  - reflexivity.
  - reflexivity.
  - reflexivity.
Defined.

(** C2 as stated fails: the mailbox of step 3 is configured and would
    accept the message, yet the rejection of the static transport reaches
    the caller and no request is sent to the mailbox. *)
Lemma static_fallback_no_fall_through :
  isPro Sample.free_user = false
  /\ staticConfigured Sample.fallback_env = true
  /\ smtpDevConfigured Sample.fallback_env = true
  /\ transporter_sendMail Sample.smtp_down 0
       (staticTransport Sample.smtp_down Sample.fallback_env)
       (staticMail Sample.fallback_env Sample.hello)
     = Throw (Rejected "ECONNREFUSED")
  /\ axios_post Sample.smtp_down 1
       (smtpDevMailbox Sample.fallback_env)
       (smtpDevBody Sample.fallback_env Sample.hello) "key"
     = Ok Sample.inbox
  /\ fst (sendEmail Sample.smtp_down Sample.fallback_env Sample.free_user
            Sample.hello (Sample.world [] []))
     = Throw (Rejected "ECONNREFUSED")
  /\ fst (sendEmail Sample.smtp_down Sample.fallback_env Sample.free_user
            Sample.hello (Sample.world [] []))
     <> Ok (SmtpDevData Sample.inbox)
  /\ requests (snd (sendEmail Sample.smtp_down Sample.fallback_env
                      Sample.free_user Sample.hello (Sample.world [] [])))
     = [ReqSendMail (staticTransport Sample.smtp_down Sample.fallback_env)
          (staticMail Sample.fallback_env Sample.hello)].
Proof.
  repeat split; try reflexivity. vm_compute. discriminate.
Qed.

(** C8 on the sample deployment: a reply with two messages, a rejected
    request, a reply with a null body, a deployment without credentials and
    a premium user. *)
Lemma receiveEmails_dispatch_witness :
  receiveEmails Sample.healthy Sample.mailbox_env Sample.free_user
    (Sample.world [] [])
  = (Ok ["message-1"; "message-2"],
     mkWorld [] [] 0
       [ReqAxiosGet
          "https://api.smtp.dev/accounts/acct/mailboxes/box/messages" "key"]
       [])
  /\ receiveEmails Sample.offline Sample.mailbox_env Sample.free_user
       (Sample.world [] [])
     = (Throw (Rejected "ETIMEDOUT"),
        mkWorld [] [] 0
          [ReqAxiosGet
             "https://api.smtp.dev/accounts/acct/mailboxes/box/messages"
             "key"]
          [])
  /\ receiveEmails Sample.no_body Sample.mailbox_env Sample.free_user
       (Sample.world [] [])
     = (Throw (TypeError "member"),
        mkWorld [] [] 0
          [ReqAxiosGet
             "https://api.smtp.dev/accounts/acct/mailboxes/box/messages"
             "key"]
          [])
  /\ receiveEmails Sample.offline Sample.bare_env Sample.free_user
       (Sample.world [] [])
     = (Ok [], Sample.world [] [])
  /\ receiveEmails Sample.offline Sample.mailbox_env Sample.pro_user
       (Sample.world [] [])
     = (Ok [], Sample.world [] [])
  /\ (isPro Sample.free_user = false
      /\ exists key account mailbox,
           SMTPDEV_API_KEY Sample.mailbox_env = Some key
           /\ SMTPDEV_ACCOUNT_ID Sample.mailbox_env = Some account
           /\ SMTPDEV_MAILBOX_ID Sample.mailbox_env = Some mailbox).
Proof.
  split.
  { exact (proj1 (proj2 (proj2
             (receiveEmails_dispatch Sample.healthy Sample.mailbox_env
                Sample.free_user (Sample.world [] []))))
             "key" "acct" "box" eq_refl eq_refl ltac:(discriminate)
             eq_refl ltac:(discriminate) eq_refl ltac:(discriminate)). }
  split.
  { exact (proj1 (proj2 (proj2
             (receiveEmails_dispatch Sample.offline Sample.mailbox_env
                Sample.free_user (Sample.world [] []))))
             "key" "acct" "box" eq_refl eq_refl ltac:(discriminate)
             eq_refl ltac:(discriminate) eq_refl ltac:(discriminate)). }
  split.
  { exact (proj1 (proj2 (proj2
             (receiveEmails_dispatch Sample.no_body Sample.mailbox_env
                Sample.free_user (Sample.world [] []))))
             "key" "acct" "box" eq_refl eq_refl ltac:(discriminate)
             eq_refl ltac:(discriminate) eq_refl ltac:(discriminate)). }
  split.
  { exact (proj1 (proj2
             (receiveEmails_dispatch Sample.offline Sample.bare_env
                Sample.free_user (Sample.world [] [])))
             eq_refl (or_introl eq_refl)). }
  split.
  { exact (proj1
             (receiveEmails_dispatch Sample.offline Sample.mailbox_env
                Sample.pro_user (Sample.world [] []))
             eq_refl). }
  destruct (proj2 (proj2 (proj2
             (receiveEmails_dispatch Sample.no_body Sample.mailbox_env
                Sample.free_user (Sample.world [] []))))
             (TypeError "member") eq_refl)
    as (Hfree & key & account & mailbox & Hk & _ & Ha & _ & Hm & _).
  split; [exact Hfree|].
  exists key, account, mailbox. auto.
Defined.

(** C10 for a third domain added to two defaulted ones. *)
Lemma addDomain_default_order_witness :
  exists doc,
    Doc.order doc = 2
    /\ fst (getDomains
              (snd (addDomain Sample.healthy (Sample.newRelay "c.example")
                      (Sample.world [Sample.relay 1 "a.example" 10 0;
                                     Sample.relay 2 "b.example" 10 1] []))))
       = Ok [toConfig (Sample.relay 1 "a.example" 10 0);
             toConfig (Sample.relay 2 "b.example" 10 1);
             toConfig doc].
Proof.
  destruct (addDomain_default_order Sample.healthy (Sample.newRelay "c.example")
              (Sample.world [Sample.relay 1 "a.example" 10 0;
                             Sample.relay 2 "b.example" 10 1] []))
    as (doc & _ & Horder & _ & Hlast).
  - reflexivity.
  - exists doc. split; [exact Horder|].
    destruct Hlast as (_ & H & _).
    + intros [|[|[|i]]] d; simpl; try discriminate;
        intros [= <-]; reflexivity.
    + exact H.
Defined.

(** C3 on three relays stored out of priority order: the three sends go
    to a.example, b.example and c.example, in that order. *)
Lemma three_domains_rotate_witness :
  let a := Sample.relay 11 "a.example" 1 0 in
  let b := Sample.relay 12 "b.example" 1 1 in
  let c := Sample.relay 13 "c.example" 1 2 in
  let w0 := Sample.world [c; a; b] [] in
  let s1 := sendEmail Sample.healthy Sample.bare_env Sample.free_user
              Sample.hello w0 in
  let s2 := sendEmail Sample.healthy Sample.bare_env Sample.free_user
              Sample.hello (snd s1) in
  let s3 := sendEmail Sample.healthy Sample.bare_env Sample.free_user
              Sample.hello (snd s2) in
  let s4 := sendEmail Sample.healthy Sample.bare_env Sample.free_user
              Sample.hello (snd s3) in
  let sent_to (name : string) :=
    ReqSendMail (Smtp.mkTransport name (Some 587) false "mailer" "secret")
      (Smtp.mkMail name "bob@example.org" "Hello" (Some "Hi Bob") None) in
  fst s1 = Ok (SentInfo "250 queued")
  /\ fst s2 = Ok (SentInfo "250 queued")
  /\ fst s3 = Ok (SentInfo "250 queued")
  /\ requests (snd s1) = [sent_to "a.example"]
  /\ requests (snd s2) = [sent_to "a.example"; sent_to "b.example"]
  /\ requests (snd s3)
     = [sent_to "a.example"; sent_to "b.example"; sent_to "c.example"]
  /\ map (count_of (snd s1)) [a; b; c] = [Some 1; None; None]
  /\ map (count_of (snd s2)) [a; b; c] = [Some 1; Some 1; None]
  /\ map (count_of (snd s3)) [a; b; c] = [Some 1; Some 1; Some 1]
  /\ fst s4 = Throw TransportExhausted
  /\ requests (snd s4) = requests (snd s3).
Proof.
  intros a b c w0 s1 s2 s3 s4 sent_to.
  destruct (three_domains_rotate Sample.healthy a b c w0 Sample.free_user
              Sample.bare_env Sample.bare_env Sample.bare_env Sample.bare_env
              Sample.hello Sample.hello Sample.hello Sample.hello)
    as (H1 & H2 & H3 & C1 & C2 & C3 & H4 & R4 & _).
  - exact (perm_trans (perm_swap a c [b]) (perm_skip a (perm_swap b c []))).
  - reflexivity.
  - reflexivity.
  - reflexivity.
  - reflexivity.
  - reflexivity.
  - reflexivity.
  - repeat constructor; simpl; intuition discriminate.
  - reflexivity.
  - reflexivity.
  - intros k tr mail. exists "250 queued". reflexivity.
  - intros i j Hi Hij Hj. cbn [clock_reads w0 Sample.world] in Hj.
    unfold hour_ms, Sample.healthy, Sample.runtime, Sample.clock.
    cbn [Date_now]. lia.
  - reflexivity.
  - reflexivity.
  - fold s1 s2 s3 s4 in H1, H2, H3, C1, C2, C3, H4, R4.
    destruct H1 as (R1 & E1 & _ & _).
    destruct H2 as (R2 & E2 & _ & _).
    destruct H3 as (R3 & E3 & _ & _).
    split; [exact E1|]. split; [exact E2|]. split; [exact E3|].
    split; [exact R1|].
    split; [rewrite R2, R1; reflexivity|].
    split; [rewrite R3, R2, R1; reflexivity|].
    split; [exact C1|]. split; [exact C2|]. split; [exact C3|].
    split; [exact H4 | exact R4].
Defined.

(** * Further properties of the allocator and the delivery policy *)

(** ** Effects on the usage collection *)

Lemma find_app_other (dom : ObjectId) (l : list DomainUsage) (u : DomainUsage) :
  domain_id u <> dom ->
  find (fun x => Nat.eqb (domain_id x) dom) (l ++ [u])
  = find (fun x => Nat.eqb (domain_id x) dom) l.
Proof.
  intros Hne. induction l as [|x r IH]; simpl.
  - now destruct (Nat.eqb_spec (domain_id u) dom).
  - now destruct (Nat.eqb (domain_id x) dom).
Qed.

(** An update of one domain's record is invisible to the lookups of the
    other domains. *)
Lemma find_set_first_other (dom : ObjectId) (ws c : Z) (l : list DomainUsage)
      (u : DomainUsage) :
  NoDup (map _id l) -> In u l -> domain_id u <> dom ->
  find (fun x => Nat.eqb (domain_id x) dom) (set_first (_id u) ws c l)
  = find (fun x => Nat.eqb (domain_id x) dom) l.
Proof.
  induction l as [|x r IH]; simpl.
  - reflexivity.
  - intros Hnd Hin Hne. inversion Hnd as [|? ? Hx Hr]; subst.
    destruct (Nat.eqb_spec (_id x) (_id u)) as [Ei|Ei].
    + assert (x = u) as ->.
      { destruct Hin as [E|Hin]; [exact E|].
        exfalso. apply Hx. rewrite Ei. now apply in_map. }
      simpl. now destruct (Nat.eqb_spec (domain_id u) dom).
    + simpl. destruct (Nat.eqb (domain_id x) dom); [reflexivity|].
      destruct Hin as [E|Hin]; [congruence|]. now apply IH.
Qed.

Lemma set_first_domain_ids (oid : ObjectId) (ws c : Z) (l : list DomainUsage) :
  map domain_id (set_first oid ws c l) = map domain_id l.
Proof.
  induction l as [|u r IH]; simpl.
  - reflexivity.
  - destruct (Nat.eqb (_id u) oid); simpl; [reflexivity | now rewrite IH].
Qed.

Lemma set_first_nonneg (oid : ObjectId) (ws c : Z) (l : list DomainUsage) :
  0 <= c ->
  Forall (fun u => 0 <= count u) l ->
  Forall (fun u => 0 <= count u) (set_first oid ws c l).
Proof.
  intros Hc. induction 1 as [|u r Hu Hr IH]; simpl.
  - constructor.
  - destruct (Nat.eqb (_id u) oid); constructor; auto.
Qed.

Lemma find_none_domain_ids (dom : ObjectId) (l : list DomainUsage) :
  find (fun x => Nat.eqb (domain_id x) dom) l = None ->
  ~ In dom (map domain_id l).
Proof.
  induction l as [|x r IH]; simpl.
  - intros _ [].
  - destruct (Nat.eqb_spec (domain_id x) dom) as [E|E]; [discriminate|].
    intros H [E'|Hin]; [contradiction | exact (IH H Hin)].
Qed.

Section Effects.

Variable rt : Runtime.

(** What one availability check does to the store. *)
Lemma hasQuota_effect (d : DomainConfig) (w : World) :
  usage_ids_unique w ->
  exists u w',
    hasQuota rt d w = (Ok (count u <? limit d, u), w')
    /\ usage_ids_unique w'
    /\ usage_of (id d) w' = Some u
    /\ (one_record_per_domain w -> one_record_per_domain w')
    /\ (Forall (fun u => 0 <= count u) (smtp_domain_usage w) ->
        Forall (fun u => 0 <= count u) (smtp_domain_usage w'))
    /\ (forall dom,
          usage_of dom w' = usage_of dom w
          \/ exists u', usage_of dom w' = Some u' /\ count u' = 0)
    /\ smtp_domains w' = smtp_domains w
    /\ requests w' = requests w
    /\ console w' = console w.
Proof.
  intros Hnd.
  destruct (usage_of (id d) w) as [u|] eqn:Hu.
  - (* the record exists *)
    rewrite (hasQuota_after_getUsageDoc rt _ _ _ _
               (getUsageDoc_found rt _ _ _ Hu)).
    cbv zeta. destruct (hour_ms <=? _).
    + exists (mkDomainUsage (_id u) (domain_id u)
                (Date_now rt (clock_reads w)) 0).
      eexists. split; [reflexivity|].
      unfold usage_ids_unique, usage_of, one_record_per_domain in *. simpl.
      rewrite set_first_ids, set_first_domain_ids.
      split; [exact Hnd|].
      split; [now apply find_set_first|].
      split; [auto|].
      split; [now apply set_first_nonneg|].
      split; [|auto].
      intros dom. destruct (Nat.eq_dec (id d) dom) as [<-|Hne].
      * right. eexists. split; [now apply find_set_first | reflexivity].
      * left. apply find_set_first_other; auto.
        -- now apply find_some in Hu.
        -- now rewrite (find_domain_id _ _ _ Hu).
    + exists u, (ticked w). split; [reflexivity|]. simpl.
      unfold usage_ids_unique, usage_of, one_record_per_domain in *. simpl.
      repeat split; auto.
  - (* the record is created *)
    rewrite (hasQuota_after_getUsageDoc rt _ _ _ _
               (getUsageDoc_missing rt _ _ Hu)).
    cbv zeta.
    cbn [window_start _id domain_id count smtp_domain_usage clock_reads
         ticked with_usage].
    assert (Hfresh : ~ In (fresh_id (map _id (smtp_domain_usage w)))
                       (map _id (smtp_domain_usage w)))
      by apply fresh_id_fresh.
    assert (Hnew : forall ws dom,
      find (fun x => Nat.eqb (domain_id x) dom)
        (smtp_domain_usage w ++
           [mkDomainUsage (fresh_id (map _id (smtp_domain_usage w))) (id d)
              ws 0])
      = usage_of dom w
      \/ exists u',
           find (fun x => Nat.eqb (domain_id x) dom)
             (smtp_domain_usage w ++
                [mkDomainUsage (fresh_id (map _id (smtp_domain_usage w)))
                   (id d) ws 0])
           = Some u' /\ count u' = 0).
    { intros ws dom. destruct (Nat.eq_dec (id d) dom) as [<-|Hne].
      - right. eexists. split; [now apply find_app_new | reflexivity].
      - left. now apply find_app_other. }
    assert (Hone : forall ws,
      NoDup (map domain_id (smtp_domain_usage w)) ->
      NoDup (map domain_id
               (smtp_domain_usage w ++
                  [mkDomainUsage (fresh_id (map _id (smtp_domain_usage w)))
                     (id d) ws 0]))).
    { intros ws H. rewrite map_app. simpl.
      apply NoDup_app; [exact H | repeat constructor; intros [] |].
      intros i Hi [<-|[]]. exact (find_none_domain_ids _ _ Hu Hi). }
    destruct (hour_ms <=? _).
    + rewrite set_first_app_new by (auto || reflexivity). simpl.
      exists (mkDomainUsage (fresh_id (map _id (smtp_domain_usage w))) (id d)
                (Date_now rt (S (clock_reads w))) 0).
      eexists. split; [reflexivity|].
      unfold usage_ids_unique, usage_of, one_record_per_domain in *. simpl.
      split; [now apply NoDup_ids_app_fresh|].
      split; [now apply find_app_new|].
      split; [apply Hone|].
      split.
      { intros H. apply Forall_app. split; [exact H|].
        repeat constructor. simpl. lia. }
      split; [apply Hnew | auto].
    + exists (mkDomainUsage (fresh_id (map _id (smtp_domain_usage w))) (id d)
                (Date_now rt (clock_reads w)) 0).
      eexists. split; [reflexivity|].
      unfold usage_ids_unique, usage_of, one_record_per_domain in *. simpl.
      split; [now apply NoDup_ids_app_fresh|].
      split; [now apply find_app_new|].
      split; [apply Hone|].
      split.
      { intros H. apply Forall_app. split; [exact H|].
        repeat constructor. simpl. lia. }
      split; [apply Hnew | auto].
Qed.

(** What the loop of [getNextAvailableDomain] does to the store, and what
    it guarantees about the domain it returns. *)
Lemma firstWithQuota_effect (ds : list DomainConfig) (w : World) :
  usage_ids_unique w ->
  exists r w',
    firstWithQuota rt ds w = (Ok r, w')
    /\ usage_ids_unique w'
    /\ (one_record_per_domain w -> one_record_per_domain w')
    /\ (Forall (fun u => 0 <= count u) (smtp_domain_usage w) ->
        Forall (fun u => 0 <= count u) (smtp_domain_usage w'))
    /\ (forall dom,
          usage_of dom w' = usage_of dom w
          \/ exists u', usage_of dom w' = Some u' /\ count u' = 0)
    /\ (forall d, r = Some d ->
          In d ds
          /\ exists u, usage_of (id d) w' = Some u /\ count u < limit d)
    /\ smtp_domains w' = smtp_domains w
    /\ requests w' = requests w
    /\ console w' = console w.
Proof.
  revert w. induction ds as [|d rest IH]; intros w Hnd.
  - exists None, w. simpl. unfold ret.
    split; [reflexivity|]. split; [exact Hnd|]. split; [auto|].
    split; [auto|]. split; [now left|]. split; [discriminate | auto].
  - destruct (hasQuota_effect d w Hnd)
      as (u & w1 & Hrun & Hnd1 & Hu & Hone & Hpos & Hdom & Hd & Hr & Hc).
    cbn [firstWithQuota]. unfold bind. rewrite Hrun. cbn [fst].
    destruct (Z.ltb_spec (count u) (limit d)) as [Hlt|Hge].
    + exists (Some d), w1. unfold ret.
      split; [reflexivity|]. split; [exact Hnd1|]. split; [exact Hone|].
      split; [exact Hpos|]. split; [exact Hdom|].
      split; [|auto].
      intros d' [= <-]. split; [now left|]. exists u. auto.
    + destruct (IH w1 Hnd1)
        as (r & w2 & Hrun2 & Hnd2 & Hone2 & Hpos2 & Hdom2 & Hsel & Hd2
            & Hr2 & Hc2).
      exists r, w2. split; [exact Hrun2|]. split; [exact Hnd2|].
      split; [auto|]. split; [auto|].
      split.
      { intros dom. destruct (Hdom2 dom) as [E2|Hz]; [|now right].
        rewrite E2. apply Hdom. }
      split.
      { intros d' Hd'. destruct (Hsel d' Hd') as [Hin Hq].
        split; [now right | exact Hq]. }
      repeat split; congruence.
Qed.

Lemma getNextAvailableDomain_effect (w : World) :
  usage_ids_unique w ->
  exists r w',
    getNextAvailableDomain rt w = (Ok r, w')
    /\ usage_ids_unique w'
    /\ (one_record_per_domain w -> one_record_per_domain w')
    /\ (Forall (fun u => 0 <= count u) (smtp_domain_usage w) ->
        Forall (fun u => 0 <= count u) (smtp_domain_usage w'))
    /\ (forall dom,
          usage_of dom w' = usage_of dom w
          \/ exists u', usage_of dom w' = Some u' /\ count u' = 0)
    /\ (forall d, r = Some d ->
          (exists doc, In doc (smtp_domains w) /\ d = toConfig doc)
          /\ exists u, usage_of (id d) w' = Some u /\ count u < limit d)
    /\ smtp_domains w' = smtp_domains w
    /\ requests w' = requests w
    /\ console w' = console w.
Proof.
  intros Hnd.
  destruct (firstWithQuota_effect
              (map toConfig (sort_by_order (smtp_domains w))) w Hnd)
    as (r & w' & Hrun & Hnd' & Hone & Hpos & Hdom & Hsel & Hframe).
  exists r, w'.
  split; [exact Hrun|]. split; [exact Hnd'|]. split; [exact Hone|].
  split; [exact Hpos|]. split; [exact Hdom|]. split; [|exact Hframe].
  intros d Hd. destruct (Hsel d Hd) as [Hin Hq]. split; [|exact Hq].
  apply in_map_iff in Hin. destruct Hin as (doc & <- & Hdoc).
  exists doc. split; [|reflexivity].
  exact (Permutation_in _ (sort_by_order_perm _) Hdoc).
Qed.

(** What [recordUsage] does to the store when the record exists. *)
Lemma recordUsage_effect (dom : ObjectId) (w : World) (u : DomainUsage) :
  usage_ids_unique w ->
  usage_of dom w = Some u ->
  exists u' w',
    recordUsage rt dom w = (Ok tt, w')
    /\ usage_ids_unique w'
    /\ (one_record_per_domain w -> one_record_per_domain w')
    /\ (Forall (fun u => 0 <= count u) (smtp_domain_usage w) ->
        Forall (fun u => 0 <= count u) (smtp_domain_usage w'))
    /\ usage_of dom w' = Some u'
    /\ (count u' = 1 \/ count u' = plus_one (count u))
    /\ (forall other, other <> dom -> usage_of other w' = usage_of other w)
    /\ smtp_domains w' = smtp_domains w
    /\ requests w' = requests w
    /\ console w' = console w.
Proof.
  intros Hnd Hu.
  rewrite (recordUsage_after_getUsageDoc rt _ _ _ _
             (getUsageDoc_found rt _ _ _ Hu)).
  cbv zeta.
  assert (Hin : In u (smtp_domain_usage w)) by now apply find_some in Hu.
  unfold usage_ids_unique, usage_of, one_record_per_domain in *.
  destruct (hour_ms <=? _).
  - eexists _, _. split; [reflexivity|]. simpl.
    rewrite set_first_ids, set_first_domain_ids.
    split; [exact Hnd|]. split; [auto|].
    split; [now apply set_first_nonneg|].
    split; [now apply find_set_first|].
    split; [now left|].
    split; [|auto].
    intros other Hne. apply find_set_first_other; auto.
    rewrite (find_domain_id _ _ _ Hu). congruence.
  - eexists _, _. split; [reflexivity|]. simpl.
    rewrite set_first_ids, set_first_domain_ids.
    split; [exact Hnd|]. split; [auto|].
    split.
    { intros H. apply set_first_nonneg; [|exact H].
      rewrite Forall_forall in H. specialize (H u Hin). simpl in H.
      pose proof (plus_one_bounds (count u)). lia. }
    split; [now apply find_set_first|].
    split; [now right|].
    split; [|auto].
    intros other Hne. apply find_set_first_other; auto.
    rewrite (find_domain_id _ _ _ Hu). congruence.
Qed.

(** The transports after step 1 only add to the request log. *)
Lemma fallbackTransports_store (env : Env) (m : Message) (w : World) :
  smtp_domains (snd (fallbackTransports rt env m w)) = smtp_domains w
  /\ smtp_domain_usage (snd (fallbackTransports rt env m w))
     = smtp_domain_usage w
  /\ clock_reads (snd (fallbackTransports rt env m w)) = clock_reads w
  /\ console (snd (fallbackTransports rt env m w)) = console w.
Proof.
  unfold fallbackTransports, bind, sendMail, post, issue.
  destruct (staticConfigured env).
  - destruct (transporter_sendMail rt _ _ _); simpl; auto.
  - destruct (smtpDevConfigured env); [|simpl; auto].
    destruct (axios_post rt _ _ _ _); simpl; auto.
Qed.

(** What step 1 does to the store: a record is left alone, reset to
    [count = 0] by an availability check, or it is the record of the
    domain the mail went through and holds a count between 1 and the
    domain's limit. *)
Lemma tryConfiguredDomain_effect (m : Message) (w : World) :
  usage_ids_unique w ->
  exists r w',
    tryConfiguredDomain rt m w = (Ok r, w')
    /\ smtp_domains w' = smtp_domains w
    /\ usage_ids_unique w'
    /\ (one_record_per_domain w -> one_record_per_domain w')
    /\ (Forall (fun u => 0 <= count u) (smtp_domain_usage w) ->
        Forall (fun u => 0 <= count u) (smtp_domain_usage w')
        /\ forall dom,
             usage_of dom w' = usage_of dom w
             \/ (exists u', usage_of dom w' = Some u' /\ count u' = 0)
             \/ (exists doc u',
                    In doc (smtp_domains w) /\ Doc._id doc = dom
                    /\ usage_of dom w' = Some u'
                    /\ 1 <= count u' <= Doc.limit doc)).
Proof.
  intros Hnd.
  destruct (getNextAvailableDomain_effect w Hnd)
    as (r & w1 & Hrun & Hnd1 & Hone1 & Hpos1 & Hdom1 & Hsel & Hd1 & Hr1 & Hc1).
  unfold tryConfiguredDomain, try_catch, viaConfiguredDomain, bind.
  rewrite Hrun. destruct r as [d|].
  - destruct (Hsel d eq_refl) as ((doc & Hdoc & ->) & u & Hu & Hlt).
    unfold sendMail, issue.
    destruct (transporter_sendMail rt _ _ _) as [info|e].
    + (* delivered: the use is recorded *)
      set (w1' := mkWorld (smtp_domains w1) (smtp_domain_usage w1)
                    (clock_reads w1)
                    (requests w1 ++
                       [ReqSendMail (domainTransport (toConfig doc))
                          (domainMail (toConfig doc) m)])
                    (console w1)).
      destruct (recordUsage_effect (id (toConfig doc)) w1' u Hnd1 Hu)
        as (u' & w2 & Hrec & Hnd2 & Hone2 & Hpos2 & Hu' & Hcount & Hother
            & Hd2 & Hr2 & Hc2).
      rewrite Hrec. exists (Some info), w2.
      split; [reflexivity|]. split; [rewrite Hd2; exact Hd1|].
      split; [exact Hnd2|].
      split; [auto|].
      intros Hpos. split; [auto|].
      intros dom. destruct (Nat.eq_dec dom (id (toConfig doc))) as [->|Hne].
      * right. right. exists doc, u'.
        split; [exact Hdoc|]. split; [reflexivity|]. split; [exact Hu'|].
        assert (0 <= count u).
        { specialize (Hpos1 Hpos). rewrite Forall_forall in Hpos1.
          apply Hpos1. now apply find_some in Hu. }
        pose proof (plus_one_bounds (count u)).
        pose proof (plus_one_positive (count u)).
        simpl in Hlt. simpl. lia.
      * rewrite (Hother dom Hne).
        destruct (Hdom1 dom) as [E|Hz]; [now left | right; now left].
    + (* rejected: logged, nothing recorded *)
      unfold console_error. eexists _, _. split; [reflexivity|].
      unfold usage_ids_unique, one_record_per_domain, usage_of in *.
      simpl. split; [exact Hd1|]. split; [exact Hnd1|]. split; [exact Hone1|].
      intros Hpos. split; [auto|].
      intros dom. destruct (Hdom1 dom) as [E|Hz]; [now left | right; now left].
  - exists None, w1. split; [reflexivity|]. split; [exact Hd1|].
    split; [exact Hnd1|]. split; [exact Hone1|].
    intros Hpos. split; [auto|].
    intros dom. destruct (Hdom1 dom) as [E|Hz]; [now left | right; now left].
Qed.

Lemma sendEmail_store_effect (env : Env) (usr : User.t) (m : Message)
      (w : World) :
  usage_ids_unique w ->
  smtp_domains (snd (sendEmail rt env usr m w)) = smtp_domains w
  /\ usage_ids_unique (snd (sendEmail rt env usr m w))
  /\ (one_record_per_domain w ->
      one_record_per_domain (snd (sendEmail rt env usr m w)))
  /\ (Forall (fun u => 0 <= count u) (smtp_domain_usage w) ->
      Forall (fun u => 0 <= count u)
        (smtp_domain_usage (snd (sendEmail rt env usr m w)))
      /\ forall dom,
           usage_of dom (snd (sendEmail rt env usr m w)) = usage_of dom w
           \/ (exists u',
                 usage_of dom (snd (sendEmail rt env usr m w)) = Some u'
                 /\ count u' = 0)
           \/ (exists doc u',
                  In doc (smtp_domains w) /\ Doc._id doc = dom
                  /\ usage_of dom (snd (sendEmail rt env usr m w)) = Some u'
                  /\ 1 <= count u' <= Doc.limit doc)).
Proof.
  intros Hnd. destruct (isPro usr) eqn:Hpro.
  - rewrite (sendEmail_premium rt env usr m w Hpro).
    destruct (negb _ || negb _); simpl; auto 10.
  - rewrite (sendEmail_free rt env usr m w Hpro).
    destruct (tryConfiguredDomain_effect m w Hnd)
      as (r & w1 & Hrun & Hd & Hnd1 & Hone & Hrest).
    rewrite Hrun. destruct r as [info|].
    + simpl. auto.
    + destruct (fallbackTransports_store env m w1) as (Fd & Fu & _ & _).
      unfold usage_ids_unique, one_record_per_domain, usage_of in *.
      rewrite Fd, Fu. auto.
Qed.

End Effects.

Section FurtherAllocator.

Variable rt : Runtime.

(** X1.  A [sendEmail] call keeps the quota store consistent with the
    registry: if identifiers are unique, limits and counts are not negative
    and no configured domain has a persisted count above its limit, the same
    holds after the call, whoever calls and whatever the transports
    answer. *)
Theorem sendEmail_keeps_within_limits (env : Env) (usr : User.t) (m : Message)
        (w : World) :
  within_limits w -> within_limits (snd (sendEmail rt env usr m w)).
Proof.
  intros (Hnd & Hids & Hlim & Hpos & Hle).
  destruct (sendEmail_store_effect rt env usr m w Hnd)
    as (Hd & Hnd' & _ & Hrest).
  destruct (Hrest Hpos) as [Hpos' Hdom].
  unfold within_limits. rewrite Hd.
  split; [exact Hnd'|]. split; [exact Hids|]. split; [exact Hlim|].
  split; [exact Hpos'|].
  intros doc u Hdoc Hu.
  destruct (Hdom (Doc._id doc)) as [E|[(u' & Hu' & Hz)|(doc' & u' & Hdoc' & Hid & Hu' & Hc)]].
  - rewrite E in Hu. exact (Hle doc u Hdoc Hu).
  - rewrite Hu' in Hu. injection Hu as <-. rewrite Hz.
    rewrite Forall_forall in Hlim. exact (Hlim doc Hdoc).
  - rewrite Hu' in Hu. injection Hu as <-.
    assert (doc' = doc) as ->; [|lia].
    clear - Hids Hdoc Hdoc' Hid.
    induction (smtp_domains w) as [|x r IH]; [destruct Hdoc|].
    simpl in Hids. inversion Hids as [|? ? Hx Hr]; subst.
    destruct Hdoc as [->|Hdoc], Hdoc' as [->|Hdoc'].
    + reflexivity.
    + exfalso. apply Hx. rewrite <- Hid. now apply in_map.
    + exfalso. apply Hx. rewrite Hid. now apply in_map.
    + now apply IH.
Qed.

(** X2.  A [sendEmail] call never changes the registry, keeps the usage
    identifiers unique and never leaves a domain with two usage
    records. *)
Theorem sendEmail_keeps_store_shape (env : Env) (usr : User.t) (m : Message)
        (w : World) :
  usage_ids_unique w ->
  one_record_per_domain w ->
  smtp_domains (snd (sendEmail rt env usr m w)) = smtp_domains w
  /\ usage_ids_unique (snd (sendEmail rt env usr m w))
  /\ one_record_per_domain (snd (sendEmail rt env usr m w)).
Proof.
  intros Hnd Hone.
  destruct (sendEmail_store_effect rt env usr m w Hnd) as (Hd & Hnd' & Hone' & _).
  auto.
Qed.

(** X3.  The domain [getNextAvailableDomain] returns is a configured one
    and, in the store as the call leaves it, its usage record exists and
    holds a count below the domain's limit. *)
Theorem getNextAvailableDomain_selected_has_quota (w w' : World)
        (d : DomainConfig) :
  usage_ids_unique w ->
  getNextAvailableDomain rt w = (Ok (Some d), w') ->
  (exists doc, In doc (smtp_domains w) /\ d = toConfig doc)
  /\ exists u, usage_of (id d) w' = Some u /\ count u < limit d.
Proof.
  intros Hnd Hrun.
  destruct (getNextAvailableDomain_effect rt w Hnd)
    as (r & w1 & Hrun1 & _ & _ & _ & _ & Hsel & _).
  rewrite Hrun in Hrun1. injection Hrun1 as <- <-.
  exact (Hsel d eq_refl).
Qed.

(** X4.  The first availability check of a domain that has no usage
    record creates the record with [count = 0]; the verdict is
    [0 < limit], whatever the clock shows. *)
Theorem hasQuota_first_use_available (d : DomainConfig) (w : World) :
  usage_ids_unique w ->
  usage_of (id d) w = None ->
  checkAvailability rt d w = (0 <? limit d)
  /\ exists u,
       usage_of (id d) (snd (hasQuota rt d w)) = Some u
       /\ count u = 0
       /\ domain_id u = id d
       /\ List.length (smtp_domain_usage (snd (hasQuota rt d w)))
          = S (List.length (smtp_domain_usage w)).
Proof.
  intros Hnd Hu. unfold checkAvailability.
  rewrite (hasQuota_after_getUsageDoc rt _ _ _ _
             (getUsageDoc_missing rt _ _ Hu)).
  cbv zeta.
  cbn [window_start _id domain_id count smtp_domain_usage clock_reads
       ticked with_usage].
  destruct (hour_ms <=? _); cbn [fst snd].
  - split; [reflexivity|].
    rewrite set_first_app_new by (apply fresh_id_fresh || reflexivity).
    eexists. unfold usage_of. simpl.
    split; [now apply find_app_new|].
    rewrite length_app. simpl. repeat split; lia.
  - split; [reflexivity|].
    eexists. unfold usage_of. simpl.
    split; [now apply find_app_new|].
    rewrite length_app. simpl. repeat split; lia.
Qed.

(** X5.  [recordUsage] for a domain that has no usage record creates the
    record and persists [count = 1], whatever the clock shows. *)
Theorem recordUsage_first_use (dom : ObjectId) (w : World) :
  usage_of dom w = None ->
  fst (recordUsage rt dom w) = Ok tt
  /\ exists u,
       usage_of dom (snd (recordUsage rt dom w)) = Some u
       /\ count u = 1
       /\ domain_id u = dom
       /\ (window_start u = Date_now rt (clock_reads w)
           \/ window_start u = Date_now rt (S (clock_reads w))).
Proof.
  intros Hu.
  rewrite (recordUsage_after_getUsageDoc rt _ _ _ _
             (getUsageDoc_missing rt _ _ Hu)).
  cbv zeta.
  cbn [window_start _id domain_id count smtp_domain_usage clock_reads
       ticked with_usage fst snd].
  split; [reflexivity|]. rewrite plus_one_0.
  destruct (hour_ms <=? _);
    rewrite set_first_app_new by (apply fresh_id_fresh || reflexivity);
    eexists; unfold usage_of; simpl;
    (split; [now apply find_app_new|]); auto.
Qed.

Lemma recordUsages_run (dom : ObjectId) (n : nat) :
  forall (w : World) (u : DomainUsage),
    usage_ids_unique w ->
    usage_of dom w = Some u ->
    - max_safe <= count u <= max_safe ->
    (forall k, (k < n)%nat ->
       Date_now rt (clock_reads w + k) - window_start u < hour_ms) ->
    usage_ids_unique (recordUsages rt dom n w)
    /\ clock_reads (recordUsages rt dom n w) = (clock_reads w + n)%nat
    /\ usage_of dom (recordUsages rt dom n w)
       = Some (mkDomainUsage (_id u) (domain_id u) (window_start u)
                 (Z.min (count u + Z.of_nat n) max_safe)).
Proof.
  induction n as [|n IH]; intros w u Hnd Hu Hsafe Hlive.
  - cbn [recordUsages]. split; [exact Hnd|]. split; [lia|].
    rewrite Hu. destruct u. simpl in *. do 2 f_equal. lia.
  - cbn [recordUsages].
    destruct (recordUsage_spec rt dom w u Hnd Hu) as (_ & Hnd1 & Hclk & Hu1).
    assert (H0 : Date_now rt (clock_reads w) - window_start u < hour_ms).
    { specialize (Hlive 0%nat). rewrite Nat.add_0_r in Hlive.
      apply Hlive. lia. }
    destruct (Z.leb_spec hour_ms (Date_now rt (clock_reads w) - window_start u));
      [lia|].
    assert (Hone : plus_one (count u) = Z.min (count u + 1) max_safe).
    { destruct (Z.ltb_spec (count u) max_safe).
      - rewrite plus_one_exact; lia.
      - rewrite plus_one_stuck; lia. }
    destruct (IH _ _ Hnd1 Hu1) as (Hnd2 & Hclk2 & Hu2).
    { cbn [count]. rewrite Hone. lia. }
    { intros k Hk. rewrite Hclk. cbn [window_start].
      replace (S (clock_reads w) + k)%nat with (clock_reads w + S k)%nat by lia.
      apply Hlive. lia. }
    split; [exact Hnd2|]. split; [lia|].
    rewrite Hu2. cbn [_id domain_id window_start count].
    do 2 f_equal. rewrite Hone. lia.
Qed.

(** X6.  Within one window, [n] consecutive [recordUsage] calls on a
    record whose count is at most 2^53 in magnitude add [n] to the
    persisted count, up to 2^53, where the count stops growing, and leave
    [window_start] alone; the availability check that follows compares
    that count with the limit.  In particular, while [count + n] does not
    exceed 2^53 the calls add exactly [n]. *)
Theorem recordUsages_count (dom : ObjectId) (n : nat) (w : World)
        (u : DomainUsage) :
  usage_ids_unique w ->
  usage_of dom w = Some u ->
  - max_safe <= count u <= max_safe ->
  (forall k, (k <= n)%nat ->
     Date_now rt (clock_reads w + k) - window_start u < hour_ms) ->
  let counted := Z.min (count u + Z.of_nat n) max_safe in
  usage_of dom (recordUsages rt dom n w)
  = Some (mkDomainUsage (_id u) (domain_id u) (window_start u) counted)
  /\ (forall d, id d = dom ->
        checkAvailability rt d (recordUsages rt dom n w)
        = (counted <? limit d))
  /\ (count u + Z.of_nat n <= max_safe -> counted = count u + Z.of_nat n).
Proof.
  intros Hnd Hu Hsafe Hlive counted.
  destruct (recordUsages_run dom n w u Hnd Hu Hsafe) as (_ & Hclk & Hn).
  { intros k Hk. apply Hlive. lia. }
  fold counted in Hn.
  split; [exact Hn|]. split; [|unfold counted; lia].
  intros d <-. unfold checkAvailability.
  rewrite (hasQuota_live rt d _ _ Hn); [reflexivity|].
  rewrite Hclk. cbn [window_start]. apply Hlive. lia.
Qed.

End FurtherAllocator.

(** ** Sending through a domain whose window is open *)

Section OpenDomain.

Variable rt : Runtime.

Lemma firstWithQuota_open (used rest : list DomainConfig) (d : DomainConfig)
      (w : World) (u : DomainUsage) :
  (forall x, In x used ->
     exists ux,
       usage_of (id x) w = Some ux
       /\ limit x <= count ux
       /\ forall k,
            (clock_reads w <= k < clock_reads w + List.length used)%nat ->
            Date_now rt k - window_start ux < hour_ms) ->
  usage_of (id d) w = Some u ->
  count u < limit d ->
  Date_now rt (clock_reads w + List.length used) - window_start u < hour_ms ->
  firstWithQuota rt (used ++ d :: rest) w
  = (Ok (Some d),
     mkWorld (smtp_domains w) (smtp_domain_usage w)
       (S (clock_reads w + List.length used)) (requests w) (console w)).
Proof.
  revert w. induction used as [|x used IH]; intros w Hused Hu Hlt Hclk.
  - cbn [app firstWithQuota List.length] in *. unfold bind.
    rewrite Nat.add_0_r in *.
    rewrite (hasQuota_live rt d w u Hu Hclk). cbn [fst].
    destruct (Z.ltb_spec (count u) (limit d)); [reflexivity | lia].
  - destruct (Hused x (or_introl eq_refl)) as (ux & Hux & Hfull & Hlive).
    assert (Hnow : Date_now rt (clock_reads w) - window_start ux < hour_ms)
      by (apply Hlive; simpl; lia).
    cbn [app firstWithQuota]. unfold bind.
    rewrite (hasQuota_live rt x w ux Hux Hnow).
    cbn [fst]. destruct (Z.ltb_spec (count ux) (limit x)); [lia|].
    cbn [List.length] in *. rewrite Nat.add_succ_r in *.
    rewrite (IH (ticked w)); try assumption.
    + reflexivity.
    + intros y Hy. destruct (Hused y (or_intror Hy))
        as (uy & Huy & Hfy & Hly).
      exists uy. split; [exact Huy|]. split; [exact Hfy|].
      intros k Hk. apply Hly. simpl in *. lia.
Qed.

(** One free-tier send when the first domain that is not exhausted has an
    open window. *)
Lemma sendEmail_open_domain_run (env : Env) (usr : User.t) (m : Message)
      (used rest : list DomainConfig) (d : DomainConfig) (w : World)
      (u : DomainUsage) (info : string) :
  isPro usr = false ->
  map toConfig (sort_by_order (smtp_domains w)) = used ++ d :: rest ->
  (forall x, In x used ->
     exists ux,
       usage_of (id x) w = Some ux
       /\ limit x <= count ux
       /\ forall k,
            (clock_reads w <= k < clock_reads w + List.length used)%nat ->
            Date_now rt k - window_start ux < hour_ms) ->
  usage_of (id d) w = Some u ->
  count u < limit d ->
  Date_now rt (clock_reads w + List.length used) - window_start u < hour_ms ->
  Date_now rt (S (clock_reads w + List.length used)) - window_start u
  < hour_ms ->
  transporter_sendMail rt (List.length (requests w)) (domainTransport d)
    (domainMail d m) = Ok info ->
  sendEmail rt env usr m w
  = (Ok (SentInfo info),
     mkWorld (smtp_domains w)
       (set_first (_id u) (window_start u) (plus_one (count u)) (smtp_domain_usage w))
       (S (S (clock_reads w + List.length used)))
       (requests w ++ [ReqSendMail (domainTransport d) (domainMail d m)])
       (console w)).
Proof.
  intros Hfree Hsorted Hused Hu Hlt Hclk1 Hclk2 Hsend.
  assert (Hnext : getNextAvailableDomain rt w
    = (Ok (Some d),
       mkWorld (smtp_domains w) (smtp_domain_usage w)
         (S (clock_reads w + List.length used)) (requests w) (console w))).
  { unfold getNextAvailableDomain, getDomains, bind, domains_find_sorted, ret.
    rewrite Hsorted. now apply (firstWithQuota_open used rest d w u). }
  rewrite (sendEmail_free rt env usr m w Hfree).
  rewrite (tryConfiguredDomain_sent rt m w _ d info Hnext Hsend).
  erewrite recordUsage_after_getUsageDoc.
  2:{ apply getUsageDoc_found. exact Hu. }
  cbv zeta. unfold with_request. cbn [clock_reads snd].
  destruct (Z.leb_spec hour_ms
              (Date_now rt (S (clock_reads w + List.length used))
               - window_start u)); [lia|].
  reflexivity.
Qed.

End OpenDomain.

Section QuotaCycle.

Variable rt : Runtime.

(** X26.  A domain whose window has expired is back in the pool: when the
    domain of highest priority has a limit above zero and its record is at
    least an hour old, [getNextAvailableDomain] returns it and persists the
    reset record ([count = 0], window starting at the check), however many
    sends the old window had counted. *)
Theorem expired_window_restores_domain (w : World) (d : DomainConfig)
        (rest : list DomainConfig) (u : DomainUsage) :
  usage_ids_unique w ->
  map toConfig (sort_by_order (smtp_domains w)) = d :: rest ->
  usage_of (id d) w = Some u ->
  hour_ms <= Date_now rt (clock_reads w) - window_start u ->
  0 < limit d ->
  fst (getNextAvailableDomain rt w) = Ok (Some d)
  /\ usage_of (id d) (snd (getNextAvailableDomain rt w))
     = Some (mkDomainUsage (_id u) (domain_id u)
               (Date_now rt (clock_reads w)) 0).
Proof.
  intros Hnd Hsorted Hu Hexp Hlim.
  unfold getNextAvailableDomain, getDomains, bind, domains_find_sorted, ret.
  rewrite Hsorted. cbn [firstWithQuota]. unfold bind.
  rewrite (hasQuota_after_getUsageDoc rt _ _ _ _
             (getUsageDoc_found rt _ _ _ Hu)).
  cbv zeta.
  destruct (Z.leb_spec hour_ms (Date_now rt (clock_reads w) - window_start u));
    [|lia].
  cbn [fst]. destruct (Z.ltb_spec 0 (limit d)); [|lia].
  unfold ret. cbn [fst snd]. split; [reflexivity|].
  unfold usage_of in *. simpl. now apply find_set_first.
Qed.

(** X27.  A free-tier send goes through the first domain, in priority
    order, that is not exhausted; when that domain's window is open, its
    count is below 2^53 in magnitude and its transport accepts, the call
    resolves to the delivery info, issues that one request, to the
    domain's host and port with the domain's credentials and sender, adds
    exactly one to that domain's persisted count and leaves the usage
    records of all other domains as they were. *)
Theorem sendEmail_counts_one_use (env : Env) (usr : User.t) (m : Message)
        (used rest : list DomainConfig) (d : DomainConfig) (w : World)
        (u : DomainUsage) (info : string) :
  let transporter :=
    Smtp.mkTransport (host d) (Some (port d)) (secure d) (username d)
      (password d) in
  let mail :=
    Smtp.mkMail (from d) (to m) (subject m)
      (match text m with
       | Some EmptyString => None
       | other => other
       end)
      (match html m with
       | Some EmptyString => None
       | other => other
       end) in
  isPro usr = false ->
  usage_ids_unique w ->
  map toConfig (sort_by_order (smtp_domains w)) = used ++ d :: rest ->
  (forall x, In x used ->
     exists ux,
       usage_of (id x) w = Some ux
       /\ limit x <= count ux
       /\ forall k,
            (clock_reads w <= k < clock_reads w + List.length used)%nat ->
            Date_now rt k - window_start ux < hour_ms) ->
  usage_of (id d) w = Some u ->
  count u < limit d ->
  - max_safe <= count u < max_safe ->
  (forall k, (k <= 1)%nat ->
     Date_now rt (clock_reads w + List.length used + k) - window_start u
     < hour_ms) ->
  transporter_sendMail rt (List.length (requests w)) transporter mail
  = Ok info ->
  let w' := snd (sendEmail rt env usr m w) in
  fst (sendEmail rt env usr m w) = Ok (SentInfo info)
  /\ requests w' = requests w ++ [ReqSendMail transporter mail]
  /\ usage_of (id d) w'
     = Some (mkDomainUsage (_id u) (domain_id u) (window_start u)
               (count u + 1))
  /\ (forall other, other <> id d -> usage_of other w' = usage_of other w)
  /\ usage_ids_unique w'.
Proof.
  intros transporter mail Hfree Hnd Hsorted Hused Hu Hlt Hsafe Hclk Hsend w'.
  assert (Htr : transporter = domainTransport d) by reflexivity.
  assert (Hmail : mail = domainMail d m).
  { unfold mail, domainMail. now rewrite !or_undefined_cases. }
  rewrite Htr, Hmail in Hsend |- *. clear Htr Hmail.
  assert (Hclk0 := Hclk 0%nat (Nat.le_0_l 1)).
  assert (Hclk1 := Hclk 1%nat (Nat.le_refl 1)).
  rewrite Nat.add_0_r in Hclk0. rewrite Nat.add_1_r in Hclk1.
  unfold w'.
  rewrite (sendEmail_open_domain_run rt env usr m used rest d w u info
             Hfree Hsorted Hused Hu Hlt Hclk0 Hclk1 Hsend).
  rewrite (plus_one_exact _ Hsafe).
  cbn [fst snd requests]. unfold usage_of, usage_ids_unique in *.
  cbn [smtp_domain_usage].
  split; [reflexivity|]. split; [reflexivity|].
  split; [now apply find_set_first|].
  split; [|now rewrite set_first_ids].
  intros other Hne. apply find_set_first_other; auto.
  - now apply find_some in Hu.
  - rewrite (find_domain_id _ _ _ Hu). congruence.
Qed.

(** Consecutive sends through the domain of highest priority. *)
Lemma sendEmails_run (env : Env) (usr : User.t) (d : DomainConfig)
      (rest : list DomainConfig) (msgs : list Message) :
  forall (w : World) (u : DomainUsage),
    isPro usr = false ->
    usage_ids_unique w ->
    map toConfig (sort_by_order (smtp_domains w)) = d :: rest ->
    usage_of (id d) w = Some u ->
    count u + Z.of_nat (List.length msgs) <= limit d ->
    - max_safe <= count u ->
    count u + Z.of_nat (List.length msgs) <= max_safe ->
    (forall k, (k < 2 * List.length msgs)%nat ->
       Date_now rt (clock_reads w + k) - window_start u < hour_ms) ->
    (forall k tr mail, exists info, transporter_sendMail rt k tr mail = Ok info) ->
    usage_ids_unique (sendEmails rt env usr msgs w)
    /\ smtp_domains (sendEmails rt env usr msgs w) = smtp_domains w
    /\ clock_reads (sendEmails rt env usr msgs w)
       = (clock_reads w + 2 * List.length msgs)%nat
    /\ usage_of (id d) (sendEmails rt env usr msgs w)
       = Some (mkDomainUsage (_id u) (domain_id u) (window_start u)
                 (count u + Z.of_nat (List.length msgs)))
    /\ requests (sendEmails rt env usr msgs w)
       = requests w
         ++ map (fun m => ReqSendMail (domainTransport d) (domainMail d m))
              msgs.
Proof.
  induction msgs as [|m msgs IH];
    intros w u Hfree Hnd Hsorted Hu Hroom Hlo Hhi Hclk Hsend.
  - cbn [sendEmails List.length map]. rewrite app_nil_r, Hu.
    split; [exact Hnd|]. split; [reflexivity|]. split; [lia|].
    split; [|reflexivity]. destruct u. simpl. do 2 f_equal. lia.
  - cbn [sendEmails List.length] in *.
    destruct (Hsend (List.length (requests w)) (domainTransport d)
                (domainMail d m)) as [info Hinfo].
    assert (Hc0 : Date_now rt (clock_reads w + 0) - window_start u < hour_ms)
      by (rewrite Nat.add_0_r; specialize (Hclk 0%nat);
          rewrite Nat.add_0_r in Hclk; apply Hclk; lia).
    assert (Hc1 : Date_now rt (S (clock_reads w + 0)) - window_start u < hour_ms)
      by (rewrite Nat.add_0_r; specialize (Hclk 1%nat);
          rewrite Nat.add_1_r in Hclk; apply Hclk; lia).
    pose proof (sendEmail_open_domain_run rt env usr m [] rest d w u info
                  Hfree Hsorted (fun x (H : In x []) => match H with end) Hu)
      as Hstep.
    specialize (Hstep ltac:(lia) Hc0 Hc1 Hinfo).
    rewrite plus_one_exact in Hstep by lia.
    rewrite Hstep. cbn [snd].
    set (w1 := mkWorld (smtp_domains w)
                 (set_first (_id u) (window_start u) (count u + 1)
                    (smtp_domain_usage w))
                 (S (S (clock_reads w + List.length (@nil DomainConfig))))
                 (requests w ++ [ReqSendMail (domainTransport d) (domainMail d m)])
                 (console w)).
    assert (Hnd1 : usage_ids_unique w1)
      by (unfold usage_ids_unique, w1; simpl; now rewrite set_first_ids).
    assert (Hu1 : usage_of (id d) w1
                  = Some (mkDomainUsage (_id u) (domain_id u) (window_start u)
                            (count u + 1)))
      by (unfold usage_of, w1 in *; simpl; now apply find_set_first).
    destruct (IH w1 _ Hfree Hnd1 Hsorted Hu1) as (Hnd2 & Hd2 & Hr2 & Hu2 & Hq2).
    + cbn [count]. lia.
    + cbn [count]. lia.
    + cbn [count]. lia.
    + intros k Hk. cbn [window_start]. unfold w1. cbn [clock_reads List.length].
      replace (S (S (clock_reads w + 0)) + k)%nat
        with (clock_reads w + (2 + k))%nat by lia.
      apply Hclk. lia.
    + exact Hsend.
    + split; [exact Hnd2|]. split; [exact Hd2|].
      split; [rewrite Hr2; unfold w1; cbn [clock_reads List.length]; lia|].
      split.
      * rewrite Hu2. cbn [_id domain_id window_start count].
        do 2 f_equal. lia.
      * rewrite Hq2. unfold w1. cbn [requests map].
        now rewrite <- app_assoc.
Qed.

(** X28.  While the domain of highest priority has room in an open window
    and its count stays within 2^53, consecutive free-tier sends all leave
    through it: after [n] sends its persisted count has grown by exactly
    [n] and the request log by the [n] requests, in order, each to that
    domain's host and port with its credentials and sender; once the count
    has reached the limit the availability check of that domain is
    negative. *)
Theorem sendEmails_fill_the_quota (env : Env) (usr : User.t)
        (d : DomainConfig) (rest : list DomainConfig) (msgs : list Message)
        (w : World) (u : DomainUsage) :
  isPro usr = false ->
  usage_ids_unique w ->
  map toConfig (sort_by_order (smtp_domains w)) = d :: rest ->
  usage_of (id d) w = Some u ->
  count u + Z.of_nat (List.length msgs) <= limit d ->
  - max_safe <= count u ->
  count u + Z.of_nat (List.length msgs) <= max_safe ->
  (forall k, (k <= 2 * List.length msgs)%nat ->
     Date_now rt (clock_reads w + k) - window_start u < hour_ms) ->
  (forall k tr mail, exists info, transporter_sendMail rt k tr mail = Ok info) ->
  let w' := sendEmails rt env usr msgs w in
  usage_of (id d) w'
  = Some (mkDomainUsage (_id u) (domain_id u) (window_start u)
            (count u + Z.of_nat (List.length msgs)))
  /\ requests w'
     = requests w
       ++ map (fun m =>
                 ReqSendMail
                   (Smtp.mkTransport (host d) (Some (port d)) (secure d)
                      (username d) (password d))
                   (Smtp.mkMail (from d) (to m) (subject m)
                      (match text m with
                       | Some EmptyString => None
                       | other => other
                       end)
                      (match html m with
                       | Some EmptyString => None
                       | other => other
                       end)))
            msgs
  /\ checkAvailability rt d w'
     = (count u + Z.of_nat (List.length msgs) <? limit d)
  /\ (count u + Z.of_nat (List.length msgs) = limit d ->
      checkAvailability rt d w' = false).
Proof.
  intros Hfree Hnd Hsorted Hu Hroom Hlo Hhi Hclk Hsend w'.
  destruct (sendEmails_run env usr d rest msgs w u Hfree Hnd Hsorted Hu Hroom
              Hlo Hhi)
    as (_ & _ & Hr & Hu' & Hq); [intros k Hk; apply Hclk; lia | exact Hsend |].
  fold w' in Hr, Hu', Hq.
  assert (Hcheck : checkAvailability rt d w'
                   = (count u + Z.of_nat (List.length msgs) <? limit d)).
  { unfold checkAvailability.
    rewrite (hasQuota_live rt d w' _ Hu'); [reflexivity|].
    rewrite Hr. cbn [window_start]. apply Hclk. lia. }
  split; [exact Hu'|]. split.
  { rewrite Hq. f_equal. apply map_ext. intros m.
    unfold domainTransport, domainMail. now rewrite !or_undefined_cases. }
  split; [exact Hcheck|].
  intros Hfull. rewrite Hcheck. apply Z.ltb_ge. lia.
Qed.

End QuotaCycle.

Lemma NoDup_snoc_fresh (ids : list ObjectId) :
  NoDup ids -> NoDup (ids ++ [fresh_id ids]).
Proof.
  intros H. apply NoDup_app; [exact H | repeat constructor; intros [] |].
  intros i Hi [<-|[]]. exact (fresh_id_fresh _ Hi).
Qed.

Section FurtherDelivery.

Variable rt : Runtime.

(** X7.  A premium send never succeeds and never leaves a trace.  With
    both Mailchimp values present, [sendEmail] throws the [TypeError] of
    reading [send] from the missing [messages] member of the imported
    package; it does so before any request is issued, no free-tier
    transport is tried, the clock is not read and the usage collection is
    not touched.  With a value missing it throws the configuration error,
    so for a premium user every call throws and leaves the world as it
    found it. *)
Theorem premium_send_throws_type_error (env : Env) (usr : User.t)
        (m : Message) (w : World) :
  isPro usr = true ->
  (truthy (MAILCHIMP_API_KEY env) = true ->
   truthy (MAILCHIMP_SERVER_PREFIX env) = true ->
   sendEmail rt env usr m w = (Throw (TypeError "send"), w))
  /\ (exists e, sendEmail rt env usr m w = (Throw e, w)).
Proof.
  intros Hpro. rewrite (sendEmail_premium rt env usr m w Hpro). split.
  - intros -> ->. reflexivity.
  - destruct (negb _ || negb _); eexists; reflexivity.
Qed.

(** X8.  For a free-tier user, when the transport of the allocated domain
    rejects the mail, the failure is written to the console, [recordUsage] is
    not called (the usage collection stays as the allocator left it) and the
    call goes on with the fallback transports. *)
Theorem domain_failure_falls_back (env : Env) (usr : User.t) (m : Message)
        (w w1 : World) (d : DomainConfig) (e : exn) :
  isPro usr = false ->
  getNextAvailableDomain rt w = (Ok (Some d), w1) ->
  transporter_sendMail rt (List.length (requests w1)) (domainTransport d)
    (domainMail d m) = Throw e ->
  sendEmail rt env usr m w
  = fallbackTransports rt env m (after_failed_send d m e w1)
  /\ smtp_domain_usage (snd (sendEmail rt env usr m w)) = smtp_domain_usage w1.
Proof.
  intros Hfree Hd Hfail.
  assert (Hrun : sendEmail rt env usr m w
                 = fallbackTransports rt env m (after_failed_send d m e w1)).
  { rewrite (sendEmail_free rt env usr m w Hfree).
    unfold tryConfiguredDomain, try_catch, viaConfiguredDomain, bind.
    rewrite Hd. unfold sendMail, issue. rewrite Hfail. reflexivity. }
  split; [exact Hrun|]. rewrite Hrun.
  destruct (fallbackTransports_store rt env m (after_failed_send d m e w1))
    as (_ & Hu & _).
  exact Hu.
Qed.

(** X9.  For a free-tier user with an exhausted pool and no static SMTP
    fallback: when the three smtp.dev values are present the call is the
    outcome of one POST to the mailbox URL built from the account and
    mailbox identifiers; otherwise it throws the exhaustion error without
    issuing a request.  The usage collection is untouched either way. *)
Theorem exhausted_pool_last_resort (env : Env) (usr : User.t) (m : Message)
        (w : World) :
  isPro usr = false ->
  pool_exhausted rt w ->
  staticConfigured env = false ->
  let key := or_else (SMTPDEV_API_KEY env) EmptyString in
  let url := ("https://api.smtp.dev/accounts/"
              ++ or_else (SMTPDEV_ACCOUNT_ID env) EmptyString
              ++ "/mailboxes/"
              ++ or_else (SMTPDEV_MAILBOX_ID env) EmptyString
              ++ "/messages")%string in
  fst (sendEmail rt env usr m w)
  = (if smtpDevConfigured env
     then match axios_post rt (List.length (requests w)) url
                  (smtpDevBody env m) key with
          | Ok data => Ok (SmtpDevData data)
          | Throw e => Throw e
          end
     else Throw TransportExhausted)
  /\ requests (snd (sendEmail rt env usr m w))
     = (if smtpDevConfigured env
        then requests w ++ [ReqAxiosPost url (smtpDevBody env m) key]
        else requests w)
  /\ smtp_domain_usage (snd (sendEmail rt env usr m w)) = smtp_domain_usage w.
Proof.
  intros Hfree Hex Hstatic key url.
  rewrite (sendEmail_free rt env usr m w Hfree).
  rewrite (tryConfiguredDomain_none rt m w _
             (getNextAvailableDomain_exhausted rt w Hex)).
  unfold fallbackTransports. rewrite Hstatic.
  destruct (smtpDevConfigured env).
  - unfold bind, post, issue. cbn [requests].
    fold key. change (smtpDevMailbox env) with url.
    destruct (axios_post rt _ url _ key); simpl; auto.
  - simpl. auto.
Qed.

(** The run of [addDomain] in a reliable store. *)
Lemma addDomain_run (config : NewDomain.t) (w : World) :
  let doc :=
    Doc.mk (fresh_id (map Doc._id (smtp_domains w)))
      (NewDomain.host config) (NewDomain.port config)
      (NewDomain.secure config) (NewDomain.username config)
      (NewDomain.password config) (NewDomain.from config)
      (NewDomain.limit config)
      (match NewDomain.order config with
       | Some o => o
       | None => Z.of_nat (List.length (smtp_domains w))
       end)
      (toISOString rt (Date_now rt (clock_reads w))) in
  addDomain rt config w
  = (Ok (Some (toConfig doc)),
     mkWorld (smtp_domains w ++ [doc]) (smtp_domain_usage w)
       (S (clock_reads w)) (requests w) (console w)).
Proof.
  unfold addDomain, try_catch, bind.
  destruct (NewDomain.order config); reflexivity.
Qed.

(** X10.  [addDomain] always stores the new domain: it is appended to the
    collection under an identifier no stored domain carries, with the
    caller's fields and, when given, the caller's [order]; [getDomains]
    afterwards returns the earlier domains and the new one, each once;
    unique registry identifiers stay unique and the usage collection is not
    touched. *)
Theorem addDomain_extends_registry (config : NewDomain.t) (w : World) :
  exists doc,
    addDomain rt config w
    = (Ok (Some (toConfig doc)),
       mkWorld (smtp_domains w ++ [doc]) (smtp_domain_usage w)
         (S (clock_reads w)) (requests w) (console w))
    /\ ~ In (Doc._id doc) (map Doc._id (smtp_domains w))
    /\ (Doc.host doc, Doc.port doc, Doc.secure doc, Doc.username doc,
        Doc.password doc, Doc.from doc, Doc.limit doc)
       = (NewDomain.host config, NewDomain.port config,
          NewDomain.secure config, NewDomain.username config,
          NewDomain.password config, NewDomain.from config,
          NewDomain.limit config)
    /\ (forall o, NewDomain.order config = Some o -> Doc.order doc = o)
    /\ (exists before after,
          fst (getDomains w) = Ok before
          /\ fst (getDomains (snd (addDomain rt config w))) = Ok after
          /\ Permutation after (before ++ [toConfig doc]))
    /\ (NoDup (map Doc._id (smtp_domains w)) ->
        NoDup (map Doc._id (smtp_domains (snd (addDomain rt config w))))).
Proof.
  pose proof (addDomain_run config w) as Hrun. cbv zeta in Hrun.
  eexists. split; [exact Hrun|].
  split; [apply fresh_id_fresh|].
  split; [reflexivity|].
  split.
  { intros o Ho. simpl. now rewrite Ho. }
  split.
  { eexists _, _. split; [reflexivity|]. rewrite Hrun.
    split; [reflexivity|]. cbn [snd smtp_domains].
    rewrite (sort_by_order_perm (smtp_domains w ++ _)).
    rewrite map_app. apply Permutation_app_tail.
    apply Permutation_map. symmetry. apply sort_by_order_perm. }
  intros Hnd. rewrite Hrun. cbn [snd smtp_domains].
  rewrite map_app. simpl. now apply NoDup_snoc_fresh.
Qed.

(** The registry after a run of defaulted [addDomain] calls. *)
Lemma addDomains_defaulted (configs : list NewDomain.t) :
  forall w,
    Forall (fun c => NewDomain.order c = None) configs ->
    defaulted (smtp_domains w) ->
    exists added,
      smtp_domains (addDomains rt configs w) = smtp_domains w ++ added
      /\ defaulted (smtp_domains w ++ added)
      /\ map Doc.host added = map NewDomain.host configs
      /\ map Doc.limit added = map NewDomain.limit configs.
Proof.
  induction configs as [|c rest IH]; intros w Hall Hdef.
  - exists []. cbn [addDomains]. rewrite app_nil_r. auto.
  - inversion Hall as [|? ? Hc Hrest]; subst.
    pose proof (addDomain_run c w) as Hrun. cbv zeta in Hrun.
    rewrite Hc in Hrun. cbn [addDomains]. rewrite Hrun. cbn [snd].
    match type of Hrun with
    | _ = (_, mkWorld (_ ++ [?x]) _ _ _ _) => set (doc := x) in *
    end.
    assert (Hdef1 : defaulted (smtp_domains w ++ [doc]))
      by (apply defaulted_snoc; [exact Hdef | reflexivity]).
    destruct (IH (mkWorld (smtp_domains w ++ [doc]) (smtp_domain_usage w)
                    (S (clock_reads w)) (requests w) (console w))
                 Hrest Hdef1)
      as (added & Hadded & Hdef2 & Hhosts & Hlimits).
    cbn [smtp_domains] in Hadded, Hdef2.
    exists (doc :: added). rewrite Hadded, <- app_assoc. simpl.
    rewrite <- app_assoc in Hdef2. simpl in Hdef2.
    split; [reflexivity|]. split; [exact Hdef2|].
    now rewrite Hhosts, Hlimits.
Qed.

(** X11.  Starting from an empty registry, [addDomain] calls that all omit
    [order] number the domains 0, 1, 2, ... in call order, and [getDomains]
    then lists them in exactly that order. *)
Theorem addDomains_priority_is_call_order (configs : list NewDomain.t)
        (w : World) :
  smtp_domains w = [] ->
  Forall (fun c => NewDomain.order c = None) configs ->
  exists ds,
    fst (getDomains (addDomains rt configs w)) = Ok ds
    /\ map host ds = map NewDomain.host configs
    /\ map limit ds = map NewDomain.limit configs
    /\ map order ds = map Z.of_nat (seq 0 (List.length configs)).
Proof.
  intros Hempty Hall.
  destruct (addDomains_defaulted configs w Hall) as (added & Hadded & Hdef & Hh & Hl).
  { rewrite Hempty. intros [|i] d; discriminate. }
  rewrite Hempty in *. cbn [app] in *.
  exists (map toConfig added).
  unfold getDomains, bind, domains_find_sorted, ret. cbn [fst].
  rewrite Hadded, (sort_by_order_sorted_id _ (defaulted_sorted _ Hdef)).
  split; [reflexivity|].
  rewrite !map_map. cbn [toConfig host limit order].
  split; [exact Hh|]. split; [exact Hl|].
  assert (Hlen : List.length added = List.length configs).
  { rewrite <- (length_map Doc.host added), Hh. apply length_map. }
  rewrite <- Hlen. clear - Hdef.
  apply nth_error_ext. intros i.
  rewrite !nth_error_map, nth_error_seq.
  destruct (nth_error added i) as [d|] eqn:E.
  - assert (i < List.length added)%nat
      by (apply nth_error_Some; congruence).
    destruct (Nat.ltb_spec i (List.length added)); [|lia].
    simpl. now rewrite (Hdef i d E).
  - apply nth_error_None in E.
    destruct (Nat.ltb_spec i (List.length added)); [lia | reflexivity].
Qed.

End FurtherDelivery.

(** * The record services *)

(** ** Lookups, updates and deletions by unique identifier *)

Section ByKey.

Context {A : Type}.
Variable key : A -> ObjectId.

Lemma find_unique_key (q : A -> bool) (l : list A) (x : A) :
  NoDup (map key l) -> In x l ->
  find (fun n => Nat.eqb (key n) (key x) && q n) l
  = if q x then Some x else None.
Proof.
  induction l as [|y r IH]; simpl.
  - intros _ [].
  - intros Hnd Hin. inversion Hnd as [|? ? Hy Hr]; subst.
    destruct (Nat.eqb_spec (key y) (key x)) as [E|E].
    + assert (y = x) as ->.
      { destruct Hin as [E'|Hin]; [exact E'|].
        exfalso. apply Hy. rewrite E. now apply in_map. }
      simpl. destruct (q x) eqn:Hq; [reflexivity|].
      assert (Hnone : forall r', ~ In (key x) (map key r') ->
        find (fun n => Nat.eqb (key n) (key x) && q n) r' = None).
      { induction r' as [|z r' IHr]; simpl; [reflexivity|].
        intros Hz. destruct (Nat.eqb_spec (key z) (key x)) as [Ez|Ez].
        - exfalso. apply Hz. now left.
        - simpl. apply IHr. intros H. apply Hz. now right. }
      now apply Hnone.
    + simpl. destruct Hin as [E'|Hin]; [congruence|]. now apply IH.
Qed.

Lemma find_absent_key (q : A -> bool) (l : list A) (oid : ObjectId) :
  ~ In oid (map key l) ->
  find (fun n => Nat.eqb (key n) oid && q n) l = None.
Proof.
  induction l as [|y r IH]; simpl; [reflexivity|].
  intros H. destruct (Nat.eqb_spec (key y) oid) as [E|E].
  - exfalso. apply H. now left.
  - simpl. apply IH. intros Hin. apply H. now right.
Qed.

Lemma update_first_keys (p : A -> bool) (f : A -> A) (l : list A) :
  (forall y, key (f y) = key y) ->
  map key (update_first p f l) = map key l.
Proof.
  intros Hf. induction l as [|y r IH]; simpl; [reflexivity|].
  destruct (p y); simpl; [now rewrite Hf | now rewrite IH].
Qed.

Lemma update_first_length (p : A -> bool) (f : A -> A) (l : list A) :
  List.length (update_first p f l) = List.length l.
Proof.
  induction l as [|y r IH]; simpl; [reflexivity|].
  destruct (p y); simpl; [reflexivity | now rewrite IH].
Qed.

Lemma update_first_In (f : A -> A) (l : list A) (x : A) :
  NoDup (map key l) -> In x l ->
  In (f x) (update_first (fun n => Nat.eqb (key n) (key x)) f l).
Proof.
  induction l as [|y r IH]; simpl.
  - intros _ [].
  - intros Hnd Hin. inversion Hnd as [|? ? Hy Hr]; subst.
    destruct (Nat.eqb_spec (key y) (key x)) as [E|E].
    + assert (y = x) as ->.
      { destruct Hin as [E'|Hin]; [exact E'|].
        exfalso. apply Hy. rewrite E. now apply in_map. }
      now left.
    + right. destruct Hin as [E'|Hin]; [congruence|]. now apply IH.
Qed.

(** The documents with another identifier are where and what they
    were. *)
Lemma update_first_others (f : A -> A) (l : list A) (x : A) :
  NoDup (map key l) -> In x l -> key (f x) = key x ->
  filter (fun n => negb (Nat.eqb (key n) (key x)))
    (update_first (fun n => Nat.eqb (key n) (key x)) f l)
  = filter (fun n => negb (Nat.eqb (key n) (key x))) l
  /\ filter (fun n => Nat.eqb (key n) (key x))
       (update_first (fun n => Nat.eqb (key n) (key x)) f l)
     = [f x].
Proof.
  intros Hnd Hin Hk. induction l as [|y r IH]; simpl.
  - destruct Hin.
  - inversion Hnd as [|? ? Hy Hr]; subst.
    assert (Hrest : forall r', ~ In (key x) (map key r') ->
      filter (fun n => Nat.eqb (key n) (key x)) r' = []).
    { induction r' as [|z r' IHr]; simpl; [reflexivity|].
      intros Hz. destruct (Nat.eqb_spec (key z) (key x)) as [Ez|Ez].
      - exfalso. apply Hz. now left.
      - apply IHr. intros H. apply Hz. now right. }
    destruct (Nat.eqb_spec (key y) (key x)) as [E|E].
    + assert (y = x) as ->.
      { destruct Hin as [E'|Hin]; [exact E'|].
        exfalso. apply Hy. rewrite E. now apply in_map. }
      simpl. rewrite Hk, Nat.eqb_refl. simpl.
      split; [reflexivity|]. f_equal. now apply Hrest.
    + destruct Hin as [E'|Hin]; [congruence|].
      destruct (IH Hr Hin) as [IH1 IH2]. simpl.
      destruct (Nat.eqb_spec (key y) (key x)); [contradiction|]. simpl.
      split; [now rewrite IH1 | exact IH2].
Qed.

Lemma delete_first_no_match (p : A -> bool) (l : list A) :
  existsb p l = false -> delete_first p l = l.
Proof.
  induction l as [|y r IH]; simpl; [reflexivity|].
  destruct (p y); simpl; [discriminate|]. intros H. now rewrite IH.
Qed.

Lemma update_first_no_match (p : A -> bool) (f : A -> A) (l : list A) :
  existsb p l = false -> update_first p f l = l.
Proof.
  induction l as [|y r IH]; simpl; [reflexivity|].
  destruct (p y); simpl; [discriminate|]. intros H. now rewrite IH.
Qed.

Lemma find_no_match (p : A -> bool) (l : list A) :
  existsb p l = false -> find p l = None.
Proof.
  induction l as [|y r IH]; simpl; [reflexivity|].
  destruct (p y); simpl; [discriminate | exact IH].
Qed.

(** Deleting by a unique identifier removes that document and nothing
    else. *)
Lemma delete_first_unique_key (q : A -> bool) (l : list A) (x : A) :
  NoDup (map key l) -> In x l -> q x = true ->
  existsb (fun n => Nat.eqb (key n) (key x) && q n) l = true
  /\ delete_first (fun n => Nat.eqb (key n) (key x) && q n) l
     = filter (fun n => negb (Nat.eqb (key n) (key x))) l.
Proof.
  intros Hnd Hin Hq. induction l as [|y r IH]; simpl.
  - destruct Hin.
  - inversion Hnd as [|? ? Hy Hr]; subst.
    destruct (Nat.eqb_spec (key y) (key x)) as [E|E].
    + assert (y = x) as ->.
      { destruct Hin as [E'|Hin]; [exact E'|].
        exfalso. apply Hy. rewrite E. now apply in_map. }
      rewrite Hq. simpl. split; [reflexivity|].
      clear - Hy. induction r as [|z r IHr]; simpl; [reflexivity|].
      destruct (Nat.eqb_spec (key z) (key x)) as [Ez|Ez].
      * exfalso. apply Hy. rewrite <- Ez. now left.
      * simpl. f_equal. apply IHr. intros H. apply Hy. now right.
    + destruct Hin as [E'|Hin]; [congruence|].
      destruct (IH Hr Hin) as [IH1 IH2]. simpl.
      split; [exact IH1 | now rewrite IH2].
Qed.

End ByKey.

Lemma find_snoc {A : Type} (p : A -> bool) (l : list A) (x : A) :
  find p (l ++ [x])
  = match find p l with
    | Some y => Some y
    | None => if p x then Some x else None
    end.
Proof.
  induction l as [|y r IH]; simpl; [reflexivity|].
  now destruct (p y).
Qed.

Lemma filter_other_keys {A : Type} (key : A -> ObjectId) (oid : ObjectId)
      (l : list A) :
  ~ In oid (map key (filter (fun n => negb (Nat.eqb (key n) oid)) l)).
Proof.
  intros H. apply in_map_iff in H. destruct H as (x & Hx & Hin).
  apply filter_In in Hin. destruct Hin as [_ Hne].
  rewrite <- Hx, Nat.eqb_refl in Hne. discriminate.
Qed.

(** ** Newest first *)

Section NewestFirst.

Context {A : Type}.
Variable key : A -> string.

Lemma insert_newest_perm (x : A) (l : list A) :
  Permutation (insert_newest key x l) (x :: l).
Proof.
  induction l as [|y r IH]; simpl.
  - reflexivity.
  - destruct (String.leb (key y) (key x)).
    + reflexivity.
    + rewrite IH. apply perm_swap.
Qed.

Lemma newest_first_perm (l : list A) : Permutation (newest_first key l) l.
Proof.
  induction l as [|x r IH]; simpl.
  - constructor.
  - rewrite insert_newest_perm. now constructor.
Qed.

Lemma insert_newest_sorted (x : A) (l : list A) :
  Sorted (not_older key) l -> Sorted (not_older key) (insert_newest key x l).
Proof.
  induction 1 as [|y r Hr IH Hy]; simpl.
  - repeat constructor.
  - destruct (String.leb (key y) (key x)) eqn:E.
    + constructor; [constructor; assumption|]. constructor. exact E.
    + assert (Hxy : not_older key y x).
      { unfold not_older. destruct (String.leb_total (key x) (key y)) as [H|H];
          [exact H | congruence]. }
      constructor; [exact IH|].
      destruct r as [|z r']; simpl.
      * constructor. exact Hxy.
      * destruct (String.leb (key z) (key x)).
        -- constructor. exact Hxy.
        -- inversion Hy; subst. now constructor.
Qed.

Lemma newest_first_sorted (l : list A) : Sorted (not_older key) (newest_first key l).
Proof.
  induction l as [|x r IH]; simpl.
  - constructor.
  - now apply insert_newest_sorted.
Qed.

End NewestFirst.

Lemma with_notes_same (s : Store) : with_notes (secure_notes s) s = s.
Proof. now destruct s. Qed.

Lemma with_files_same (s : Store) : with_files (secure_files s) s = s.
Proof. now destruct s. Qed.

Lemma with_emails_same (s : Store) : with_emails (ephemeral_emails s) s = s.
Proof. now destruct s. Qed.

Section NoteClaims.

Variable rt : Runtime.
Variable pf : Platform.

(** X12.  Reading an unread note marked auto-delete-after-read returns the
    note as it was stored (still unread) and persists [has_been_read]; the
    note is not removed: the collection keeps its size, and a second read
    returns the note, now read, and changes nothing. *)
Theorem getNote_marks_read_and_keeps (s : Store) (noteId : string)
        (note : Note.doc) :
  NoDup (map Note._id (secure_notes s)) ->
  In note (secure_notes s) ->
  new_ObjectId pf noteId = Some (Note._id note) ->
  Note.auto_delete_after_read note = true ->
  Note.has_been_read note = false ->
  let seen :=
    Note.mk (Note._id note) (Note.user_id note) (Note.title note)
      (Note.encrypted_content note) true true (Note.expires_at note)
      (Note.created_at note) in
  let s1 := snd (getNote pf noteId (Note.user_id note) s) in
  fst (getNote pf noteId (Note.user_id note) s) = Some note
  /\ In seen (secure_notes s1)
  /\ List.length (secure_notes s1) = List.length (secure_notes s)
  /\ getNote pf noteId (Note.user_id note) s1 = (Some seen, s1).
Proof.
  intros Hnd Hin Hparse Hauto Hunread seen s1.
  assert (Hrun : getNote pf noteId (Note.user_id note) s
    = (Some note,
       with_notes
         (update_first (fun n => Nat.eqb (Note._id n) (Note._id note))
            (fun n =>
               Note.mk (Note._id n) (Note.user_id n) (Note.title n)
                 (Note.encrypted_content n) (Note.auto_delete_after_read n)
                 true (Note.expires_at n) (Note.created_at n))
            (secure_notes s))
         s)).
  { unfold getNote. rewrite Hparse.
    rewrite (find_unique_key Note._id
               (fun n => String.eqb (Note.user_id n) (Note.user_id note))
               _ note Hnd Hin).
    rewrite String.eqb_refl, Hauto, Hunread. reflexivity. }
  assert (Hseen : In seen (secure_notes s1)).
  { unfold s1. rewrite Hrun. cbn [snd with_notes secure_notes].
    pose proof (update_first_In Note._id
      (fun n =>
         Note.mk (Note._id n) (Note.user_id n) (Note.title n)
           (Note.encrypted_content n) (Note.auto_delete_after_read n)
           true (Note.expires_at n) (Note.created_at n))
      _ note Hnd Hin) as H.
    cbn beta in H. rewrite Hauto in H. exact H. }
  assert (Hnd1 : NoDup (map Note._id (secure_notes s1))).
  { unfold s1. rewrite Hrun. cbn [snd with_notes secure_notes].
    rewrite update_first_keys; [exact Hnd | reflexivity]. }
  split; [now rewrite Hrun|]. split; [exact Hseen|].
  split.
  { unfold s1. rewrite Hrun. cbn [snd with_notes secure_notes].
    apply update_first_length. }
  unfold getNote. rewrite Hparse.
  change (Note._id note) with (Note._id seen).
  change (Note.user_id note) with (Note.user_id seen).
  rewrite (find_unique_key Note._id
             (fun n => String.eqb (Note.user_id n) (Note.user_id seen))
             _ seen Hnd1 Hseen).
  rewrite String.eqb_refl. reflexivity.
Qed.

(** X13.  A note is reachable only with its owner's identifier: when no
    stored note has both the requested identifier and the requesting user,
    [getNote] returns [null], [deleteNote] returns [false], and neither
    changes the notes. *)
Theorem note_access_is_owner_only (s : Store) (noteId userId : string) :
  (forall n, In n (secure_notes s) ->
     new_ObjectId pf noteId = Some (Note._id n) ->
     Note.user_id n <> userId) ->
  fst (getNote pf noteId userId s) = None
  /\ fst (deleteNote pf noteId userId s) = false
  /\ secure_notes (snd (getNote pf noteId userId s)) = secure_notes s
  /\ secure_notes (snd (deleteNote pf noteId userId s)) = secure_notes s.
Proof.
  intros Hown. unfold getNote, deleteNote.
  destruct (new_ObjectId pf noteId) as [oid|]; [|simpl; auto].
  assert (Hno : existsb (fun n => Nat.eqb (Note._id n) oid
                                  && String.eqb (Note.user_id n) userId)
                  (secure_notes s) = false).
  { apply not_true_is_false. intros H. apply existsb_exists in H.
    destruct H as (n & Hn & Hp).
    apply andb_true_iff in Hp. destruct Hp as [Hi Hu].
    apply Nat.eqb_eq in Hi. apply String.eqb_eq in Hu.
    apply (Hown n Hn); congruence. }
  rewrite (find_no_match _ _ Hno), (delete_first_no_match _ _ Hno), Hno.
  simpl. auto.
Qed.

(** X14.  [deleteNote] by the owner removes that note and no other: it
    returns [true], the other notes stay in their order, and the note can no
    longer be read. *)
Theorem deleteNote_removes_exactly_that_note (s : Store) (noteId : string)
        (note : Note.doc) :
  NoDup (map Note._id (secure_notes s)) ->
  In note (secure_notes s) ->
  new_ObjectId pf noteId = Some (Note._id note) ->
  let s1 := snd (deleteNote pf noteId (Note.user_id note) s) in
  fst (deleteNote pf noteId (Note.user_id note) s) = true
  /\ secure_notes s1
     = filter (fun n => negb (Nat.eqb (Note._id n) (Note._id note)))
         (secure_notes s)
  /\ getNote pf noteId (Note.user_id note) s1 = (None, s1).
Proof.
  intros Hnd Hin Hparse s1.
  destruct (delete_first_unique_key Note._id
              (fun n => String.eqb (Note.user_id n) (Note.user_id note))
              _ note Hnd Hin (String.eqb_refl _)) as [Hex Hdel].
  assert (Hrun : deleteNote pf noteId (Note.user_id note) s
    = (true,
       with_notes
         (filter (fun n => negb (Nat.eqb (Note._id n) (Note._id note)))
            (secure_notes s)) s)).
  { unfold deleteNote. rewrite Hparse, Hex, Hdel. reflexivity. }
  unfold s1. rewrite Hrun. cbn [fst snd with_notes secure_notes].
  split; [reflexivity|]. split; [reflexivity|].
  unfold getNote. rewrite Hparse. cbn [secure_notes].
  rewrite find_absent_key; [reflexivity | apply filter_other_keys].
Qed.

(** X15.  A note just created can be read back by its owner under the
    identifier it was given, unread and with the fields supplied, and by
    nobody else; the identifier is new to the collection. *)
Theorem createNote_then_getNote (s : Store) (userId title content : string)
        (auto : bool) (expiresAt : option string) (noteId : string) :
  exists note,
    fst (createNote rt userId title content auto expiresAt s) = Some note
    /\ (Note.user_id note, Note.title note, Note.encrypted_content note,
        Note.auto_delete_after_read note, Note.has_been_read note,
        Note.expires_at note)
       = (userId, title, content, auto, false, expiresAt)
    /\ ~ In (Note._id note) (map Note._id (secure_notes s))
    /\ (new_ObjectId pf noteId = Some (Note._id note) ->
        fst (getNote pf noteId userId
               (snd (createNote rt userId title content auto expiresAt s)))
        = Some note
        /\ forall other, other <> userId ->
             fst (getNote pf noteId other
                    (snd (createNote rt userId title content auto expiresAt s)))
             = None).
Proof.
  eexists. split; [reflexivity|]. split; [reflexivity|].
  split; [apply fresh_id_fresh|].
  cbn [Note._id]. intros Hparse. unfold getNote. rewrite Hparse.
  cbn [createNote snd consulted with_notes secure_notes].
  split.
  - rewrite find_snoc, find_absent_key by apply fresh_id_fresh.
    cbn [Note._id Note.user_id Note.auto_delete_after_read
         Note.has_been_read].
    rewrite Nat.eqb_refl, String.eqb_refl. cbn [andb].
    destruct auto; reflexivity.
  - intros other Hne.
    rewrite find_snoc, find_absent_key by apply fresh_id_fresh.
    cbn [Note._id Note.user_id].
    destruct (String.eqb_spec userId other) as [E|E]; [congruence|].
    rewrite andb_false_r. reflexivity.
Qed.

End NoteClaims.

Section ByOwnedKey.

Context {A : Type}.
Variable key : A -> ObjectId.

Lemma update_first_owned (q : A -> bool) (f : A -> A) (l : list A) (x : A) :
  NoDup (map key l) -> In x l -> q x = true ->
  update_first (fun n => Nat.eqb (key n) (key x) && q n) f l
  = update_first (fun n => Nat.eqb (key n) (key x)) f l.
Proof.
  intros Hnd Hin Hq. induction l as [|y r IH]; simpl; [reflexivity|].
  inversion Hnd as [|? ? Hy Hr]; subst.
  destruct (Nat.eqb_spec (key y) (key x)) as [E|E].
  - assert (y = x) as ->.
    { destruct Hin as [E'|Hin]; [exact E'|].
      exfalso. apply Hy. rewrite E. now apply in_map. }
    now rewrite Hq.
  - simpl. destruct Hin as [E'|Hin]; [congruence|]. now rewrite IH.
Qed.

Lemma update_first_fixed (p : A -> bool) (f : A -> A) (l : list A) :
  (forall y, In y l -> p y = true -> f y = y) ->
  update_first p f l = l.
Proof.
  induction l as [|y r IH]; simpl; [reflexivity|].
  intros H. destruct (p y) eqn:E.
  - rewrite (H y (or_introl eq_refl) E). reflexivity.
  - rewrite IH; [reflexivity|]. intros z Hz. apply H. now right.
Qed.

Lemma unique_key_eq (l : list A) (x y : A) :
  NoDup (map key l) -> In x l -> In y l -> key y = key x -> y = x.
Proof.
  induction l as [|z r IH]; simpl.
  - intros _ [].
  - intros Hnd Hx Hy E. inversion Hnd as [|? ? Hz Hr]; subst.
    destruct Hx as [->|Hx], Hy as [->|Hy].
    + reflexivity.
    + exfalso. apply Hz. rewrite <- E. now apply in_map.
    + exfalso. apply Hz. rewrite E. now apply in_map.
    + now apply IH.
Qed.

End ByOwnedKey.

Lemma find_unique_id {A : Type} (key : A -> ObjectId) (l : list A) (x : A) :
  NoDup (map key l) -> In x l ->
  find (fun n => Nat.eqb (key n) (key x)) l = Some x.
Proof.
  induction l as [|y r IH]; simpl.
  - intros _ [].
  - intros Hnd Hin. inversion Hnd as [|? ? Hy Hr]; subst.
    destruct (Nat.eqb_spec (key y) (key x)) as [E|E].
    + destruct Hin as [->|Hin]; [reflexivity|].
      exfalso. apply Hy. rewrite E. now apply in_map.
    + destruct Hin as [E'|Hin]; [congruence|]. now apply IH.
Qed.

Lemma find_absent_id {A : Type} (key : A -> ObjectId) (l : list A)
      (oid : ObjectId) :
  ~ In oid (map key l) -> find (fun n => Nat.eqb (key n) oid) l = None.
Proof.
  induction l as [|y r IH]; simpl; [reflexivity|].
  intros H. destruct (Nat.eqb_spec (key y) oid) as [E|E].
  - exfalso. apply H. now left.
  - apply IH. intros Hin. apply H. now right.
Qed.

Section FileClaims.

Variable rt : Runtime.
Variable pf : Platform.

(** X16.  [getFile] hands out a stored file exactly when the file is not
    password protected, or a non-empty password was supplied, a hash is
    stored and bcrypt accepts the pair.  Expiry, download count and download
    limit play no part, and the store is left as it was. *)
Theorem getFile_password_gate (s : Store) (fileId : string)
        (password : option string) (file : File.doc) :
  NoDup (map File._id (secure_files s)) ->
  In file (secure_files s) ->
  new_ObjectId pf fileId = Some (File._id file) ->
  getFile pf fileId password s
  = (if negb (File.password_protected file)
        || (truthy password && truthy (File.password_hash file)
            && bcrypt_compare pf (or_else password EmptyString)
                 (or_else (File.password_hash file) EmptyString))
     then Some file else None,
     s).
Proof.
  intros Hnd Hin Hparse. unfold getFile. rewrite Hparse.
  rewrite (find_unique_id File._id _ file Hnd Hin).
  destruct (File.password_protected file); [|reflexivity].
  destruct (truthy password), (truthy (File.password_hash file)); simpl;
    try reflexivity.
  now destruct (bcrypt_compare pf _ _).
Qed.

(** X17.  [incrementDownloadCount] on a stored file whose
    [download_count] is below 2^53 (and not below -2^53) returns [true] and
    adds exactly one to the persisted count, also when the count has
    reached [max_downloads]; at 2^53 the sum rounds back to the count, the
    update modifies nothing and the call returns [false].  In both cases
    the file's other fields and the other files are left as they were. *)
Theorem incrementDownloadCount_adds_one (s : Store) (fileId : string)
        (file : File.doc) :
  NoDup (map File._id (secure_files s)) ->
  In file (secure_files s) ->
  new_ObjectId pf fileId = Some (File._id file) ->
  - max_safe <= File.download_count file <= max_safe ->
  let counted :=
    if File.download_count file <? max_safe
    then File.download_count file + 1
    else File.download_count file in
  let bumped :=
    File.mk (File._id file) (File.user_id file) (File.filename file)
      (File.encrypted_file_url file) (File.file_size file)
      (File.password_protected file) (File.password_hash file)
      (File.expires_at file) (File.max_downloads file)
      (File.watermark_enabled file) counted (File.created_at file) in
  let s1 := snd (incrementDownloadCount pf fileId s) in
  fst (incrementDownloadCount pf fileId s)
  = (File.download_count file <? max_safe)
  /\ filter (fun f => Nat.eqb (File._id f) (File._id file)) (secure_files s1)
     = [bumped]
  /\ filter (fun f => negb (Nat.eqb (File._id f) (File._id file)))
       (secure_files s1)
     = filter (fun f => negb (Nat.eqb (File._id f) (File._id file)))
         (secure_files s)
  /\ List.length (secure_files s1) = List.length (secure_files s)
  /\ (secure_notes s1, ephemeral_emails s1)
     = (secure_notes s, ephemeral_emails s).
Proof.
  intros Hnd Hin Hparse Hsafe counted bumped s1.
  assert (Hcounted : plus_one (File.download_count file) = counted).
  { unfold counted. destruct (Z.ltb_spec (File.download_count file) max_safe).
    - apply plus_one_exact. lia.
    - apply plus_one_stuck. lia. }
  unfold s1, incrementDownloadCount.
  rewrite Hparse, (find_unique_id File._id _ file Hnd Hin).
  cbn [fst snd with_files secure_files secure_notes ephemeral_emails].
  rewrite Hcounted.
  destruct (update_first_others File._id
    (fun f =>
       File.mk (File._id f) (File.user_id f) (File.filename f)
         (File.encrypted_file_url f) (File.file_size f)
         (File.password_protected f) (File.password_hash f)
         (File.expires_at f) (File.max_downloads f)
         (File.watermark_enabled f) counted (File.created_at f))
    _ file Hnd Hin eq_refl) as [Hothers Hthis].
  split.
  { unfold counted. destruct (Z.ltb_spec (File.download_count file) max_safe).
    - apply negb_true_iff, Z.eqb_neq. lia.
    - apply negb_false_iff, Z.eqb_eq. reflexivity. }
  split; [exact Hthis|]. split; [exact Hothers|].
  split; [apply update_first_length | reflexivity].
Qed.

(** What [getFile] answers for the file [createFile] has just stored. *)
Lemma getFile_after_createFile (s : Store) (userId filename url : string)
      (size : Z) (protected : bool) (password expiresAt : option string)
      (maxDownloads : option Z) (watermark : option bool)
      (fileId : string) (given : option string) :
  let made := createFile rt pf userId filename url size protected password
                expiresAt maxDownloads watermark s in
  exists file,
    fst made = Some file
    /\ ~ In (File._id file) (map File._id (secure_files s))
    /\ File.password_protected file = protected
    /\ File.password_hash file
       = (if protected && truthy password
          then Some (bcrypt_hash pf (oracle_calls s)
                       (or_else password EmptyString) 10)
          else None)
    /\ File.download_count file = 0
    /\ (new_ObjectId pf fileId = Some (File._id file) ->
        fst (getFile pf fileId given (snd made))
        = if negb protected
             || (truthy given && truthy (File.password_hash file)
                 && bcrypt_compare pf (or_else given EmptyString)
                      (or_else (File.password_hash file) EmptyString))
          then Some file else None).
Proof.
  intros made. eexists. split; [reflexivity|].
  split; [apply fresh_id_fresh|]. split; [reflexivity|].
  split; [reflexivity|]. split; [reflexivity|].
  cbn [File._id File.password_hash]. intros Hparse.
  unfold getFile. rewrite Hparse. unfold made, createFile.
  cbn [snd consulted with_files secure_files].
  rewrite find_snoc, find_absent_id by apply fresh_id_fresh.
  cbv beta. cbn [File._id]. rewrite Nat.eqb_refl.
  cbn [File.password_protected File.password_hash].
  destruct protected; [|reflexivity]. cbn [negb orb andb].
  destruct (truthy given); cbn [negb orb andb fst]; [|reflexivity].
  destruct (truthy (if truthy password then _ else None));
    cbn [negb orb andb fst]; [|reflexivity].
  now destruct (bcrypt_compare pf _ _).
Qed.

(** X18.  A password-protected file created with a non-empty password is
    returned by [getFile] for exactly the passwords bcrypt accepts against
    the stored hash: the creating password when bcrypt accepts its own hash,
    and no empty or absent password.  An unprotected file is returned
    whatever password is given. *)
Theorem createFile_then_getFile (s : Store) (userId filename url : string)
        (size : Z) (protected : bool) (password expiresAt : option string)
        (maxDownloads : option Z) (watermark : option bool)
        (fileId : string) :
  let made := createFile rt pf userId filename url size protected password
                expiresAt maxDownloads watermark s in
  let hash := bcrypt_hash pf (oracle_calls s) (or_else password EmptyString)
                10 in
  exists file,
    fst made = Some file
    /\ (new_ObjectId pf fileId = Some (File._id file) ->
        (protected = false ->
         forall given, fst (getFile pf fileId given (snd made)) = Some file)
        /\ (protected = true -> truthy password = true ->
            truthy (Some hash) = true ->
            (forall given,
               fst (getFile pf fileId given (snd made))
               = if truthy given
                    && bcrypt_compare pf (or_else given EmptyString) hash
                 then Some file else None)
            /\ (bcrypt_compare pf (or_else password EmptyString) hash = true ->
                fst (getFile pf fileId password (snd made)) = Some file))).
Proof.
  intros made hash.
  destruct (getFile_after_createFile s userId filename url size protected
              password expiresAt maxDownloads watermark fileId None)
    as (file & Hmade & _ & _ & Hhash & _ & _).
  exists file. split; [exact Hmade|].
  intros Hparse.
  assert (Hget : forall given,
    fst (getFile pf fileId given (snd made))
    = if negb protected
         || (truthy given && truthy (File.password_hash file)
             && bcrypt_compare pf (or_else given EmptyString)
                  (or_else (File.password_hash file) EmptyString))
      then Some file else None).
  { intros given.
    destruct (getFile_after_createFile s userId filename url size protected
                password expiresAt maxDownloads watermark fileId given)
      as (file' & Hmade' & _ & _ & _ & _ & Hg).
    fold made in Hmade, Hmade'. rewrite Hmade in Hmade'.
    injection Hmade' as <-. exact (Hg Hparse). }
  split.
  - intros -> given. now rewrite Hget.
  - intros -> Hpw Hh. rewrite Hpw in Hhash. cbn [andb] in Hhash.
    fold hash in Hhash.
    assert (Hor : or_else (Some hash) EmptyString = hash).
    { simpl in Hh. destruct hash; [discriminate | reflexivity]. }
    split.
    + intros given. rewrite Hget, Hhash, Hh, Hor. cbn [negb orb].
      now rewrite andb_true_r.
    + intros Hok. rewrite Hget, Hhash, Hh, Hor, Hpw, Hok. reflexivity.
Qed.

(** X19.  A file created as password protected without a password (absent
    or empty) is stored without a hash and can never be fetched: [getFile]
    returns [null] for it whatever password is given. *)
Theorem protected_file_without_password_is_unreachable
        (s : Store) (userId filename url : string) (size : Z)
        (password expiresAt : option string) (maxDownloads : option Z)
        (watermark : option bool) (fileId : string) (given : option string) :
  truthy password = false ->
  let made := createFile rt pf userId filename url size true password
                expiresAt maxDownloads watermark s in
  exists file,
    fst made = Some file
    /\ File.password_protected file = true
    /\ File.password_hash file = None
    /\ (new_ObjectId pf fileId = Some (File._id file) ->
        fst (getFile pf fileId given (snd made)) = None).
Proof.
  intros Hpw made.
  destruct (getFile_after_createFile s userId filename url size true
              password expiresAt maxDownloads watermark fileId given)
    as (file & Hmade & _ & Hprot & Hhash & _ & Hget).
  rewrite Hpw in Hhash. cbn [andb] in Hhash.
  exists file. split; [exact Hmade|]. split; [exact Hprot|].
  split; [exact Hhash|].
  intros Hparse. pose proof (Hget Hparse) as H.
  rewrite Hhash in H. cbn [negb orb truthy] in H.
  rewrite andb_false_r in H. exact H.
Qed.

(** X29.  [deleteFile] deletes a stored file only for its owner: called
    with the owner's identifier it returns [true] and removes that file and
    no other; called with any other user identifier it returns [false] and
    leaves the files as they were. *)
Theorem deleteFile_owner_only (s : Store) (fileId userId : string)
        (file : File.doc) :
  NoDup (map File._id (secure_files s)) ->
  In file (secure_files s) ->
  new_ObjectId pf fileId = Some (File._id file) ->
  deleteFile pf fileId userId s
  = (String.eqb (File.user_id file) userId,
     with_files
       (if String.eqb (File.user_id file) userId
        then filter (fun f => negb (Nat.eqb (File._id f) (File._id file)))
               (secure_files s)
        else secure_files s)
       s).
Proof.
  intros Hnd Hin Hparse. unfold deleteFile. rewrite Hparse.
  destruct (String.eqb (File.user_id file) userId) eqn:Hown.
  - destruct (delete_first_unique_key File._id
                (fun f => String.eqb (File.user_id f) userId)
                _ file Hnd Hin Hown) as [Hex Hdel].
    now rewrite Hex, Hdel.
  - assert (Hno : existsb (fun f => Nat.eqb (File._id f) (File._id file)
                                    && String.eqb (File.user_id f) userId)
                    (secure_files s) = false).
    { apply not_true_is_false. intros H. apply existsb_exists in H.
      destruct H as (f & Hf & Hp).
      apply andb_true_iff in Hp. destruct Hp as [Hi Hu].
      apply Nat.eqb_eq in Hi.
      rewrite (unique_key_eq File._id _ file f Hnd Hin Hf Hi) in Hu.
      congruence. }
    now rewrite Hno, (delete_first_no_match _ _ Hno).
Qed.

End FileClaims.


Section EmailClaims.

Variable rt : Runtime.
Variable pf : Platform.

(** X20.  Deactivating an active address by its owner returns [true] and
    persists [is_active = false]: the address is no longer listed for the
    user, no document is removed, and repeating the call returns [false] and
    changes nothing. *)
Theorem deactivateEmail_once (s : Store) (emailId : string) (e : Email.doc) :
  NoDup (map Email._id (ephemeral_emails s)) ->
  In e (ephemeral_emails s) ->
  new_ObjectId pf emailId = Some (Email._id e) ->
  Email.is_active e = true ->
  let s1 := snd (deactivateEmail pf emailId (Email.user_id e) s) in
  fst (deactivateEmail pf emailId (Email.user_id e) s) = true
  /\ In (deactivated e) (ephemeral_emails s1)
  /\ map Email._id (ephemeral_emails s1) = map Email._id (ephemeral_emails s)
  /\ ~ In (Email._id e)
         (map Email._id (fst (getUserEmails (Email.user_id e) s1)))
  /\ deactivateEmail pf emailId (Email.user_id e) s1 = (false, s1).
Proof.
  intros Hnd Hin Hparse Hactive s1.
  assert (Hrun : deactivateEmail pf emailId (Email.user_id e) s
    = (true,
       with_emails
         (update_first (fun n => Nat.eqb (Email._id n) (Email._id e))
            deactivated (ephemeral_emails s)) s)).
  { unfold deactivateEmail. rewrite Hparse.
    rewrite (find_unique_key Email._id
               (fun n => String.eqb (Email.user_id n) (Email.user_id e))
               _ e Hnd Hin).
    rewrite (update_first_owned Email._id
               (fun n => String.eqb (Email.user_id n) (Email.user_id e))
               deactivated _ e Hnd Hin (String.eqb_refl _)).
    now rewrite String.eqb_refl, Hactive. }
  assert (Hin1 : In (deactivated e) (ephemeral_emails s1)).
  { unfold s1. rewrite Hrun. cbn [snd with_emails ephemeral_emails].
    exact (update_first_In Email._id deactivated _ e Hnd Hin). }
  assert (Hids : map Email._id (ephemeral_emails s1)
                 = map Email._id (ephemeral_emails s)).
  { unfold s1. rewrite Hrun. cbn [snd with_emails ephemeral_emails].
    apply update_first_keys. reflexivity. }
  assert (Hnd1 : NoDup (map Email._id (ephemeral_emails s1)))
    by now rewrite Hids.
  split; [now rewrite Hrun|]. split; [exact Hin1|]. split; [exact Hids|].
  split.
  - intros H. apply in_map_iff in H. destruct H as (y & Hy & Hlisted).
    unfold getUserEmails in Hlisted. cbn [fst] in Hlisted.
    apply (Permutation_in _ (newest_first_perm _ _)) in Hlisted.
    apply filter_In in Hlisted. destruct Hlisted as [Hy1 Hp].
    apply andb_true_iff in Hp. destruct Hp as [_ Hact].
    assert (y = deactivated e)
      by exact (unique_key_eq Email._id _ (deactivated e) y Hnd1 Hin1 Hy1 Hy).
    subst y. discriminate.
  - unfold deactivateEmail. rewrite Hparse.
    change (Email._id e) with (Email._id (deactivated e)).
    change (Email.user_id e) with (Email.user_id (deactivated e)).
    rewrite (find_unique_key Email._id
               (fun n => String.eqb (Email.user_id n)
                           (Email.user_id (deactivated e)))
               _ (deactivated e) Hnd1 Hin1).
    rewrite String.eqb_refl. cbn [Email.is_active deactivated].
    rewrite update_first_fixed; [now rewrite with_emails_same|].
    intros y Hy Hp. apply andb_true_iff in Hp. destruct Hp as [Hi _].
    apply Nat.eqb_eq in Hi.
    rewrite (unique_key_eq Email._id _ (deactivated e) y Hnd1 Hin1 Hy Hi).
    reflexivity.
Qed.

(** X21.  The listing methods return exactly the requesting user's
    documents (for addresses: the active ones), each once, newest
    [created_at] first, and leave the store as it was. *)
Theorem user_listings_exact_newest_first (s : Store) (userId : string) :
  (Permutation (fst (getUserEmails userId s))
     (filter (fun e => String.eqb (Email.user_id e) userId && Email.is_active e)
        (ephemeral_emails s))
   /\ Sorted (not_older Email.created_at) (fst (getUserEmails userId s))
   /\ snd (getUserEmails userId s) = s)
  /\ (Permutation (fst (getUserNotes userId s))
        (filter (fun n => String.eqb (Note.user_id n) userId) (secure_notes s))
      /\ Sorted (not_older Note.created_at) (fst (getUserNotes userId s))
      /\ snd (getUserNotes userId s) = s)
  /\ (Permutation (fst (getUserFiles userId s))
        (filter (fun f => String.eqb (File.user_id f) userId) (secure_files s))
      /\ Sorted (not_older File.created_at) (fst (getUserFiles userId s))
      /\ snd (getUserFiles userId s) = s).
Proof.
  unfold getUserEmails, getUserNotes, getUserFiles. cbn [fst snd].
  repeat split;
    first [apply newest_first_perm | apply newest_first_sorted].
Qed.

(** X22.  Despite its name [deleteExpiredEmails] removes nothing: every
    address keeps its place and identifier; an address whose [expires_at] is
    below the current ISO time string is inactive afterwards, and every
    other address is exactly as before.  Notes and files are not
    touched. *)
Theorem deleteExpiredEmails_only_deactivates (s : Store) :
  let now := toISOString rt (Date_now rt (oracle_calls s)) in
  let s1 := snd (deleteExpiredEmails rt s) in
  map Email._id (ephemeral_emails s1) = map Email._id (ephemeral_emails s)
  /\ map Email.email_address (ephemeral_emails s1)
     = map Email.email_address (ephemeral_emails s)
  /\ Forall2 (fun before after =>
                after = if String.ltb (Email.expires_at before) now
                        then deactivated before else before)
       (ephemeral_emails s) (ephemeral_emails s1)
  /\ Forall (fun after =>
               String.ltb (Email.expires_at after) now = true ->
               Email.is_active after = false)
       (ephemeral_emails s1)
  /\ (secure_notes s1, secure_files s1) = (secure_notes s, secure_files s).
Proof.
  intros now s1. unfold s1, deleteExpiredEmails. fold now.
  cbn [snd consulted with_emails ephemeral_emails secure_notes secure_files].
  split.
  { rewrite map_map. apply map_ext. intros e.
    now destruct (String.ltb (Email.expires_at e) now). }
  split.
  { rewrite map_map. apply map_ext. intros e.
    now destruct (String.ltb (Email.expires_at e) now). }
  split.
  { induction (ephemeral_emails s) as [|e r IH]; simpl; constructor; auto. }
  split; [|reflexivity].
  apply Forall_forall. intros e' He'. apply in_map_iff in He'.
  destruct He' as (e & <- & _).
  destruct (String.ltb (Email.expires_at e) now) eqn:E; simpl.
  - reflexivity.
  - rewrite E. discriminate.
Qed.

(** X23.  A freshly created ephemeral address is active, expires 24 hours
    after the clock read it was created at, carries the fixed domain and is
    listed for its user straight away; earlier addresses are not
    touched. *)
Theorem createEphemeralEmail_listed (s : Store) (userId : string)
        (aliasName : option string) :
  let made := createEphemeralEmail rt pf userId aliasName s in
  exists e,
    fst made = Some e
    /\ Email.user_id e = userId
    /\ Email.is_active e = true
    /\ Email.email_address e
       = (random_local_part pf (oracle_calls s)
          ++ "@ephemeral.cocoinbox.app")%string
    /\ Email.expires_at e
       = toISOString rt (Date_now rt (S (oracle_calls s)) + 86400000)
    /\ ~ In (Email._id e) (map Email._id (ephemeral_emails s))
    /\ ephemeral_emails (snd made) = ephemeral_emails s ++ [e]
    /\ In e (fst (getUserEmails userId (snd made))).
Proof.
  intros made. eexists.
  split; [reflexivity|]. split; [reflexivity|]. split; [reflexivity|].
  split; [reflexivity|]. split; [reflexivity|].
  split; [apply fresh_id_fresh|]. split; [reflexivity|].
  unfold getUserEmails. cbn [fst].
  apply (Permutation_in _ (Permutation_sym (newest_first_perm _ _))).
  apply filter_In. split.
  - unfold made, createEphemeralEmail.
    cbn [snd consulted with_emails ephemeral_emails].
    apply in_or_app. right. now left.
  - cbn [Email.user_id Email.is_active]. now rewrite String.eqb_refl.
Qed.

End EmailClaims.

(** * The authentication middleware *)

Lemma truthy_Some (v : option string) :
  truthy v = true -> v = Some (or_else v EmptyString).
Proof.
  destruct v as [[|c r]|]; simpl; (discriminate || reflexivity).
Qed.

Section AuthClaims.

Variable cr : Auth.Crypto.
Variable JWT_SECRET : option string.

Lemma checkPayload_accepts (payloadEncoded : string)
      (users : list Auth.user_doc) (now : Z) :
  In Auth.Next (Auth.events (Auth.checkPayload cr payloadEncoded users now)) ->
  exists c oid user,
    Auth.decode_payload cr
      (Auth.replace_all "_"%char "/"%char
         (Auth.replace_all "-"%char "+"%char payloadEncoded))
    = Auth.Object c
    /\ truthy (Auth.userId c) = true
    /\ (forall e, Auth.exp c = Some e -> e = 0 \/ now / 1000 <= e)
    /\ Auth.parse_id cr (or_else (Auth.userId c) EmptyString) = Some oid
    /\ find (fun u => Nat.eqb (Auth._id u) oid) users = Some user
    /\ Auth.checkPayload cr payloadEncoded users now
       = Auth.mkOutcome [Auth.Next; Auth.Next]
           (Some (Auth.mkPrincipal (Auth._id user) (Auth.email user))) [].
Proof.
  unfold Auth.checkPayload, Auth.reject.
  destruct (Auth.decode_payload cr _) as [| |c];
    try (simpl; intros [H|[]]; discriminate).
  destruct (truthy (Auth.userId c)) eqn:Hid;
    [|simpl; intros [H|[]]; discriminate].
  cbn [negb].
  destruct (match Auth.exp c with
            | Some e => negb (e =? 0) && (e <? now / 1000)
            | None => false
            end) eqn:Hexp;
    [simpl; intros [H|[]]; discriminate|].
  destruct (Auth.parse_id cr _) as [oid|] eqn:Hparse;
    [|simpl; intros [H|[]]; discriminate].
  destruct (find _ users) as [user|] eqn:Hfind;
    [|simpl; intros [H|[]]; discriminate].
  intros _. exists c, oid, user.
  repeat split; auto.
  intros e He. rewrite He in Hexp.
  destruct (Z.eqb_spec e 0) as [E|E]; [now left|]. right.
  simpl in Hexp. now apply Z.ltb_ge.
Qed.

(** X24.  [authenticate] calls [next()] exactly for admissible requests: a
    [Bearer] header whose token has three dot-separated parts, whose third
    part is the base64url HMAC of the first two under [JWT_SECRET], and whose
    payload names an existing user and is not expired.  It then sets
    [req.user] to that user, sends no response, and calls [next()] twice:
    once inside the [try] block and once after it. *)
Theorem authenticate_admits_exactly_valid_tokens
        (authorization : option string) (users : list Auth.user_doc)
        (now : Z) :
  (In Auth.Next (Auth.events (Auth.authenticate cr JWT_SECRET authorization
                                users now))
   -> exists who,
        Auth.admissible cr JWT_SECRET authorization users now who
        /\ Auth.authenticate cr JWT_SECRET authorization users now
           = Auth.mkOutcome [Auth.Next; Auth.Next] (Some who) [])
  /\ (forall who,
        Auth.admissible cr JWT_SECRET authorization users now who ->
        Auth.authenticate cr JWT_SECRET authorization users now
        = Auth.mkOutcome [Auth.Next; Auth.Next] (Some who) []).
Proof.
  split.
  - unfold Auth.authenticate, Auth.reject.
    destruct (truthy authorization) eqn:Hauth;
      [|simpl; intros [H|[]]; discriminate].
    destruct (String.prefix "Bearer " (or_else authorization EmptyString))
      eqn:Hprefix; [|simpl; intros [H|[]]; discriminate].
    cbn [negb orb].
    destruct (truthy JWT_SECRET) eqn:Hsecret;
      [|simpl; intros [H|[]]; discriminate].
    cbn [negb].
    destruct (Auth.split "." _) as [|h [|p [|sig [|? ?]]]] eqn:Hsplit;
      try (simpl; intros [H|[]]; discriminate).
    destruct (String.eqb_spec sig (Auth.expectedSignature cr JWT_SECRET h p))
      as [Hsig|Hsig]; [|simpl; intros [H|[]]; discriminate].
    cbn [negb]. intros Hnext.
    destruct (checkPayload_accepts p users now Hnext)
      as (c & oid & user & Hdec & Hid & Hexp & Hparse & Hfind & Hrun).
    exists (Auth.mkPrincipal (Auth._id user) (Auth.email user)).
    split; [|exact Hrun].
    exists (or_else authorization EmptyString), h, p, c, oid, user.
    subst sig. repeat split; auto.
    now apply truthy_Some.
  - intros who (header & h & p & c & oid & user & Hauth & Hprefix & Hsecret
                & Hsplit & Hdec & Hid & Hexp & Hparse & Hfind & ->).
    unfold Auth.authenticate. subst authorization.
    assert (Hheader : truthy (Some header) = true).
    { destruct header; [discriminate Hprefix | reflexivity]. }
    assert (Hor : or_else (Some header) EmptyString = header).
    { destruct header; [discriminate Hprefix | reflexivity]. }
    rewrite Hheader, Hor, Hprefix, Hsecret. cbn [negb orb].
    rewrite Hsplit, String.eqb_refl. cbn [negb].
    unfold Auth.checkPayload. rewrite Hdec, Hid. cbn [negb].
    assert (Hlive : match Auth.exp c with
                    | Some e => negb (e =? 0) && (e <? now / 1000)
                    | None => false
                    end = false).
    { destruct (Auth.exp c) as [e|] eqn:He; [|reflexivity].
      destruct (Hexp e eq_refl) as [->|Hle]; [reflexivity|].
      destruct (Z.ltb_spec e (now / 1000)); [lia|].
      apply andb_false_r. }
    rewrite Hlive, Hparse, Hfind. reflexivity.
Qed.

(** X25.  Every request that is not let through gets exactly one error
    response and no [next()]: status 500 exactly when the header is a
    [Bearer] header and [JWT_SECRET] is missing, status 401 otherwise;
    [req.user] stays unset. *)
Theorem authenticate_rejects_with_one_response
        (authorization : option string) (users : list Auth.user_doc)
        (now : Z) :
  let r := Auth.authenticate cr JWT_SECRET authorization users now in
  Auth.events r = [Auth.Next; Auth.Next]
  \/ (Auth.req_user r = None
      /\ exists status error,
           Auth.events r = [Auth.Respond status error]
           /\ status
              = if truthy authorization
                   && String.prefix "Bearer " (or_else authorization EmptyString)
                   && negb (truthy JWT_SECRET)
                then 500 else 401).
Proof.
  unfold Auth.authenticate, Auth.checkPayload, Auth.reject.
  destruct (truthy authorization); cbn [negb orb andb];
    [|right; split; [reflexivity | eexists _, _; split; reflexivity]].
  destruct (String.prefix "Bearer " _); cbn [negb orb andb];
    [|right; split; [reflexivity | eexists _, _; split; reflexivity]].
  destruct (truthy JWT_SECRET); cbn [negb];
    [|right; split; [reflexivity | eexists _, _; split; reflexivity]].
  destruct (Auth.split "." _) as [|h [|p [|sig [|? ?]]]];
    try (right; split; [reflexivity | eexists _, _; split; reflexivity]).
  destruct (String.eqb sig _); cbn [negb];
    [|right; split; [reflexivity | eexists _, _; split; reflexivity]].
  destruct (Auth.decode_payload cr _) as [| |c];
    try (right; split; [reflexivity | eexists _, _; split; reflexivity]).
  destruct (truthy (Auth.userId c)); cbn [negb];
    [|right; split; [reflexivity | eexists _, _; split; reflexivity]].
  destruct (match Auth.exp c with Some _ => _ | None => _ end);
    [right; split; [reflexivity | eexists _, _; split; reflexivity]|].
  destruct (Auth.parse_id cr _);
    [|right; split; [reflexivity | eexists _, _; split; reflexivity]].
  destruct (find _ users);
    [now left | right; split; [reflexivity | eexists _, _; split; reflexivity]].
Qed.

End AuthClaims.

(** * The further statements on sample data *)

(** X1 on a relay used once. *)
Lemma sendEmail_keeps_within_limits_witness :
  within_limits
    (snd (sendEmail Sample.healthy Sample.static_env Sample.free_user
            Sample.hello Cases.used_once)).
Proof.
  apply sendEmail_keeps_within_limits.
  unfold within_limits, usage_ids_unique. simpl.
  split; [repeat constructor; simpl; intuition discriminate|].
  split; [repeat constructor; simpl; intuition discriminate|].
  split; [repeat constructor; simpl; lia|].
  split; [repeat constructor; simpl; lia|].
  intros doc u [<-|[]] H. vm_compute in H. injection H as <-. simpl. lia.
Defined.

(** X2 on a relay used once. *)
Lemma sendEmail_keeps_store_shape_witness :
  smtp_domains
    (snd (sendEmail Sample.healthy Sample.static_env Sample.free_user
            Sample.hello Cases.used_once))
  = [Cases.relay].
Proof.
  destruct (sendEmail_keeps_store_shape Sample.healthy Sample.static_env
              Sample.free_user Sample.hello Cases.used_once) as (H & _).
  - repeat constructor; simpl; intuition discriminate.
  - repeat constructor; simpl; intuition discriminate.
  - exact H.
Defined.

(** X3 on a registry whose first relay is exhausted. *)
Lemma getNextAvailableDomain_selected_has_quota_witness :
  exists u,
    usage_of 8 (snd (getNextAvailableDomain Sample.healthy Cases.first_full))
    = Some u
    /\ count u < 2.
Proof.
  destruct (getNextAvailableDomain_selected_has_quota Sample.healthy
              Cases.first_full
              (snd (getNextAvailableDomain Sample.healthy Cases.first_full))
              (toConfig Cases.second)) as (_ & H).
  - repeat constructor; simpl; intuition discriminate.
  - reflexivity.
  - exact H.
Defined.

(** X4 on a relay that was never checked. *)
Lemma hasQuota_first_use_available_witness :
  checkAvailability Sample.healthy (toConfig Cases.relay)
    (Sample.world [Cases.relay] [])
  = true.
Proof.
  destruct (hasQuota_first_use_available Sample.healthy (toConfig Cases.relay)
              (Sample.world [Cases.relay] [])) as (H & _).
  - constructor.
  - reflexivity.
  - exact H.
Defined.

(** X5 on a domain without a record. *)
Lemma recordUsage_first_use_witness :
  exists u,
    usage_of 7 (snd (recordUsage Sample.late 7 (Sample.world [Cases.relay] [])))
    = Some u
    /\ count u = 1.
Proof.
  destruct (recordUsage_first_use Sample.late 7 (Sample.world [Cases.relay] []))
    as (_ & u & Hu & Hc & _).
  - reflexivity.
  - exists u. split; [exact Hu | exact Hc].
Defined.

(** X6 for two more uses of a relay used once, and for three uses of a
    relay whose count is one short of 2^53. *)
Lemma recordUsages_count_witness :
  (usage_of 7 (recordUsages Sample.healthy 7 2 Cases.used_once)
   = Some (mkDomainUsage 1 7 0 3)
   /\ checkAvailability Sample.healthy (toConfig Cases.relay)
        (recordUsages Sample.healthy 7 2 Cases.used_once)
      = false)
  /\ usage_of 7
       (recordUsages Sample.healthy 7 3
          (Sample.world [Cases.relay]
             [mkDomainUsage 1 7 0 9007199254740991]))
     = Some (mkDomainUsage 1 7 0 9007199254740992).
Proof.
  split.
  - destruct (recordUsages_count Sample.healthy 7 2 Cases.used_once
                (mkDomainUsage 1 7 0 1)) as (H1 & H2 & _).
    + repeat constructor; simpl; intuition discriminate.
    + reflexivity.
    + unfold max_safe. cbn [count]. lia.
    + intros k Hk. unfold hour_ms, Sample.healthy, Sample.runtime, Sample.clock.
      cbn [Date_now clock_reads Cases.used_once Sample.world window_start]. lia.
    + split; [exact H1 | exact (H2 (toConfig Cases.relay) eq_refl)].
  - destruct (recordUsages_count Sample.healthy 7 3
                (Sample.world [Cases.relay]
                   [mkDomainUsage 1 7 0 9007199254740991])
                (mkDomainUsage 1 7 0 9007199254740991)) as (H1 & _).
    + repeat constructor; simpl; intuition discriminate.
    + reflexivity.
    + unfold max_safe. cbn [count]. lia.
    + intros k Hk. unfold hour_ms, Sample.healthy, Sample.runtime, Sample.clock.
      cbn [Date_now clock_reads Sample.world window_start]. lia.
    + exact H1.
Defined.

(** X7 for a premium user with Mailchimp configured, on a runtime whose
    transports would all accept. *)
Lemma premium_send_throws_type_error_witness :
  sendEmail Sample.healthy Cases.mailchimp_env Sample.pro_user Sample.hello
    Cases.used_once
  = (Throw (TypeError "send"),
     mkWorld [Cases.relay] [mkDomainUsage 1 7 0 1] 0 [] []).
Proof.
  exact (proj1 (premium_send_throws_type_error Sample.healthy
                  Cases.mailchimp_env Sample.pro_user Sample.hello
                  Cases.used_once eq_refl)
           eq_refl eq_refl).
Defined.

(** X8 when the relay's transport is down and no fallback is
    configured. *)
Lemma domain_failure_falls_back_witness :
  fst (sendEmail Sample.offline Sample.bare_env Sample.free_user Sample.hello
         Cases.used_once)
  = Throw TransportExhausted
  /\ smtp_domain_usage
       (snd (sendEmail Sample.offline Sample.bare_env Sample.free_user
               Sample.hello Cases.used_once))
     = [mkDomainUsage 1 7 0 1].
Proof.
  destruct (domain_failure_falls_back Sample.offline Sample.bare_env
              Sample.free_user Sample.hello Cases.used_once
              (snd (getNextAvailableDomain Sample.offline Cases.used_once))
              (toConfig Cases.relay) (Rejected "ECONNREFUSED"))
    as (H1 & H2).
  - reflexivity.
  - reflexivity.
  - reflexivity.
  - split; [now rewrite H1 | exact H2].
Defined.

(** X9 for an exhausted one-relay pool with the mailbox configured. *)
Lemma exhausted_pool_last_resort_witness :
  fst (sendEmail Sample.healthy Sample.mailbox_env Sample.free_user
         Sample.hello
         (Sample.world [Sample.relay 7 "a.example" 1 0]
            [mkDomainUsage 1 7 0 1]))
  = Ok (SmtpDevData Sample.inbox).
Proof.
  destruct (exhausted_pool_last_resort Sample.healthy Sample.mailbox_env
              Sample.free_user Sample.hello
              (Sample.world [Sample.relay 7 "a.example" 1 0]
                 [mkDomainUsage 1 7 0 1])) as (H & _).
  - reflexivity.
  - intros doc [<-|[]]. exists (mkDomainUsage 1 7 0 1).
    split; [reflexivity|]. split; [simpl; lia|].
    intros k Hk. simpl in Hk.
    assert (k = 0%nat) as -> by lia. reflexivity.
  - reflexivity.
  - exact H.
Defined.

(** X10 for a relay added with an explicit priority. *)
Lemma addDomain_extends_registry_witness :
  exists doc,
    Doc.order doc = 5
    /\ smtp_domains
         (snd (addDomain Sample.healthy
                 (NewDomain.mk "c.example" 587 false "mailer" "secret"
                    "c.example" 10 (Some 5))
                 Cases.used_once))
       = [Cases.relay; doc]
    /\ NoDup [Doc._id Cases.relay; Doc._id doc].
Proof.
  destruct (addDomain_extends_registry Sample.healthy
              (NewDomain.mk "c.example" 587 false "mailer" "secret"
                 "c.example" 10 (Some 5))
              Cases.used_once)
    as (doc & Hrun & _ & _ & Horder & _ & Hnd).
  exists doc. split; [exact (Horder 5 eq_refl)|].
  rewrite Hrun in *. cbn [snd smtp_domains] in *.
  split; [reflexivity|].
  apply Hnd. repeat constructor; simpl; intuition discriminate.
Defined.

(** X11 for three relays added in a row. *)
Lemma addDomains_priority_is_call_order_witness :
  exists ds,
    fst (getDomains
           (addDomains Sample.healthy
              [Sample.newRelay "a.example"; Sample.newRelay "b.example";
               Sample.newRelay "c.example"]
              (Sample.world [] [])))
    = Ok ds
    /\ map host ds = ["a.example"; "b.example"; "c.example"]
    /\ map order ds = [0; 1; 2].
Proof.
  destruct (addDomains_priority_is_call_order Sample.healthy
              [Sample.newRelay "a.example"; Sample.newRelay "b.example";
               Sample.newRelay "c.example"]
              (Sample.world [] [])) as (ds & H1 & H2 & _ & H4).
  - reflexivity.
  - repeat constructor.
  - exists ds. split; [exact H1|]. split; [exact H2 | exact H4].
Defined.

(** X26 for a relay whose window is more than an hour old. *)
Lemma expired_window_restores_domain_witness :
  fst (getNextAvailableDomain Sample.late
         (Sample.world [Cases.relay] [mkDomainUsage 1 7 0 3]))
  = Ok (Some (toConfig Cases.relay)).
Proof.
  destruct (expired_window_restores_domain Sample.late
              (Sample.world [Cases.relay] [mkDomainUsage 1 7 0 3])
              (toConfig Cases.relay) [] (mkDomainUsage 1 7 0 3)) as (H & _).
  - repeat constructor; simpl; intuition discriminate.
  - reflexivity.
  - reflexivity.
  - vm_compute. discriminate.
  - reflexivity.
  - exact H.
Defined.

(** X27 on a registry whose first relay is exhausted: the mail leaves
    through b.example. *)
Lemma sendEmail_counts_one_use_witness :
  requests
    (snd (sendEmail Sample.healthy Sample.bare_env Sample.free_user
            Sample.hello Cases.first_full))
  = [ReqSendMail
       (Smtp.mkTransport "b.example" (Some 587) false "mailer" "secret")
       (Smtp.mkMail "b.example" "bob@example.org" "Hello" (Some "Hi Bob")
          None)]
  /\ usage_of 8
       (snd (sendEmail Sample.healthy Sample.bare_env Sample.free_user
               Sample.hello Cases.first_full))
     = Some (mkDomainUsage 2 8 0 1)
  /\ usage_of 7
       (snd (sendEmail Sample.healthy Sample.bare_env Sample.free_user
               Sample.hello Cases.first_full))
     = Some (mkDomainUsage 1 7 0 3).
Proof.
  destruct (sendEmail_counts_one_use Sample.healthy Sample.bare_env
              Sample.free_user Sample.hello [toConfig Cases.relay] []
              (toConfig Cases.second) Cases.first_full (mkDomainUsage 2 8 0 0)
              "250 queued") as (_ & H0 & H1 & H2 & _).
  - reflexivity.
  - repeat constructor; simpl; intuition discriminate.
  - reflexivity.
  - intros x [<-|[]]. exists (mkDomainUsage 1 7 0 3).
    split; [reflexivity|]. split; [simpl; lia|].
    intros k Hk. simpl in Hk. assert (k = 0%nat) as -> by lia. reflexivity.
  - reflexivity.
  - simpl. lia.
  - unfold max_safe. cbn [count]. lia.
  - intros k Hk. unfold hour_ms, Sample.healthy, Sample.runtime, Sample.clock.
    cbn [Date_now clock_reads Cases.first_full Sample.world window_start
         List.length].
    lia.
  - reflexivity.
  - split; [exact H0|]. split; [exact H1|].
    rewrite (H2 7%nat); [reflexivity | discriminate].
Defined.

(** X28 for two sends through a relay of limit 3 used once: both leave
    through a.example and fill its quota. *)
Lemma sendEmails_fill_the_quota_witness :
  usage_of 7
    (sendEmails Sample.healthy Sample.bare_env Sample.free_user
       [Sample.hello; Sample.hello] Cases.used_once)
  = Some (mkDomainUsage 1 7 0 3)
  /\ requests
       (sendEmails Sample.healthy Sample.bare_env Sample.free_user
          [Sample.hello; Sample.hello] Cases.used_once)
     = [ReqSendMail
          (Smtp.mkTransport "a.example" (Some 587) false "mailer" "secret")
          (Smtp.mkMail "a.example" "bob@example.org" "Hello" (Some "Hi Bob")
             None);
        ReqSendMail
          (Smtp.mkTransport "a.example" (Some 587) false "mailer" "secret")
          (Smtp.mkMail "a.example" "bob@example.org" "Hello" (Some "Hi Bob")
             None)]
  /\ checkAvailability Sample.healthy (toConfig Cases.relay)
       (sendEmails Sample.healthy Sample.bare_env Sample.free_user
          [Sample.hello; Sample.hello] Cases.used_once)
     = false.
Proof.
  destruct (sendEmails_fill_the_quota Sample.healthy Sample.bare_env
              Sample.free_user (toConfig Cases.relay) []
              [Sample.hello; Sample.hello] Cases.used_once
              (mkDomainUsage 1 7 0 1)) as (H1 & H2 & H3 & _).
  - reflexivity.
  - repeat constructor; simpl; intuition discriminate.
  - reflexivity.
  - reflexivity.
  - simpl. lia.
  - unfold max_safe. cbn [count]. lia.
  - unfold max_safe. cbn [count List.length]. lia.
  - intros k Hk. unfold hour_ms, Sample.healthy, Sample.runtime, Sample.clock.
    cbn [Date_now clock_reads Cases.used_once Sample.world window_start
         List.length] in *.
    lia.
  - intros k tr mail. exists "250 queued". reflexivity.
  - split; [exact H1|]. split; [exact H2 | exact H3].
Defined.

(** X12 for Alice's unread note. *)
Lemma getNote_marks_read_and_keeps_witness :
  fst (getNote Cases.platform "id-1" "alice" Cases.store) = Some Cases.note1
  /\ List.length
       (secure_notes (snd (getNote Cases.platform "id-1" "alice" Cases.store)))
     = 2%nat.
Proof.
  destruct (getNote_marks_read_and_keeps Cases.platform Cases.store "id-1"
              Cases.note1) as (H1 & _ & H3 & _).
  - repeat constructor; simpl; intuition discriminate.
  - now left.
  - reflexivity.
  - reflexivity.
  - reflexivity.
  - split; [exact H1 | exact H3].
Defined.

(** X13 for Bob asking for Alice's note. *)
Lemma note_access_is_owner_only_witness :
  fst (getNote Cases.platform "id-1" "bob" Cases.store) = None
  /\ fst (deleteNote Cases.platform "id-1" "bob" Cases.store) = false.
Proof.
  destruct (note_access_is_owner_only Cases.platform Cases.store "id-1" "bob")
    as (H1 & H2 & _).
  - intros n [<-|[<-|[]]] H; [discriminate | discriminate H].
  - split; [exact H1 | exact H2].
Defined.

(** X14 for Alice deleting her note. *)
Lemma deleteNote_removes_exactly_that_note_witness :
  secure_notes (snd (deleteNote Cases.platform "id-1" "alice" Cases.store))
  = [Cases.note2].
Proof.
  destruct (deleteNote_removes_exactly_that_note Cases.platform Cases.store
              "id-1" Cases.note1) as (_ & H & _).
  - repeat constructor; simpl; intuition discriminate.
  - now left.
  - reflexivity.
  - exact H.
Defined.

(** X15 for a third note. *)
Lemma createNote_then_getNote_witness :
  exists note,
    fst (getNote Cases.platform "id-3" "carol"
           (snd (createNote Sample.healthy "carol" "todo" "0xC3" false None
                   Cases.store)))
    = Some note
    /\ Note.title note = "todo".
Proof.
  destruct (createNote_then_getNote Sample.healthy Cases.platform Cases.store
              "carol" "todo" "0xC3" false None "id-3")
    as (note & Hmade & Hfields & _ & Hget).
  exists note. injection Hmade as <-.
  split; [exact (proj1 (Hget eq_refl)) | reflexivity].
Defined.

(** X16 for Alice's protected file: the right password, a wrong one and
    none. *)
Lemma getFile_password_gate_witness :
  fst (getFile Cases.platform "id-1" (Some "hunter2") Cases.store)
  = Some Cases.file1
  /\ fst (getFile Cases.platform "id-1" (Some "letmein") Cases.store) = None
  /\ fst (getFile Cases.platform "id-1" None Cases.store) = None.
Proof.
  assert (Hnd : NoDup (map File._id (secure_files Cases.store)))
    by (repeat constructor; simpl; intuition discriminate).
  split; [|split].
  - rewrite (getFile_password_gate Cases.platform Cases.store "id-1"
               (Some "hunter2") Cases.file1 Hnd (or_introl eq_refl) eq_refl).
    reflexivity.
  - rewrite (getFile_password_gate Cases.platform Cases.store "id-1"
               (Some "letmein") Cases.file1 Hnd (or_introl eq_refl) eq_refl).
    reflexivity.
  - rewrite (getFile_password_gate Cases.platform Cases.store "id-1"
               None Cases.file1 Hnd (or_introl eq_refl) eq_refl).
    reflexivity.
Defined.

(** X17 for a file that has already reached its download limit, and for
    a file whose count stands at 2^53. *)
Lemma incrementDownloadCount_adds_one_witness :
  let worn :=
    File.mk 3 "carol" "log.txt" "s3://bucket/3" 10 false None None None true
      9007199254740992 "2024-05-03T08:00:00.000Z" in
  (File.max_downloads Cases.file1 = Some (File.download_count Cases.file1)
   /\ fst (incrementDownloadCount Cases.platform "id-1" Cases.store) = true
   /\ map File.download_count
        (secure_files
           (snd (incrementDownloadCount Cases.platform "id-1" Cases.store)))
      = [2; 0])
  /\ fst (incrementDownloadCount Cases.platform "id-3"
            (mkStore [] [worn] [] 0 []))
     = false
  /\ filter (fun f => Nat.eqb (File._id f) 3)
       (secure_files
          (snd (incrementDownloadCount Cases.platform "id-3"
                  (mkStore [] [worn] [] 0 []))))
     = [worn].
Proof.
  intros worn. split.
  - destruct (incrementDownloadCount_adds_one Cases.platform Cases.store
                "id-1" Cases.file1) as (H1 & _).
    + repeat constructor; simpl; intuition discriminate.
    + now left.
    + reflexivity.
    + unfold max_safe. cbn [File.download_count Cases.file1]. lia.
    + split; [reflexivity|]. split; [exact H1 | reflexivity].
  - destruct (incrementDownloadCount_adds_one Cases.platform
                (mkStore [] [worn] [] 0 []) "id-3" worn) as (H1 & H2 & _).
    + repeat constructor; simpl; intuition discriminate.
    + now left.
    + reflexivity.
    + unfold max_safe. cbn [File.download_count worn]. lia.
    + split; [exact H1 | exact H2].
Defined.

(** X18 for a protected file created with a password. *)
Lemma createFile_then_getFile_witness :
  exists file,
    fst (getFile Cases.platform "id-3" (Some "s3cret")
           (snd (createFile Sample.healthy Cases.platform "carol" "cv.pdf"
                   "s3://bucket/3" 512 true (Some "s3cret") None None None
                   Cases.store)))
    = Some file
    /\ fst (getFile Cases.platform "id-3" (Some "guess")
              (snd (createFile Sample.healthy Cases.platform "carol" "cv.pdf"
                      "s3://bucket/3" 512 true (Some "s3cret") None None None
                      Cases.store)))
       = None.
Proof.
  destruct (createFile_then_getFile Sample.healthy Cases.platform Cases.store
              "carol" "cv.pdf" "s3://bucket/3" 512 true (Some "s3cret") None
              None None "id-3") as (file & Hmade & Hget).
  exists file. injection Hmade as <-.
  destruct (Hget eq_refl) as (_ & Hprot).
  destruct (Hprot eq_refl eq_refl eq_refl) as (Hall & Hown).
  split; [exact (Hown eq_refl)|].
  rewrite (Hall (Some "guess")). reflexivity.
Defined.

(** X19 for a protected file created with an empty password. *)
Lemma protected_file_without_password_is_unreachable_witness :
  fst (getFile Cases.platform "id-3" (Some "anything")
         (snd (createFile Sample.healthy Cases.platform "carol" "cv.pdf"
                 "s3://bucket/3" 512 true (Some EmptyString) None None None
                 Cases.store)))
  = None.
Proof.
  destruct (protected_file_without_password_is_unreachable Sample.healthy
              Cases.platform Cases.store "carol" "cv.pdf" "s3://bucket/3" 512
              (Some EmptyString) None None None "id-3" (Some "anything")
              eq_refl) as (file & Hmade & _ & _ & Hget).
  injection Hmade as <-. exact (Hget eq_refl).
Defined.

(** X20 for Alice's first address. *)
Lemma deactivateEmail_once_witness :
  fst (deactivateEmail Cases.platform "id-1" "alice" Cases.store) = true
  /\ fst (deactivateEmail Cases.platform "id-1" "alice"
            (snd (deactivateEmail Cases.platform "id-1" "alice" Cases.store)))
     = false
  /\ fst (getUserEmails "alice"
            (snd (deactivateEmail Cases.platform "id-1" "alice" Cases.store)))
     = [Cases.email2].
Proof.
  destruct (deactivateEmail_once Cases.platform Cases.store "id-1" Cases.email1)
    as (H1 & _ & _ & _ & H5).
  - repeat constructor; simpl; intuition discriminate.
  - now left.
  - reflexivity.
  - reflexivity.
  - split; [exact H1|]. split; [exact (f_equal fst H5) | reflexivity].
Defined.

(** X24 for a well-signed token of an existing user. *)
Lemma authenticate_admits_exactly_valid_tokens_witness :
  Auth.authenticate Cases.crypto (Some "topsecret") (Some Cases.bearer)
    Cases.users 1700000000000
  = Auth.mkOutcome [Auth.Next; Auth.Next]
      (Some (Auth.mkPrincipal 1 "alice@example.org")) [].
Proof.
  apply (proj2 (authenticate_admits_exactly_valid_tokens Cases.crypto
                  (Some "topsecret") (Some Cases.bearer) Cases.users
                  1700000000000)).
  exists Cases.bearer, "aGVhZGVy", "eyJ1c2VyIn0-_",
    (Auth.mkClaims (Some "id-1") (Some 2000000000)), 1%nat,
    (Auth.mkUserDoc 1 "alice@example.org").
  repeat split; try reflexivity.
  intros e [= <-]. right. vm_compute. discriminate.
Defined.

(** X29 for Alice's file, asked for by Bob and then by Alice. *)
Lemma deleteFile_owner_only_witness :
  deleteFile Cases.platform "id-1" "bob" Cases.store = (false, Cases.store)
  /\ deleteFile Cases.platform "id-1" "alice" Cases.store
     = (true, with_files [Cases.file2] Cases.store).
Proof.
  assert (Hnd : NoDup (map File._id (secure_files Cases.store)))
    by (repeat constructor; simpl; intuition discriminate).
  split.
  - rewrite (deleteFile_owner_only Cases.platform Cases.store "id-1" "bob"
               Cases.file1 Hnd (or_introl eq_refl) eq_refl).
    reflexivity.
  - rewrite (deleteFile_owner_only Cases.platform Cases.store "id-1" "alice"
               Cases.file1 Hnd (or_introl eq_refl) eq_refl).
    reflexivity.
Defined.
